(** * Blueprint state engine of the drag-and-drop page builder

    A shallow embedding of the state-handling code of
    [src/components/Drag.jsx] (the page builder that [App.tsx] mounts),
    of its earlier form [src/components/DragAdvanced.jsx], and of the first
    form [DragDrop] kept in the history of [Drag.jsx], together with the
    properties the specification states about them.

    JavaScript values are modelled as trees ([Js.value]); objects used as
    records are finite maps from field names to values.  Numbers are the
    integer-valued doubles and [NaN]; positive and negative zero are not
    told apart, and integers are exact (no rounding to 53 bits). *)

From Stdlib Require Import ZArith String Ascii List Permutation Lia.
From stdpp Require Import gmap strings list fin_maps pretty.

Open Scope string_scope.
Open Scope list_scope.
Open Scope Z_scope.

(* ===================================================================== *)
(** ** JavaScript values and the built-ins the handlers call             *)
(* ===================================================================== *)

Module Js.

(** A JavaScript number as far as the handlers produce one: [NaN] and
    the integers, taken as exact.  The rounding of integers beyond
    [2 ^ 53] and the infinities, which [parseInt] gives for a text of
    more than 308 digits, are left out. *)
Inductive number := NaN | Num (z : Z).

#[warnings="-register-all"]
Inductive value :=
  | VNull
  | VBool (b : bool)
  | VNum (n : number)
  | VStr (s : string)
  | VArr (l : list value)
  | VObj (m : gmap string value).

Global Instance number_eq_dec : EqDecision number.
Proof. solve_decision. Defined.

(** Errors a handler can end with.  [IllTyped] is not a JavaScript error:
    it marks props whose fields do not have the types the handler reads
    them at, where JavaScript would coerce; such props are outside the
    model. *)
Inductive error := RangeError | TypeError | SyntaxError | IllTyped.

Inductive result (A : Type) :=
  | Ok (a : A)
  | Throw (e : error).
Arguments Ok {A} a.
Arguments Throw {A} e.

Global Instance result_ret : MRet result := λ A a, Ok a.
Global Instance result_bind : MBind result := λ A B f r,
  match r with
  | Ok a => f a
  | Throw e => Throw e
  end.

(** *** Arithmetic and comparison on numbers *)

Definition sub (a b : number) : number :=
  match a, b with
  | Num x, Num y => Num (x - y)
  | _, _ => NaN
  end.

(** [a > 0]: false for [NaN]. *)
Definition gt0 (a : number) : bool :=
  match a with
  | Num x => 0 <? x
  | NaN => false
  end.

(** [x || 0] on a number: [NaN] and [0] are falsy. *)
Definition or0 (a : number) : number :=
  match a with
  | Num x => if x =? 0 then Num 0 else Num x
  | NaN => Num 0
  end.

(** [ToNumber] of a field read for arithmetic: an absent field reads as
    [undefined], whose number is [NaN].  Values that are not numbers are
    not coerced by the model. *)
Definition to_number (v : option value) : result number :=
  match v with
  | None => Ok NaN
  | Some (VNum n) => Ok n
  | Some _ => Throw IllTyped
  end.

Definition len {A} (l : list A) : number := Num (Z.of_nat (length l)).
Global Arguments len : simpl never.

(** *** [parseInt(s, 10)] *)

(** White space is skipped as far as it is ASCII. *)

Definition is_white (c : ascii) : bool :=
  let n := nat_of_ascii c in
  ((9 <=? n) && (n <=? 13))%nat || (n =? 32)%nat.

Definition is_digit (c : ascii) : bool :=
  let n := nat_of_ascii c in
  ((48 <=? n) && (n <=? 57))%nat.

Definition digit_val (c : ascii) : Z := Z.of_nat (nat_of_ascii c) - 48.

Fixpoint skip_white (s : string) : string :=
  match s with
  | String c r => if is_white c then skip_white r else s
  | EmptyString => s
  end.

(** The value of the longest prefix of decimal digits, [None] when the
    prefix is empty. *)
Fixpoint digits (s : string) (acc : option Z) : option Z :=
  match s with
  | String c r =>
      if is_digit c
      then digits r (Some (10 * default 0 acc + digit_val c))
      else acc
  | EmptyString => acc
  end.

Definition parseInt (s : string) : number :=
  let s := skip_white s in
  let '(neg, s) :=
    match s with
    | String "-" r => (true, r)
    | String "+" r => (false, r)
    | _ => (false, s)
    end in
  match digits s None with
  | Some z => Num (if neg : bool then - z else z)
  | None => NaN
  end.

(** [s.startsWith(p)] *)
Fixpoint startsWith (s p : string) {struct p} : bool :=
  match p, s with
  | EmptyString, _ => true
  | String a p', String b s' => if Ascii.eqb a b then startsWith s' p' else false
  | String _ _, EmptyString => false
  end.
Global Arguments startsWith : simpl never.

(** *** Arrays *)

(** A number is an array length when it is an integer in [0, 2^32). *)
Definition valid_length (n : number) : bool :=
  match n with
  | Num z => (0 <=? z) && (z <? 2 ^ 32)
  | NaN => false
  end.

Definition to_nat (n : number) : nat :=
  match n with
  | Num z => Z.to_nat z
  | NaN => 0%nat
  end.

(** [Array(n).fill(x)] *)
Definition Array_fill {A} (n : number) (x : A) : result (list A) :=
  if valid_length n then Ok (replicate (to_nat n) x) else Throw RangeError.

(** [arr.length = n].  Every assignment of this form in the handlers sits
    in the else-branch of a test [n - arr.length > 0], so a valid [n] never
    exceeds the current length and the array is truncated. *)
Definition set_length {A} (arr : list A) (n : number) : result (list A) :=
  if valid_length n then Ok (take (to_nat n) arr) else Throw RangeError.

(** *** JSON *)

(** A JSON document.  The text that [JSON.stringify] writes is identified
    with the document it denotes; indentation is not modelled. *)
#[warnings="-register-all"]
Inductive json :=
  | JNull
  | JBool (b : bool)
  | JNumber (z : Z)
  | JString (s : string)
  | JArray (l : list json)
  | JObject (m : gmap string json).

(** [JSON.stringify]: [NaN] is written as [null]. *)
Fixpoint JSON_stringify (v : value) : json :=
  match v with
  | VNull => JNull
  | VBool b => JBool b
  | VNum NaN => JNull
  | VNum (Num z) => JNumber z
  | VStr s => JString s
  | VArr l => JArray (JSON_stringify <$> l)
  | VObj m => JObject (JSON_stringify <$> m)
  end.

Fixpoint JSON_parse (j : json) : value :=
  match j with
  | JNull => VNull
  | JBool b => VBool b
  | JNumber z => VNum (Num z)
  | JString s => VStr s
  | JArray l => VArr (JSON_parse <$> l)
  | JObject m => VObj (JSON_parse <$> m)
  end.

(** [JSON.parse(JSON.stringify(v))], the deep copy the handlers use. *)
Definition json_clone (v : value) : value := JSON_parse (JSON_stringify v).

(** No [NaN] anywhere in the value. *)
Fixpoint finite (v : value) : bool :=
  match v with
  | VNum NaN => false
  | VArr l => forallb finite l
  | VObj m => map_fold (λ _ x acc, finite x && acc) true m
  | _ => true
  end.

(** Truthiness, as [&&], [||] and [?:] test it. *)
Definition truthy (v : option value) : bool :=
  match v with
  | None | Some VNull => false
  | Some (VBool b) => b
  | Some (VNum NaN) => false
  | Some (VNum (Num z)) => negb (z =? 0)
  | Some (VStr s) => negb (String.eqb s "")
  | Some (VArr _) | Some (VObj _) => true
  end.

Definition as_object (v : value) : gmap string value :=
  match v with
  | VObj m => m
  | _ => ∅
  end.

(** Object and array literals. *)
Definition obj (l : list (string * value)) : value := VObj (list_to_map l).
Definition num (z : Z) : value := VNum (Num z).

(** [{...v}]: the own enumerable properties of [v]. *)
Definition spread (v : option value) : gmap string value :=
  match v with
  | Some (VObj m) => m
  | Some (VArr l) => list_to_map (imap (λ i x, (pretty i, x)) l)
  | Some (VStr s) =>
      list_to_map (imap (λ i c, (pretty i, VStr (String c EmptyString)))
                        (list_ascii_of_string s))
  | _ => ∅
  end.

End Js.

Import Js.

(* ===================================================================== *)
(** ** The component sequence                                            *)
(* ===================================================================== *)

Module Blueprint.

(** One placed component: [{ id, type, props }]. *)
Record component := Component {
  id : string;
  type : string;
  props : gmap string value;
}.

(** [arr.findIndex(c => c.id === x)]: the first index, [-1] when none. *)
Fixpoint findIndex_from (x : string) (l : list component) (i : Z) : Z :=
  match l with
  | [] => -1
  | c :: r => if String.eqb (id c) x then i else findIndex_from x r (i + 1)
  end.

Definition findIndex (x : string) (l : list component) : Z :=
  findIndex_from x l 0.

(** [arr.some(c => c.id === x)] *)
Definition some (x : string) (l : list component) : bool :=
  existsb (λ c, String.eqb (id c) x) l.

(** The position [Array.prototype.splice] starts at: a negative [start]
    counts from the end, and the result is clamped to [0, length]. *)
Definition splice_start {A} (l : list A) (start : Z) : nat :=
  if start <? 0
  then Z.to_nat (Z.max (Z.of_nat (length l) + start) 0)
  else Z.to_nat (Z.min start (Z.of_nat (length l))).

(** [arr.splice(start, 0, x)] *)
Definition splice_insert {A} (l : list A) (start : Z) (x : A) : list A :=
  let k := splice_start l start in
  take k l ++ x :: drop k l.

(** [arr.splice(start, 1)]: the removed elements and the array left. *)
Definition splice_remove {A} (l : list A) (start : Z) : list A * list A :=
  let k := splice_start l start in
  (take 1 (drop k l), take k l ++ drop (S k) l).

(** Modelled from the spec: [arrayMove] is imported from the package
    [@dnd-kit/sortable] and its source is not part of the repository.  The
    spec's [moveRange(fromIndex, toIndex)] removes the element at
    [fromIndex] and re-inserts it at [toIndex] computed against the
    post-removal sequence; the package does so as
    [a = array.slice(); a.splice(to < 0 ? a.length + to : to, 0,
     a.splice(from, 1)[0])], the insertion index being evaluated before the
    removal.  On the empty array nothing is removed and JavaScript would
    insert [undefined]; no handler calls it there with a component to move,
    and the model leaves the array as it is. *)
Definition arrayMove {A} (array : list A) (from to : Z) : list A :=
  let at_ := if to <? 0 then Z.of_nat (length array) + to else to in
  let '(removed, newArray) := splice_remove array from in
  match removed with
  | x :: _ => splice_insert newArray at_ x
  | [] => newArray
  end.

(** [handleUpdateComponent(id, newProps)], the same in all three files:
    [c.map(comp => comp.id === id ? { ...comp, props: newProps } : comp)]. *)
Definition handleUpdateComponent (i : string) (newProps : gmap string value)
    (c : list component) : list component :=
  (λ comp,
     if String.eqb (id comp) i
     then {| id := id comp; type := type comp; props := newProps |}
     else comp) <$> c.

(** [canvasComponents.find(c => c.id === x)] *)
Definition find (x : string) (l : list component) : option component :=
  List.find (λ c, String.eqb (id c) x) l.

End Blueprint.

(** The [e.target] of a change event of a form control. *)
Module Target.
Record t := Make {
  name : string;
  value : string;
  type : string;
  checked : bool;
}.
End Target.

(** Object URLs: [URL.createObjectURL] and [URL.revokeObjectURL]. *)
Module Url.

Record File := { file_type : string }.

(** The object URLs that are live, the calls of [revokeObjectURL] so far
    in order, and the number of URLs minted. *)
Record env := Env {
  live : gset string;
  revoked : list string;
  minted : nat;
}.

Definition createObjectURL (e : env) : string * env :=
  let u := "blob:" +:+ pretty (minted e) in
  (u, {| live := {[u]} ∪ live e; revoked := revoked e; minted := S (minted e) |}).

Definition revokeObjectURL (u : string) (e : env) : env :=
  {| live := live e ∖ {[u]}; revoked := revoked e ++ [u]; minted := minted e |}.

End Url.

Import Blueprint.

(* ===================================================================== *)
(** ** [Drag.jsx]: the builder with tables and images                    *)
(* ===================================================================== *)

Module Drag.

(** [Object.keys(COMPONENT_MAP)], the palette. *)
Definition availableComponents : list string :=
  ["Text"; "Description"; "Image"; "Table"].

(** [Array.from({ length: n }, f)]: a negative [n] gives the empty array;
    from [2 ^ 32] on, [n] is no length of an array and the call ends in a
    [RangeError]; [f] is called for the indices in turn and may throw. *)
Definition Array_from {A} (n : Z) (f : nat → result A) : result (list A) :=
  if n <? 2 ^ 32 then mapM f (seq 0 (Z.to_nat n)) else Throw RangeError.

Definition generateDefaultTableData (rows cols : Z) (hasHeader : bool)
    : result value :=
  let actualRows := if hasHeader then rows - 1 else rows in
  headers ←
    Array_from cols (λ i, Ok (VStr ("Header " +:+ pretty (i + 1)%nat)));
  cells ←
    Array_from actualRows (λ r,
      row ← Array_from cols (λ c,
               Ok (VStr ("Cell " +:+ pretty (r + 1)%nat +:+ "-"
                         +:+ pretty (c + 1)%nat)));
      Ok (VArr row));
  Ok (obj [("headers", VArr headers); ("cells", VArr cells)]).

(** The value of an initialiser of a constant of the module.  The module
    is loaded, so the initialiser has returned. *)
Definition loaded (r : result value) : value :=
  match r with
  | Ok v => v
  | Throw _ => VNull
  end.

Definition margins (t b : Z) : list (string * value) :=
  [("marginTop", num t); ("marginBottom", num b);
   ("marginLeft", num 0); ("marginRight", num 0)].

Definition DEFAULT_PROPS : gmap string value :=
  list_to_map [
    ("Button", obj [
       ("text", VStr "Click Me"); ("variant", VStr "default");
       ("styles", obj (margins 0 8 ++
          [("fontSize", num 14); ("color", VStr "#FFFFFF")]))]);
    ("Input", obj [
       ("label", VStr "Field Label"); ("placeholder", VStr "Enter value...");
       ("styles", obj (margins 10 4 ++
          [("fontSize", num 14); ("color", VStr "#334155")]))]);
    ("Textarea", obj [
       ("label", VStr "Message"); ("placeholder", VStr "Your message here");
       ("styles", obj (margins 10 4 ++
          [("fontSize", num 14); ("color", VStr "#334155")]))]);
    ("Separator", obj [("styles", obj (margins 10 4))]);
    ("Image", obj [
       ("src", VStr "https://images.unsplash.com/photo-1599420186946-7b6fb4e297f0?ixlib=rb-1.2.1&auto=format&fit=crop&w=800&q=80");
       ("alt", VStr "A placeholder image");
       ("styles", obj (margins 10 4))]);
    ("Table", obj [
       ("rows", num 4); ("cols", num 4); ("hasHeader", VBool true);
       ("data", loaded (generateDefaultTableData 4 4 true));
       ("styles", obj (margins 10 4))]);
    ("Text", obj [
       ("text", VStr "This is an editable text block. Click to select and edit in the properties panel.");
       ("styles", obj (margins 8 8 ++
          [("fontSize", num 18); ("color", VStr "#1e293b")]))]);
    ("Description", obj [
       ("text", VStr "This is a smaller description text. Use it for details, captions, or supplementary information.");
       ("styles", obj (margins 4 4 ++
          [("fontSize", num 14); ("color", VStr "#475569")]))]);
    ("Graph", obj [
       ("chartType", VStr "bar"); ("styles", obj (margins 10 4))])
  ].

(** [handleDragEnd({ active, over })]; [now] is what [Date.now()] returns.
    The result is the component sequence after the event.  For a type
    without an entry in [DEFAULT_PROPS] the copy through JSON throws and
    no state is set; every palette entry has one. *)
Definition handleDragEnd (now : Z) (canvasComponents : list component)
    (active : string) (over : option string) : list component :=
  match over with
  | None => canvasComponents
  | Some over =>
      let isAddingNewComponent := bool_decide (active ∈ availableComponents) in
      if isAddingNewComponent then
        match DEFAULT_PROPS !! active with
        | Some template =>
            let newComponent :=
              {| id := active +:+ "-" +:+ pretty now;
                 type := active;
                 props := as_object (json_clone template) |} in
            let overIndex := findIndex over canvasComponents in
            if negb (overIndex =? -1)
            then splice_insert canvasComponents overIndex newComponent
            else canvasComponents ++ [newComponent]
        | None => canvasComponents
        end
      else
        let isActiveAComponentOnCanvas := some active canvasComponents in
        let isOverAComponentOnCanvas := some over canvasComponents in
        if isActiveAComponentOnCanvas && isOverAComponentOnCanvas
           && negb (String.eqb active over)
        then
          let oldIndex := findIndex active canvasComponents in
          let newIndex := findIndex over canvasComponents in
          arrayMove canvasComponents oldIndex newIndex
        else canvasComponents
  end.

(** The value a control contributes: [type === "checkbox" ? checked : value]. *)
Definition handlePropChange (props : gmap string value) (e : Target.t)
    : gmap string value :=
  <[Target.name e :=
      if String.eqb (Target.type e) "checkbox"
      then VBool (Target.checked e)
      else VStr (Target.value e)]> props.

(** [handleStyleChange]: the props handed to [onUpdate]. *)
Definition handleStyleChange (props : gmap string value) (e : Target.t)
    : gmap string value :=
  <["styles" :=
      VObj (<[Target.name e :=
                if String.eqb (Target.type e) "number"
                then VNum (parseInt (Target.value e))
                else VStr (Target.value e)]> (spread (props !! "styles")))]>
    props.

(** *** Structural resize of a table *)

(** Reading a field as an array to take its [length]: [undefined] and
    [null] throw, other non-arrays are outside the model. *)
Definition get_array (v : option value) : result (list value) :=
  match v with
  | Some (VArr l) => Ok l
  | None | Some VNull => Throw TypeError
  | Some _ => Throw IllTyped
  end.

(** [for (let i = 0; i < rowDiff; i++)
       newCells.push(Array(newCols).fill("New Cell"))] *)
Fixpoint push_rows (rowDiff : nat) (newCols : number) (newCells : list value)
    : result (list value) :=
  match rowDiff with
  | O => Ok newCells
  | S k =>
      row ← Array_fill newCols (VStr "New Cell");
      push_rows k newCols (newCells ++ [VArr row])
  end.

(** The function mapped over the rows. *)
Definition resize_row (newCols : number) (row : value) : result value :=
  r ← get_array (Some row);
  let colDiff := sub newCols (len r) in
  if gt0 colDiff then
    fill ← Array_fill colDiff (VStr "New Cell");
    Ok (VArr (r ++ fill))
  else
    r' ← set_length r newCols;
    Ok (VArr r').

(** [handleTableStructureChange(e)]: [Ok newProps] when [onUpdate] is
    reached with [newProps], [Throw] when an exception ends the handler
    before. *)
Definition handleTableStructureChange (props : gmap string value)
    (e : Target.t) : result (gmap string value) :=
  let name := Target.name e in
  let newPropValue :=
    if String.eqb (Target.type e) "checkbox"
    then VBool (Target.checked e)
    else VNum (parseInt (Target.value e)) in
  let currentRows := props !! "rows" in
  let currentCol := props !! "cols" in
  currentData ←
    match props !! "data" with
    | Some d => Ok (json_clone d)
    | None => Throw SyntaxError
    end;
  let newProps := <[name := newPropValue]> props in
  if String.eqb name "rows" || String.eqb name "cols"
     || String.eqb name "hasHeader"
  then
    newRows ← to_number (if String.eqb name "rows" then Some newPropValue
                         else currentRows);
    newCols ← to_number (if String.eqb name "cols" then Some newPropValue
                         else currentCol);
    headers ← get_array (as_object currentData !! "headers");
    let headerDiff := sub newCols (len headers) in
    headers' ←
      (if gt0 headerDiff then
         fill ← Array_fill headerDiff (VStr "New Header");
         Ok (headers ++ fill)
       else set_length headers newCols);
    let newCellRows :=
      if truthy (props !! "hasHeader") then sub newRows (Num 1) else newRows in
    newCells ← get_array (as_object currentData !! "cells");
    let rowDiff := sub newCellRows (len newCells) in
    newCells ←
      (if gt0 rowDiff then push_rows (to_nat rowDiff) newCols newCells
       else set_length newCells newCellRows);
    newCells ← mapM (resize_row newCols) newCells;
    Ok (<["data" := obj [("headers", VArr headers'); ("cells", VArr newCells)]]>
          newProps)
  else Ok newProps.

(** *** Replacing the picture of an image *)

(** What [handleImageFileSelect] and [handleDrop] share: [file] is
    [files[0]], the result is the object-URL state after the handler and
    the props handed to [onUpdate], if it is reached. *)
Definition replace_src (props : gmap string value) (file : option Url.File)
    (env : Url.env) : Url.env * result (option (gmap string value)) :=
  match file with
  | Some f =>
      if startsWith (Url.file_type f) "image/" then
        let '(newSrc, env) := Url.createObjectURL env in
        let updated := Ok (Some (<["src" := VStr newSrc]> props)) in
        if truthy (props !! "src") then
          match props !! "src" with
          | Some (VStr s) =>
              if startsWith s "blob:"
              then (Url.revokeObjectURL s env, updated)
              else (env, updated)
          | _ => (env, Throw TypeError)
          end
        else (env, updated)
      else (env, Ok None)
  | None => (env, Ok None)
  end.

(** [handleImageFileSelect] of the properties panel, on the props of the
    selected component. *)
Definition handleImageFileSelect (props : gmap string value)
    (file : option Url.File) (env : Url.env) :=
  replace_src props file env.

(** [handleDrop] of a canvas item: its [props] are the component's props
    without [styles] ([const { styles, ...props } = component.props]). *)
Definition handleDrop (component_props : gmap string value)
    (file : option Url.File) (env : Url.env) :=
  replace_src (delete "styles" component_props) file env.

(** What [pageJson] is the text of:
    [JSON.stringify({ name: "Exported Page", components }, null, 2)]. *)
Definition component_value (c : component) : value :=
  obj [("id", VStr (id c)); ("type", VStr (type c)); ("props", VObj (props c))].

Definition pageJson (components : list component) : json :=
  JSON_stringify
    (obj [("name", VStr "Exported Page");
          ("components", VArr (component_value <$> components))]).

End Drag.

(* ===================================================================== *)
(** ** [DragAdvanced.jsx]: the earlier builder                           *)
(* ===================================================================== *)

Module DragAdvanced.

Definition availableComponents : list string :=
  ["Button"; "Input"; "Textarea"; "Separator"; "Image"].

Definition styles (t b : Z) : value :=
  obj [("marginTop", num t); ("marginBottom", num b);
       ("marginLeft", num 0); ("marginRight", num 0);
       ("fontSize", num 14); ("color", VStr "#334155")].

Definition DEFAULT_PROPS : gmap string value :=
  list_to_map [
    ("Button", obj [
       ("text", VStr "Click Me"); ("variant", VStr "default");
       ("styles", obj [("marginTop", num 0); ("marginBottom", num 8);
                       ("marginLeft", num 0); ("marginRight", num 0);
                       ("fontSize", num 14); ("color", VStr "#FFFFFF")])]);
    ("Input", obj [
       ("label", VStr "Field Label"); ("placeholder", VStr "Enter value...");
       ("styles", styles 10 4)]);
    ("Textarea", obj [
       ("label", VStr "Message"); ("placeholder", VStr "Your message here");
       ("styles", styles 10 4)]);
    ("Select", obj [
       ("label", VStr "Choose an option");
       ("options", VStr "Option 1,Option 2,Option 3");
       ("styles", styles 10 4)]);
    ("Checkbox", obj [
       ("label", VStr "Accept terms"); ("checked", VBool false);
       ("styles", styles 10 4)]);
    ("Separator", obj [("styles", styles 10 4)]);
    ("Image", obj [
       ("src", VStr "https://www.dekoder.com/assets/mediaasset/image/DBD8X9/DBD8X9_600fd5934baa4c06b4ea595b9634a7a7.jpeg");
       ("alt", VStr "A beautiful sunset");
       ("styles", styles 10 4)])
  ].

(** [handleDragEnd({ active, over })].  The new component's props are
    [DEFAULT_PROPS[active.id]] itself; that the object is shared is the
    subject of the [Heap] model below, here its content is what counts. *)
Definition handleDragEnd (now : Z) (canvasComponents : list component)
    (active : string) (over : option string) : list component :=
  match over with
  | None => canvasComponents
  | Some over =>
      if bool_decide (active ∈ availableComponents) then
        canvasComponents ++
          [{| id := active +:+ "-" +:+ pretty now;
              type := active;
              props := from_option as_object ∅ (DEFAULT_PROPS !! active) |}]
      else if negb (String.eqb active over) then
        let oldIndex := findIndex active canvasComponents in
        let newIndex := findIndex over canvasComponents in
        arrayMove canvasComponents oldIndex newIndex
      else canvasComponents
  end.

(** The same text as in [Drag.jsx]. *)
Definition handleStyleChange (props : gmap string value) (e : Target.t)
    : gmap string value :=
  <["styles" :=
      VObj (<[Target.name e :=
                if String.eqb (Target.type e) "number"
                then VNum (parseInt (Target.value e))
                else VStr (Target.value e)]> (spread (props !! "styles")))]>
    props.

End DragAdvanced.

(* ===================================================================== *)
(** ** [DragDrop]: the first builder, kept in the history of [Drag.jsx]  *)
(* ===================================================================== *)

Module DragDrop.

Definition availableComponents : list string :=
  ["Button"; "Input"; "Textarea"; "Select"; "Checkbox"; "Card"].

(** [handleStyleChange]: [parseInt(value, 10) || 0]. *)
Definition handleStyleChange (props : gmap string value) (e : Target.t)
    : gmap string value :=
  <["styles" :=
      VObj (<[Target.name e := VNum (or0 (parseInt (Target.value e)))]>
              (spread (props !! "styles")))]>
    props.

Definition styles : value :=
  obj [("marginTop", num 0); ("marginBottom", num 0);
       ("marginLeft", num 0); ("marginRight", num 0);
       ("paddingTop", num 0); ("paddingBottom", num 0);
       ("paddingLeft", num 0); ("paddingRight", num 0)].

Definition DEFAULT_PROPS : gmap string value :=
  list_to_map [
    ("Button", obj [
       ("text", VStr "Click Me"); ("variant", VStr "default");
       ("styles", styles)]);
    ("Input", obj [
       ("label", VStr "Your Name"); ("placeholder", VStr "Enter your name");
       ("styles", styles)]);
    ("Card", obj [
       ("title", VStr "Card Title"); ("description", VStr "Card Description");
       ("styles", styles)]);
    ("Textarea", obj [
       ("label", VStr "Message"); ("placeholder", VStr "Your message here");
       ("styles", styles)]);
    ("Select", obj [
       ("label", VStr "Choose an option");
       ("options", VStr "Option 1,Option 2,Option 3");
       ("styles", styles)]);
    ("Checkbox", obj [
       ("label", VStr "Accept terms"); ("checked", VBool false);
       ("styles", styles)])
  ].

(** [handleDragEnd(event)]; the props of a new component are
    [DEFAULT_PROPS[componentType] || {}]. *)
Definition handleDragEnd (now : Z) (canvasComponents : list component)
    (active : string) (over : option string) : list component :=
  match over with
  | None => canvasComponents
  | Some over =>
      if bool_decide (active ∈ availableComponents) then
        canvasComponents ++
          [{| id := active +:+ "-" +:+ pretty now;
              type := active;
              props := from_option as_object ∅ (DEFAULT_PROPS !! active) |}]
      else if negb (String.eqb active over)
              && bool_decide (is_Some (find active canvasComponents))
      then
        let oldIndex := findIndex active canvasComponents in
        let newIndex := findIndex over canvasComponents in
        arrayMove canvasComponents oldIndex newIndex
      else canvasComponents
  end.

End DragDrop.

(* ===================================================================== *)
(** ** Reading the exported document back                                *)
(* ===================================================================== *)

Module Serializer.

(** [toJSON(blueprint)] is [pageJson] of the export dialog. *)
Definition toJSON (b : list component) : json := Drag.pageJson b.

Definition value_component (v : value) : option component :=
  match v with
  | VObj m =>
      match m !! "id", m !! "type", m !! "props" with
      | Some (VStr i), Some (VStr t), Some (VObj p) =>
          Some {| id := i; type := t; props := p |}
      | _, _, _ => None
      end
  | _ => None
  end.

(** Modelled from the spec: the repository has no function that reads a
    document back; the spec's [fromJSON] takes the canonical document
    [{ name, components: [{ id, type, props }, ...] }] to the blueprint it
    describes.  It is modelled as [JSON.parse] followed by reading the
    components in order, and fails on a document of another shape. *)
Definition fromJSON (doc : json) : option (list component) :=
  match JSON_parse doc with
  | VObj m =>
      match m !! "components" with
      | Some (VArr l) => mapM value_component l
      | _ => None
      end
  | _ => None
  end.

End Serializer.

(* ===================================================================== *)
(** ** File events on the canvas                                         *)
(* ===================================================================== *)

Module Files.

(** A file event on the component [sel], which is shown: the handler
    runs on the props of that component, and [onUpdate] is
    [handleUpdateComponent].  Both handlers are only wired to components
    of type [Image].  What the event leaves is the store; whether the
    canvas is shown again with it is [renders]. *)
Definition file_event
    (handler : gmap string value → option Url.File → Url.env →
               Url.env * result (option (gmap string value)))
    (sel : string) (file : option Url.File)
    (st : list component * Url.env) : list component * Url.env :=
  let '(canvas, env) := st in
  match find sel canvas with
  | Some c =>
      if String.eqb (type c) "Image" then
        match handler (props c) file env with
        | (env', Ok (Some newProps)) =>
            (handleUpdateComponent (id c) newProps canvas, env')
        | (env', _) => (canvas, env')
        end
      else st
  | None => st
  end.

(** A file picked in the properties panel of the selected component. *)
Definition pick_file := file_event Drag.handleImageFileSelect.

(** A file dropped on a canvas item. *)
Definition drop_file := file_event Drag.handleDrop.

(** The object URL a component's [src] holds, if it holds one. *)
Definition blob_src (c : component) : option string :=
  match props c !! "src" with
  | Some (VStr s) => if startsWith s "blob:" then Some s else None
  | _ => None
  end.

(** The object URLs the components of the canvas hold. *)
Definition bound (canvas : list component) : gset string :=
  list_to_set (omap blob_src canvas).

(** A canvas item and the properties panel read [styles.marginTop] and
    [props.styles.color] when they render, and reading a property of
    [undefined] or of [null] throws: a component is shown only when its
    props have [styles]. *)
Definition renders (c : component) : bool :=
  match props c !! "styles" with
  | None | Some VNull => false
  | Some _ => true
  end.

(** The object URLs that are live and that no component holds. *)
Definition leaked (st : list component * Url.env) : gset string :=
  Url.live st.2 ∖ bound st.1.

End Files.

(* ===================================================================== *)
(** ** Objects with identity: who shares a default-props template        *)
(* ===================================================================== *)

(** The handlers above never write into an object they did not create,
    so trees of values describe what they compute.  Whether the props of
    a new component are the template object itself or a copy of it shows
    only when objects have an identity; this model gives them one. *)
Module Heap.

Abbreviation loc := nat.

(** A value as a variable holds it: a primitive or a reference. *)
Inductive hval :=
  | HNull
  | HBool (b : bool)
  | HNum (n : number)
  | HStr (s : string)
  | HRef (l : loc).

(** An object: its own properties in order of creation, or the elements
    of an array. *)
Inductive hobj :=
  | HObject (fields : list (string * hval))
  | HArray (elems : list hval).

(** The heap: the object at address [l] is the [l]-th entry; allocation
    appends. *)
Abbreviation heap := (list hobj).

(** The tree of values seen from [v], followed to depth [fuel].  A
    reference that is dangling or deeper than [fuel] reads as [null];
    the heaps below have neither. *)
Fixpoint reify (fuel : nat) (h : heap) (v : hval) : value :=
  match v with
  | HNull => VNull
  | HBool b => VBool b
  | HNum n => VNum n
  | HStr s => VStr s
  | HRef l =>
      match fuel with
      | O => VNull
      | S f =>
          match h !! l with
          | Some (HObject fs) =>
              VObj (list_to_map (prod_map (λ k : string, k) (reify f h) <$> fs))
          | Some (HArray es) => VArr (reify f h <$> es)
          | None => VNull
          end
      end
  end.

(** Allocating the elements of an array, left to right. *)
Definition alloc_list (alloc : value → heap → heap * hval) :=
  fix go (l : list value) (h : heap) : heap * list hval :=
    match l with
    | [] => (h, [])
    | x :: r =>
        let '(h1, v) := alloc x h in
        let '(h2, vs) := go r h1 in
        (h2, v :: vs)
    end.

(** Allocating the properties of an object. *)
Definition alloc_fields (alloc : value → heap → heap * hval)
    (m : gmap string value) (h : heap) : heap * list (string * hval) :=
  map_fold (λ k x (acc : heap * list (string * hval)),
              let '(h1, v) := alloc x acc.1 in (h1, (k, v) :: acc.2))
           (h, []) m.

(** Building a tree of values out of fresh objects, as an object literal
    and [JSON.parse] do. *)
Fixpoint alloc (v : value) (h : heap) : heap * hval :=
  match v with
  | VNull => (h, HNull)
  | VBool b => (h, HBool b)
  | VNum n => (h, HNum n)
  | VStr s => (h, HStr s)
  | VArr l =>
      let '(h1, es) := alloc_list alloc l h in
      (h1 ++ [HArray es], HRef (length h1))
  | VObj m =>
      let '(h1, fs) := alloc_fields alloc m h in
      (h1 ++ [HObject fs], HRef (length h1))
  end.

(** [o[k]] for an object held in [v]. *)
Definition get (h : heap) (v : hval) (k : string) : option hval :=
  match v with
  | HRef l =>
      match h !! l with
      | Some (HObject fs) => snd <$> List.find (λ kv, String.eqb kv.1 k) fs
      | _ => None
      end
  | _ => None
  end.

(** [o[k] = x] for an object held in [v]: the property is replaced where
    it is, or added at the end. *)
Fixpoint set_field (fs : list (string * hval)) (k : string) (x : hval)
    : list (string * hval) :=
  match fs with
  | [] => [(k, x)]
  | (k', y) :: r =>
      if String.eqb k' k then (k, x) :: r else (k', y) :: set_field r k x
  end.

Definition set (h : heap) (v : hval) (k : string) (x : hval) : heap :=
  match v with
  | HRef l =>
      match h !! l with
      | Some (HObject fs) => <[l := HObject (set_field fs k x)]> h
      | _ => h
      end
  | _ => h
  end.

(** [JSON.parse(JSON.stringify(v))] on the heap: [stringify] reads the
    tree below [v] (to depth [fuel]) into a document, [parse] builds the
    document out of fresh objects. *)
Definition JSON_clone (fuel : nat) (h : heap) (v : hval) : heap * hval :=
  alloc (JSON_parse (JSON_stringify (reify fuel h v))) h.

(** The props of a new component in [Drag.jsx]:
    [JSON.parse(JSON.stringify(DEFAULT_PROPS[active.id]))]. *)
Definition new_props_Drag (fuel : nat) (h : heap) (DEFAULT_PROPS : hval)
    (active : string) : heap * hval :=
  match get h DEFAULT_PROPS active with
  | Some template => JSON_clone fuel h template
  | None => (h, HNull)
  end.

(** The props of a new component in [DragAdvanced.jsx]:
    [DEFAULT_PROPS[active.id]], the template object itself. *)
Definition new_props_DragAdvanced (h : heap) (DEFAULT_PROPS : hval)
    (active : string) : heap * hval :=
  (h, default HNull (get h DEFAULT_PROPS active)).

(** The module-level constant [DEFAULT_PROPS] of each file, allocated in
    the empty heap. *)
Definition Drag_heap : heap * hval := alloc (VObj Drag.DEFAULT_PROPS) [].
Definition DragAdvanced_heap : heap * hval :=
  alloc (VObj DragAdvanced.DEFAULT_PROPS) [].

(** References at or above an address. *)
Definition val_ge (n : nat) (v : hval) : bool :=
  match v with
  | HRef l => (n <=? l)%nat
  | _ => true
  end.

Definition val_lt (n : nat) (v : hval) : bool :=
  match v with
  | HRef l => (l <? n)%nat
  | _ => true
  end.

Definition obj_vals (o : hobj) : list hval :=
  match o with
  | HObject fs => snd <$> fs
  | HArray es => es
  end.

(** Every reference held by the object satisfies [P]. *)
Definition obj_refs (P : hval → bool) (o : hobj) : bool :=
  forallb P (obj_vals o).

(** The objects below address [n] refer only to objects below [n]. *)
Definition closed_below (n : nat) (h : heap) : bool :=
  forallb (obj_refs (val_lt n)) (take n h).

(** A program step over the heap of [Drag.jsx], whose templates are the
    objects below address [n0]: a component is created from the palette,
    or an object that is not a template is written, any of its
    properties or elements being set to primitives or to objects that
    are not templates.  ([<[l := o]> h] is the heap with the object at
    [l] replaced by [o].) *)
Inductive step (fuel n0 : nat) (DEFAULT_PROPS : hval) : heap → heap → Prop :=
  | step_insert h active :
      step fuel n0 DEFAULT_PROPS h
        (new_props_Drag fuel h DEFAULT_PROPS active).1
  | step_write h l o :
      (n0 ≤ l)%nat → obj_refs (val_ge n0) o = true →
      step fuel n0 DEFAULT_PROPS h (<[l := o]> h).

End Heap.

(* ===================================================================== *)
(** ** What the statements observe                                       *)
(* ===================================================================== *)

Definition arr_of (v : option value) : option (list value) :=
  match v with
  | Some (VArr l) => Some l
  | _ => None
  end.

(** [props.data[k]] when it is an array. *)
Definition data_array (p : gmap string value) (k : string)
    : option (list value) :=
  d ← p !! "data"; arr_of (as_object d !! k).

(** [props.data.headers[c]] *)
Definition header_at (p : gmap string value) (c : nat) : option value :=
  hs ← data_array p "headers"; hs !! c.

(** [props.data.cells[r][c]] *)
Definition cell_at (p : gmap string value) (r c : nat) : option value :=
  rows ← data_array p "cells"; row ← rows !! r; l ← arr_of (Some row); l !! c.

(** The event comes from one of the three controls of the table form. *)
Definition structural (e : Target.t) : Prop :=
  Target.name e = "rows" ∨ Target.name e = "cols"
  ∨ Target.name e = "hasHeader".

Definition row_has_length (cols : Z) (row : value) : bool :=
  match row with
  | VArr l => Z.of_nat (length l) =? cols
  | _ => false
  end.

(** The shape invariant of a table: [data.headers.length == cols],
    [data.cells.length == rows - (hasHeader ? 1 : 0)], and every row of
    [data.cells] has length [cols]. *)
Definition shape_ok (p : gmap string value) : bool :=
  match p !! "rows", p !! "cols",
        data_array p "headers", data_array p "cells" with
  | Some (VNum (Num rows)), Some (VNum (Num cols)), Some hs, Some cs =>
      (Z.of_nat (length hs) =? cols)
      && (Z.of_nat (length cs)
          =? rows - (if truthy (p !! "hasHeader") then 1 else 0))
      && forallb (row_has_length cols) cs
  | _, _, _, _ => false
  end.

(** The props of a table as the palette creates it. *)
Definition Table_props : gmap string value :=
  from_option as_object ∅ (Drag.DEFAULT_PROPS !! "Table").

(** A change of the number field [name] to the text [v]. *)
Definition number_input (name v : string) : Target.t :=
  {| Target.name := name; Target.value := v;
     Target.type := "number"; Target.checked := false |}.

(** A click on the checkbox [name] that leaves it [checked]. *)
Definition checkbox_input (name : string) (checked : bool) : Target.t :=
  {| Target.name := name; Target.value := "on";
     Target.type := "checkbox"; Target.checked := checked |}.

(** The props a handler hands to [onUpdate]. *)
Definition updated (r : result (gmap string value)) : gmap string value :=
  match r with
  | Ok p => p
  | Throw _ => ∅
  end.

Definition is_Ok {A} (r : result A) : bool :=
  match r with
  | Ok _ => true
  | Throw _ => false
  end.

(** The situations the specification calls a cancelled drag: no drop
    target, the active element dropped on itself, or a drop target that
    is no component of the canvas. *)
Definition cancelled (canvas : list component) (active : string)
    (over : option string) : Prop :=
  over = None ∨ over = Some active
  ∨ ∃ o, over = Some o ∧ some o canvas = false.

(** Three components that are not palette entries. *)
Definition ABC : list component :=
  [ {| id := "A"; type := "Text"; props := ∅ |};
    {| id := "B"; type := "Image"; props := ∅ |};
    {| id := "C"; type := "Text"; props := ∅ |} ].

(** [props.styles[k]] *)
Definition style_at (p : gmap string value) (k : string) : option value :=
  match p !! "styles" with
  | Some (VObj m) => m !! k
  | _ => None
  end.

(** The props of a text block as the palette creates it. *)
Definition Text_props : gmap string value :=
  from_option as_object ∅ (Drag.DEFAULT_PROPS !! "Text").

(** The number of nodes of a value, for induction on values. *)
Fixpoint value_size (v : value) : nat :=
  match v with
  | VArr l => S (foldr (λ x acc, value_size x + acc)%nat 0%nat l)
  | VObj m => S (map_fold (λ _ x acc, value_size x + acc)%nat 0%nat m)
  | _ => 1
  end.

(** The blueprint with its props copied through JSON. *)
Definition clone_component (c : component) : component :=
  {| id := id c; type := type c; props := json_clone <$> props c |}.

(** The canvas after a text block has been dragged from the palette onto
    the empty canvas at time 0. *)
Definition canvas_with_text : list component :=
  Drag.handleDragEnd 0 [] "Text" (Some "Text").

(** The same canvas after the top margin of the text block has been
    edited to the empty text. *)
Definition canvas_with_empty_margin : list component :=
  match canvas_with_text with
  | c :: _ =>
      handleUpdateComponent (id c)
        (Drag.handleStyleChange (props c) (number_input "marginTop" ""))
        canvas_with_text
  | [] => []
  end.

(** The canvas with the text block, its top margin set to [null]. *)
Definition canvas_with_null_margin : list component :=
  match canvas_with_text with
  | c :: _ =>
      handleUpdateComponent (id c)
        (<["styles" :=
             VObj (<["marginTop" := VNull]> (spread (props c !! "styles")))]>
           (props c))
        canvas_with_text
  | [] => []
  end.

(** The top margin of the first component of a blueprint. *)
Definition first_margin (b : option (list component)) : option value :=
  match b with
  | Some (c :: _) => style_at (props c) "marginTop"
  | _ => None
  end.

(** A canvas with one image that holds the object URL [blob:0], the only
    URL minted so far. *)
Definition image_canvas : list component :=
  [ {| id := "Image-1"; type := "Image";
       props := <["src" := VStr "blob:0"]>
                  (from_option as_object ∅ (Drag.DEFAULT_PROPS !! "Image")) |} ].

Definition image_env : Url.env :=
  {| Url.live := {["blob:0"]}; Url.revoked := []; Url.minted := 1 |}.

Definition png : Url.File := {| Url.file_type := "image/png" |}.

(** What an allocation of the tree [v] in the heap [h] gives: the heap
    grows at its end by objects that refer to new objects only, the value
    returned refers to a new object if to any, and it reads as [v] in
    every later heap at every depth that covers [v]. *)
Definition allocates {V R : Type} (size : V → nat)
    (read : nat → Heap.heap → R → V) (fresh : nat → R → bool)
    (v : V) (h : Heap.heap) (r : Heap.heap * R) : Prop :=
  (∃ ext, r.1 = h ++ ext
          ∧ Forall (λ o, Heap.obj_refs (Heap.val_ge (length h)) o = true) ext)
  ∧ fresh (length h) r.2 = true
  ∧ ∀ fuel h', (size v ≤ fuel)%nat → r.1 `prefix_of` h' →
               read fuel h' r.2 = v.

(** The heap [h] still has the objects of [h0] at its first addresses,
    unchanged, and its other objects refer to none of them. *)
Definition templates_kept (h0 h : Heap.heap) : Prop :=
  take (length h0) h = h0
  ∧ Forall (λ o, Heap.obj_refs (Heap.val_ge (length h0)) o = true)
           (drop (length h0) h).

(** In [DragAdvanced.jsx]: a button is dragged from the palette, and the
    top margin of its styles is then set to 99 by a write into the styles
    object of its props. *)
Definition shared_button : Heap.hval :=
  (Heap.new_props_DragAdvanced Heap.DragAdvanced_heap.1
     Heap.DragAdvanced_heap.2 "Button").2.

Definition heap_after_write : Heap.heap :=
  Heap.set Heap.DragAdvanced_heap.1
    (default Heap.HNull (Heap.get Heap.DragAdvanced_heap.1 shared_button "styles"))
    "marginTop" (Heap.HNum (Num 99)).

(** The same in [Drag.jsx] with a text block. *)
Definition cloned_text : Heap.heap * Heap.hval :=
  Heap.new_props_Drag 101 Heap.Drag_heap.1 Heap.Drag_heap.2 "Text".

Definition heap_after_write_Drag : Heap.heap :=
  Heap.set cloned_text.1
    (default Heap.HNull (Heap.get cloned_text.1 cloned_text.2 "styles"))
    "marginTop" (Heap.HNum (Num 99)).

(** The number of rows ([k] is ["rows"]) or of columns ([k] is ["cols"])
    that an edit asks for: the number typed when the edit is of [k], the
    number the props have otherwise. *)
Definition target (k : string) (p : gmap string value) (e : Target.t)
    : result number :=
  to_number
    (if String.eqb (Target.name e) k
     then Some (if String.eqb (Target.type e) "checkbox"
                then VBool (Target.checked e)
                else VNum (parseInt (Target.value e)))
     else p !! k).

(** The number of rows of cells the handler aims at: the rows asked for,
    less one when the props have a header before the edit. *)
Definition target_cell_rows (p : gmap string value) (newRows : number)
    : number :=
  if truthy (p !! "hasHeader") then sub newRows (Num 1) else newRows.

Definition is_array (v : value) : bool :=
  match v with
  | VArr _ => true
  | _ => false
  end.

(* ===================================================================== *)
(** ** [Drag.jsx]: editing the cells of a table, the import list         *)
(* ===================================================================== *)

(** The component [Table] (its two save handlers) and the canvas item
    that hosts it. *)
Module Table.

(** [[...v]] for the rows and the headers: an array is copied;
    [undefined], [null], numbers, booleans and plain objects are not
    iterable; a string would spread into its characters, which the model
    leaves out. *)
Definition spread_array (v : option value) : result (list value) :=
  match v with
  | Some (VArr l) => Ok l
  | Some (VStr _) => Throw IllTyped
  | _ => Throw TypeError
  end.

(** [v.map(f)]: a method of arrays only. *)
Definition array_map {B} (f : value → result B) (v : option value)
    : result (list B) :=
  match v with
  | Some (VArr l) => mapM f l
  | _ => Throw TypeError
  end.

(** [arr[i] = x]: an element is replaced, or added when [i] is the
    length; a greater [i] would leave holes, which the model leaves out. *)
Definition set_index (arr : list value) (i : nat) (x : value)
    : result (list value) :=
  if (i <? length arr)%nat then Ok (<[i := x]> arr)
  else if (i =? length arr)%nat then Ok (arr ++ [x])
  else Throw IllTyped.

(** [handleHeaderSave(colIndex, newValue)]: the table data handed to
    [onDataChange]. *)
Definition handleHeaderSave (data : value) (colIndex : nat) (newValue : value)
    : result value :=
  newHeaders ← spread_array (as_object data !! "headers");
  newHeaders ← set_index newHeaders colIndex newValue;
  Ok (VObj (<["headers" := VArr newHeaders]> (spread (Some data)))).

(** [handleCellSave(rowIndex, colIndex, newValue)]: reading
    [newCells[rowIndex]] beyond the rows gives [undefined], and setting
    an element of it throws. *)
Definition handleCellSave (data : value) (rowIndex colIndex : nat)
    (newValue : value) : result value :=
  newCells ← array_map (λ row, spread_array (Some row))
                       (as_object data !! "cells");
  match newCells !! rowIndex with
  | Some row =>
      row' ← set_index row colIndex newValue;
      Ok (VObj (<["cells" := VArr (VArr <$> <[rowIndex := row']> newCells)]>
                  (spread (Some data))))
  | None => Throw TypeError
  end.

(** [onDataChange] as the canvas item passes it to [Table]: the props
    handed to [onUpdate] are [{ ...component.props, data: newTableData }]. *)
Definition onDataChange (component_props : gmap string value)
    (newTableData : value) : gmap string value :=
  <["data" := newTableData]> component_props.

End Table.

(** The component [EditableCell]: its state and what its events do. *)
Module EditableCell.

Record state := State {
  isEditing : bool;
  text : string;
}.

(** [useState(false)], [useState(value)]. *)
Definition initial (value : string) : state :=
  {| isEditing := false; text := value |}.

(** The input exists only while [isEditing]; its events are [Change],
    [Blur] and [KeyDown].  [DoubleClick] is on the cell. *)
Inductive event :=
  | DoubleClick
  | Change (v : string)
  | Blur
  | KeyDown (key : string).

(** [handleSave]: the state after, and the text passed to [onSave]. *)
Definition handleSave (s : state) : state * option string :=
  ({| isEditing := false; text := text s |}, Some (text s)).

(** [handleKeyDown(e)] *)
Definition handleKeyDown (value : string) (key : string) (s : state)
    : state * option string :=
  let '(s, saved) :=
    if String.eqb key "Enter" then handleSave s else (s, None) in
  if String.eqb key "Escape"
  then ({| isEditing := false; text := value |}, saved)
  else (s, saved).

(** One event on a cell whose prop is [value]: the state after, and the
    text passed to [onSave] if it is called. *)
Definition step (value : string) (s : state) (e : event)
    : state * option string :=
  match e with
  | DoubleClick => ({| isEditing := true; text := text s |}, None)
  | Change v =>
      if isEditing s then ({| isEditing := isEditing s; text := v |}, None)
      else (s, None)
  | Blur => if isEditing s then handleSave s else (s, None)
  | KeyDown key => if isEditing s then handleKeyDown value key s else (s, None)
  end.

(** A run of events: the state at the end and the texts saved, in order. *)
Fixpoint run (value : string) (s : state) (es : list event)
    : state * list string :=
  match es with
  | [] => (s, [])
  | e :: es =>
      let '(s1, saved) := step value s e in
      let '(s2, rest) := run value s1 es in
      (s2, from_option (λ x, [x]) [] saved ++ rest)
  end.

End EditableCell.

(** The export dialog of [Drag.jsx]. *)
Module ExportModal.

(** [set.add(x)] on a set kept in order of insertion. *)
Definition Set_add (s : list string) (x : string) : list string :=
  if bool_decide (x ∈ s) then s else s ++ [x].

(** [[...new Set(l)]] *)
Definition new_Set (l : list string) : list string := foldl Set_add [] l.

(** The types of the import line, [[...new Set(components.map((c) =>
    c.type))]]. *)
Definition imported (components : list component) : list string :=
  new_Set (type <$> components).

(** The constant [imports] of [generateComponentCode]. *)
Definition imports (components : list component) : string :=
  "import { " +:+ String.concat ", " (imported components)
  +:+ " } from '@/components/ui';".

End ExportModal.

(* ===================================================================== *)
(** ** What the further statements observe                               *)
(* ===================================================================== *)

(** An array brought to [n] entries: truncated, or filled up with [x]. *)
Definition resized {A} (n : nat) (x : A) (l : list A) : list A :=
  take n l ++ replicate (n - length l) x.

Definition as_array (v : value) : list value :=
  match v with
  | VArr l => l
  | _ => []
  end.

(** The table data with [nc] columns and [nr] rows of cells made of the
    headers [hs] and the rows [cs]. *)
Definition resized_data (nc nr : nat) (hs cs : list value) : value :=
  obj [("headers", VArr (resized nc (VStr "New Header") hs));
       ("cells",
        VArr ((λ row, VArr (resized nc (VStr "New Cell") (as_array row)))
              <$> resized nr (VArr (replicate nc (VStr "New Cell"))) cs))].

(** The value an edit stores under the name of its control. *)
Definition new_value (e : Target.t) : value :=
  if String.eqb (Target.type e) "checkbox"
  then VBool (Target.checked e)
  else VNum (parseInt (Target.value e)).

(** The component a palette drag creates. *)
Definition new_component (now : Z) (active : string) : component :=
  {| id := active +:+ "-" +:+ pretty now;
     type := active;
     props := from_option (λ t, as_object (json_clone t)) ∅
                (Drag.DEFAULT_PROPS !! active) |}.

(** The props of a table after the edit [e] of its form. *)
Definition after_edit (p : gmap string value) (e : Target.t)
    : gmap string value :=
  updated (Drag.handleTableStructureChange p e).

(** The headers and the rows of cells of a table, empty when missing. *)
Definition headers_of (p : gmap string value) : list value :=
  default [] (data_array p "headers").

Definition cells_of (p : gmap string value) : list value :=
  default [] (data_array p "cells").

(** The table data made of the headers [hs] and the rows [cs]. *)
Definition table_data (hs cs : list value) : value :=
  obj [("headers", VArr hs); ("cells", VArr cs)].

(** The props of a table of [rows] rows and [cols] columns with the
    [data], as [DEFAULT_PROPS.Table] has them for 4, 4, [true] and the
    data [generateDefaultTableData] makes for these. *)
Definition table_props (rows cols : Z) (hasHeader : bool) (data : value)
    : gmap string value :=
  <["rows" := num rows]>
    (<["cols" := num cols]>
       (<["hasHeader" := VBool hasHeader]>
          (<["data" := data]> ∅))).

(** The data of the table of the palette, and the data a save handler
    hands to [onDataChange]. *)
Definition Table_data : value := default VNull (Table_props !! "data").

Definition saved (r : result value) : value :=
  match r with
  | Ok d => d
  | Throw _ => VNull
  end.

(** One edit of a cell: a double click, the texts typed into the input
    in turn, and the event [e] that ends it. *)
Definition session (typed : list string) (e : EditableCell.event)
    : list EditableCell.event :=
  EditableCell.DoubleClick :: (EditableCell.Change <$> typed) ++ [e].

(** The text in the input after [typed]: the last one typed, [value] when
    nothing was. *)
Definition last_typed (value : string) (typed : list string) : string :=
  default value (last typed).

(** The id of [c] was made by a drag from the palette at a time before
    [now]. *)
Definition minted_before (now : Z) (c : component) : Prop :=
  ∃ a t, a ∈ Drag.availableComponents ∧ t < now
         ∧ id c = a +:+ "-" +:+ pretty t.

(** What [handleUpdateComponent(i, newProps)] maps over the components. *)
Definition with_props (i : string) (newProps : gmap string value)
    (comp : component) : component :=
  if String.eqb (id comp) i
  then {| id := id comp; type := type comp; props := newProps |}
  else comp.

(** The canvas after an image has been dragged from the palette onto the
    empty canvas at time 0, no object URL minted so far. *)
Definition new_image_canvas : list component :=
  Drag.handleDragEnd 0 [] "Image" (Some "Image").

Definition no_urls : Url.env :=
  {| Url.live := ∅; Url.revoked := []; Url.minted := 0 |}.

(** Files picked in the properties panel, one after the other, each for
    the component selected at the time.  (A file dropped on a canvas item
    is no part of a run: it leaves props without [styles], with which
    the canvas is not shown again.) *)
Definition file_picks (picks : list (string * option Url.File))
    (st : list component * Url.env) : list component * Url.env :=
  foldl (λ st pick, Files.pick_file pick.1 pick.2 st) st picks.

(** The [src] of the component is absent or a string. *)
Definition src_is_text (c : component) : Prop :=
  props c !! "src" = None ∨ ∃ s, props c !! "src" = Some (VStr s).

(** In [DragAdvanced.jsx]: the canvas after a button, an input and a
    text area have been dragged from the palette at the times 1, 2 and
    3. *)
Definition advanced_canvas : list component :=
  DragAdvanced.handleDragEnd 3
    (DragAdvanced.handleDragEnd 2
       (DragAdvanced.handleDragEnd 1 [] "Button" (Some "Button"))
       "Input" (Some "Input"))
    "Textarea" (Some "Textarea").

(* ===================================================================== *)
(** ** Lemmas on the built-ins                                           *)
(* ===================================================================== *)

Lemma bind_Ok {A B} (m : result A) (f : A → result B) y :
  m ≫= f = Ok y → ∃ x, m = Ok x ∧ f x = Ok y.
Proof. destruct m as [x|]; simpl; [eauto | discriminate]. Qed.

Lemma is_Ok_updated r : is_Ok r = true → r = Ok (updated r).
Proof. by destruct r. Qed.

Lemma json_clone_obj m : json_clone (VObj m) = VObj (json_clone <$> m).
Proof. unfold json_clone; simpl. by rewrite <- map_fmap_compose. Qed.

Lemma json_clone_arr l : json_clone (VArr l) = VArr (json_clone <$> l).
Proof. unfold json_clone; simpl. by rewrite <- list_fmap_compose. Qed.

Lemma as_object_clone d k :
  as_object (json_clone d) !! k = json_clone <$> (as_object d !! k).
Proof.
  destruct d as [| | [|] | | |m]; try (simpl; by rewrite lookup_empty).
  rewrite json_clone_obj. simpl. by rewrite lookup_fmap.
Qed.

Lemma arr_of_clone (v : option value) :
  arr_of (json_clone <$> v) = (fmap (M := list) json_clone) <$> arr_of v.
Proof.
  destruct v as [x|]; [|done].
  change (arr_of (Some (json_clone x))
          = fmap (M := list) json_clone <$> arr_of (Some x)).
  destruct x as [| | [|] | | l |m]; try reflexivity.
  by rewrite json_clone_arr.
Qed.

Lemma get_array_Ok v l : Drag.get_array v = Ok l → arr_of v = Some l.
Proof. destruct v as [[| | | | |]|]; simpl; congruence. Qed.

Lemma valid_length_to_nat n :
  valid_length n = true → n = Num (Z.of_nat (to_nat n)).
Proof.
  destruct n as [|z]; simpl; [discriminate|].
  intros H. apply andb_true_iff in H as [H _]. f_equal. lia.
Qed.

Lemma Array_fill_Ok {A} n (x : A) l :
  Array_fill n x = Ok l →
  valid_length n = true ∧ l = replicate (to_nat n) x.
Proof.
  unfold Array_fill. destruct (valid_length n); [|discriminate].
  intros [= <-]. done.
Qed.

Lemma set_length_Ok {A} (arr : list A) n l :
  set_length arr n = Ok l →
  valid_length n = true ∧ l = take (to_nat n) arr.
Proof.
  unfold set_length. destruct (valid_length n); [|discriminate].
  intros [= <-]. done.
Qed.

Lemma gt0_sub_len {A} n (l : list A) :
  valid_length n = true →
  gt0 (sub n (len l)) = false → (to_nat n ≤ length l)%nat.
Proof.
  destruct n as [|z]; simpl; [discriminate|].
  intros _ H. apply Z.ltb_ge in H. lia.
Qed.

Lemma gt0_sub_to_nat {A} n (l : list A) :
  gt0 (sub n (len l)) = true →
  ∃ z, n = Num z ∧ to_nat (sub n (len l)) = (Z.to_nat z - length l)%nat
       ∧ (length l < Z.to_nat z)%nat.
Proof.
  destruct n as [|z]; simpl; [discriminate|].
  intros H. apply Z.ltb_lt in H. exists z. split; [done|]. lia.
Qed.

(** Growing or truncating an array to [n] entries, as the handler does
    for the headers and for each row: entries that stay keep their
    index, entries that are added are the placeholder. *)
Lemma resize_lookup (n : number) (l l' : list value) (x : value) :
  (if gt0 (sub n (len l))
   then fill ← Array_fill (sub n (len l)) x; Ok (l ++ fill)
   else set_length l n) = Ok l' →
  n = len l' ∧
  ∀ i v, l' !! i = Some v →
         l !! i = Some v ∨ (l !! i = None ∧ v = x).
Proof.
  destruct (gt0 (sub n (len l))) eqn:Hgt.
  - intros H. apply bind_Ok in H as (fill & Hfill & [= <-]).
    apply Array_fill_Ok in Hfill as [_ ->].
    apply gt0_sub_to_nat in Hgt as (z & -> & Hn & Hlt).
    rewrite Hn. split.
    + unfold len. rewrite length_app, length_replicate. f_equal. lia.
    + intros i v Hi. destruct (decide (i < length l)%nat) as [Hlt'|Hge].
      * rewrite lookup_app_l in Hi by done. by left.
      * rewrite lookup_app_r in Hi by lia.
        apply lookup_replicate in Hi as [-> _].
        right. split; [|done]. apply lookup_ge_None. lia.
  - intros H. apply set_length_Ok in H as [Hv ->].
    pose proof (gt0_sub_len _ _ Hv Hgt) as Hle.
    split.
    + rewrite (valid_length_to_nat _ Hv) at 1. unfold len.
      rewrite length_take. do 2 f_equal. lia.
    + intros i v Hi. apply lookup_take_Some in Hi as [Hi _]. by left.
Qed.

Lemma push_rows_Ok k n cells cells1 :
  Drag.push_rows k n cells = Ok cells1 →
  cells1 = cells ++ replicate k (VArr (replicate (to_nat n) (VStr "New Cell"))).
Proof.
  revert cells. induction k as [|k IH]; intros cells; simpl.
  - intros [= <-]. by rewrite app_nil_r.
  - intros H. apply bind_Ok in H as (row & Hrow & H).
    apply Array_fill_Ok in Hrow as [_ ->].
    apply IH in H. by rewrite H, <- app_assoc.
Qed.

Lemma mapM_Ok {A B} (f : A → result B) l l' :
  mapM f l = Ok l' → Forall2 (λ x y, f x = Ok y) l l'.
Proof.
  revert l'. induction l as [|x l IH]; intros l'; simpl.
  - intros [= <-]. constructor.
  - intros H. apply bind_Ok in H as (y & Hy & H).
    apply bind_Ok in H as (k & Hk & [= <-]).
    constructor; auto.
Qed.

(** The rows after the row count has been adjusted: a row that stays
    keeps its index, a row that is added is a row of placeholders. *)
Lemma resize_rows_lookup (newCellRows newCols : number) (cs cs1 : list value) :
  (if gt0 (sub newCellRows (len cs))
   then Drag.push_rows (to_nat (sub newCellRows (len cs))) newCols cs
   else set_length cs newCellRows) = Ok cs1 →
  newCellRows = len cs1 ∧
  ∀ i row, cs1 !! i = Some row →
    cs !! i = Some row
    ∨ (cs !! i = None
       ∧ row = VArr (replicate (to_nat newCols) (VStr "New Cell"))).
Proof.
  destruct (gt0 (sub newCellRows (len cs))) eqn:Hgt.
  - intros H. apply push_rows_Ok in H as ->.
    apply gt0_sub_to_nat in Hgt as (z & -> & Hn & Hlt).
    rewrite Hn. split.
    + unfold len. rewrite length_app, length_replicate. f_equal. lia.
    + intros i v Hi. destruct (decide (i < length cs)%nat) as [Hlt'|Hge].
      * rewrite lookup_app_l in Hi by done. by left.
      * rewrite lookup_app_r in Hi by lia.
        apply lookup_replicate in Hi as [-> _].
        right. split; [|done]. apply lookup_ge_None. lia.
  - intros H. apply set_length_Ok in H as [Hv ->].
    pose proof (gt0_sub_len _ _ Hv Hgt) as Hle.
    split.
    + rewrite (valid_length_to_nat _ Hv) at 1. unfold len.
      rewrite length_take. do 2 f_equal. lia.
    + intros i v Hi. apply lookup_take_Some in Hi as [Hi _]. by left.
Qed.

Lemma resize_row_Ok n row row' :
  Drag.resize_row n row = Ok row' →
  ∃ l l', row = VArr l ∧ row' = VArr l' ∧ n = len l' ∧
    ∀ i v, l' !! i = Some v →
           l !! i = Some v ∨ (l !! i = None ∧ v = VStr "New Cell").
Proof.
  unfold Drag.resize_row. intros H.
  apply bind_Ok in H as (l & Hl & H).
  apply get_array_Ok in Hl. destruct row; try discriminate.
  injection Hl as ->.
  assert (∃ l', row' = VArr l' ∧
    (if gt0 (sub n (len l))
     then fill ← Array_fill (sub n (len l)) (VStr "New Cell"); Ok (l ++ fill)
     else set_length l n) = Ok l') as (l' & -> & Hl').
  { destruct (gt0 (sub n (len l))).
    - apply bind_Ok in H as (fill & Hfill & [= <-]).
      eexists; split; [done|]. by rewrite Hfill.
    - apply bind_Ok in H as (r' & Hr' & [= <-]). eauto. }
  apply resize_lookup in Hl' as [Hn Hl']. eauto 10.
Qed.

Lemma replicate_lookup_placeholder (k i : nat) (v : value) :
  replicate k (VStr "New Cell") !! i = Some v → v = VStr "New Cell".
Proof. intros H. by apply lookup_replicate in H as [-> _]. Qed.

Lemma json_clone_is_arr x l :
  json_clone x = VArr l → ∃ l0, x = VArr l0 ∧ l = json_clone <$> l0.
Proof.
  destruct x as [| | [|] | | l0 |m]; try discriminate.
  rewrite json_clone_arr. intros [= <-]. eauto.
Qed.

(** What the handler computes when the event is structural and the
    handler reaches [onUpdate]. *)
Lemma handleTableStructureChange_inv p e p' :
  structural e →
  Drag.handleTableStructureChange p e = Ok p' →
  ∃ hs0 cs0 hs' cs' newRows newCols,
    data_array p "headers" = Some hs0 ∧
    data_array p "cells" = Some cs0 ∧
    target "rows" p e = Ok newRows ∧
    target "cols" p e = Ok newCols ∧
    newCols = len hs' ∧
    (∀ i v, hs' !! i = Some v →
       (json_clone <$> hs0) !! i = Some v
       ∨ ((json_clone <$> hs0) !! i = None ∧ v = VStr "New Header")) ∧
    target_cell_rows p newRows = len cs' ∧
    (∀ r row', cs' !! r = Some row' →
       ∃ l', row' = VArr l' ∧ newCols = len l' ∧
         ((∃ l0, cs0 !! r = Some (VArr l0) ∧
             ∀ c v, l' !! c = Some v →
               (json_clone <$> l0) !! c = Some v
               ∨ ((json_clone <$> l0) !! c = None ∧ v = VStr "New Cell"))
          ∨ (cs0 !! r = None ∧
             ∀ c v, l' !! c = Some v → v = VStr "New Cell"))) ∧
    p' = <["data" := obj [("headers", VArr hs'); ("cells", VArr cs')]]>
           (<[Target.name e :=
                if String.eqb (Target.type e) "checkbox"
                then VBool (Target.checked e)
                else VNum (parseInt (Target.value e))]> p).
Proof.
  intros Hs H. unfold Drag.handleTableStructureChange in H.
  apply bind_Ok in H as (d' & Hd & H).
  destruct (p !! "data") as [d|] eqn:Hdata; [|discriminate].
  injection Hd as <-.
  assert (String.eqb (Target.name e) "rows" || String.eqb (Target.name e) "cols"
          || String.eqb (Target.name e) "hasHeader" = true) as Hname.
  { destruct Hs as [-> | [-> | ->]]; reflexivity. }
  cbv zeta in H. rewrite Hname in H. clear Hname.
  apply bind_Ok in H as (newRows & HnewRows & H).
  apply bind_Ok in H as (newCols & HnewCols & H).
  apply bind_Ok in H as (hs & Hhs & H).
  apply bind_Ok in H as (hs' & Hhs' & H).
  apply bind_Ok in H as (cs & Hcs & H).
  apply bind_Ok in H as (cs1 & Hcs1 & H).
  apply bind_Ok in H as (cs' & Hcs' & [= <-]).
  apply get_array_Ok in Hhs, Hcs.
  rewrite as_object_clone, arr_of_clone in Hhs, Hcs.
  destruct (arr_of (as_object d !! "headers")) as [hs0|] eqn:Hhs0;
    [|discriminate].
  destruct (arr_of (as_object d !! "cells")) as [cs0|] eqn:Hcs0;
    [|discriminate].
  injection Hhs as <-. injection Hcs as <-.
  apply resize_lookup in Hhs' as [Hcols Hhs'].
  apply resize_rows_lookup in Hcs1 as [Hrows Hcs1].
  apply mapM_Ok in Hcs'.
  exists hs0, cs0, hs', cs', newRows, newCols.
  split_and!; try done.
  - unfold data_array. by rewrite Hdata.
  - unfold data_array. by rewrite Hdata.
  - unfold target_cell_rows. rewrite Hrows. unfold len.
    by rewrite (Forall2_length _ _ _ Hcs').
  - intros r row' Hr.
    destruct (Forall2_lookup_r _ _ _ _ _ Hcs' Hr) as (row1 & Hr1 & Hrow).
    apply resize_row_Ok in Hrow as (l & l' & -> & -> & Hn & Hl').
    exists l'. split_and!; [done..|].
    destruct (Hcs1 _ _ Hr1) as [Hold | [Hnone [= ->]]].
    + left. rewrite list_lookup_fmap in Hold.
      destruct (cs0 !! r) as [x|] eqn:Hx; [|discriminate].
      injection Hold as Hold.
      apply json_clone_is_arr in Hold as (l0 & -> & ->). eauto.
    + right. split.
      * rewrite list_lookup_fmap in Hnone.
        by destruct (cs0 !! r).
      * intros c v Hc. destruct (Hl' _ _ Hc) as [Hc' | [_ ->]]; [|done].
        by apply replicate_lookup_placeholder in Hc'.
Qed.

Lemma data_array_resized (q : gmap string value) hs cs k :
  data_array (<["data" := obj [("headers", VArr hs); ("cells", VArr cs)]]> q) k
  = if String.eqb k "headers" then Some hs
    else if String.eqb k "cells" then Some cs else None.
Proof.
  unfold data_array. rewrite lookup_insert_eq. simpl.
  destruct (String.eqb k "headers") eqn:E1.
  { apply String.eqb_eq in E1 as ->. by rewrite lookup_insert_eq. }
  apply String.eqb_neq in E1. rewrite lookup_insert_ne by done.
  destruct (String.eqb k "cells") eqn:E2.
  { apply String.eqb_eq in E2 as ->. by rewrite lookup_insert_eq. }
  apply String.eqb_neq in E2. rewrite lookup_insert_ne by done.
  by rewrite lookup_empty.
Qed.

(** Every header after a resize is the copy of the header that was at
    its index, or the placeholder at an index that did not exist. *)
Lemma resize_headers p e p' :
  structural e →
  Drag.handleTableStructureChange p e = Ok p' →
  ∀ c v', header_at p' c = Some v' →
    (∃ v, header_at p c = Some v ∧ v' = json_clone v)
    ∨ (header_at p c = None ∧ v' = VStr "New Header").
Proof.
  intros Hs H c v' Hc.
  apply handleTableStructureChange_inv in H
    as (hs0 & cs0 & hs' & cs' & newRows & newCols & Hhs0 & Hcs0 & _ & _
        & _ & Hhs' & _ & _ & ->); [|done].
  unfold header_at in *. rewrite data_array_resized in Hc. simpl in Hc.
  rewrite Hhs0. simpl.
  destruct (Hhs' _ _ Hc) as [Hold | [Hnone ->]];
    rewrite list_lookup_fmap in *.
  - left. destruct (hs0 !! c) as [v|]; [|discriminate].
    injection Hold as <-. eauto.
  - right. by destruct (hs0 !! c).
Qed.

(** Every cell after a resize is the copy of the cell that was at its
    coordinates, or the placeholder at coordinates that did not exist. *)
Lemma resize_cells p e p' :
  structural e →
  Drag.handleTableStructureChange p e = Ok p' →
  ∀ r c v', cell_at p' r c = Some v' →
    (∃ v, cell_at p r c = Some v ∧ v' = json_clone v)
    ∨ (cell_at p r c = None ∧ v' = VStr "New Cell").
Proof.
  intros Hs H r c v' Hc.
  apply handleTableStructureChange_inv in H
    as (hs0 & cs0 & hs' & cs' & newRows & newCols & Hhs0 & Hcs0 & _ & _
        & _ & _ & _ & Hcs' & ->); [|done].
  unfold cell_at in *. rewrite data_array_resized in Hc. simpl in Hc.
  rewrite Hcs0. simpl.
  destruct (cs' !! r) as [row'|] eqn:Hr; [|discriminate]. simpl in Hc.
  destruct (Hcs' _ _ Hr) as (l' & -> & _ & [(l0 & Hl0 & Hl') | [Hnone Hl']]).
  - rewrite Hl0. simpl in *.
    destruct (Hl' _ _ Hc) as [Hold | [Hn ->]]; rewrite list_lookup_fmap in *.
    + left. destruct (l0 !! c) as [v|]; [|discriminate].
      injection Hold as <-. eauto.
    + right. by destruct (l0 !! c).
  - rewrite Hnone. simpl in *. right. split; [done|]. eauto.
Qed.

(** The table after a resize has as many headers as columns were asked
    for, as many rows of cells as the handler aimed at, and as many cells
    in every row as columns were asked for. *)
Lemma resize_dimensions p e p' :
  structural e →
  Drag.handleTableStructureChange p e = Ok p' →
  ∃ hs' cs' newRows newCols,
    target "rows" p e = Ok newRows ∧ target "cols" p e = Ok newCols
    ∧ data_array p' "headers" = Some hs' ∧ data_array p' "cells" = Some cs'
    ∧ newCols = len hs'
    ∧ target_cell_rows p newRows = len cs'
    ∧ forallb (row_has_length (Z.of_nat (length hs'))) cs' = true.
Proof.
  intros Hs H.
  apply handleTableStructureChange_inv in H
    as (hs0 & cs0 & hs' & cs' & newRows & newCols & _ & _ & HnewRows
        & HnewCols & Hcols & _ & Hrows & Hcs' & ->); [|done].
  exists hs', cs', newRows, newCols.
  rewrite !data_array_resized. split_and!; try done.
  apply forallb_forall. intros row Hin.
  apply list_elem_of_In, list_elem_of_lookup in Hin as [r Hr].
  destruct (Hcs' _ _ Hr) as (l' & -> & Hl' & _).
  rewrite Hcols in Hl'. injection Hl' as Hl'. simpl. rewrite Hl'.
  apply Z.eqb_refl.
Qed.

(** C1. A structural resize (an edit of [rows], [cols] or [hasHeader]
    that reaches [onUpdate]) keeps every cell text and every header text
    whose coordinates exist before and after; every value after the
    resize is the copy of the value at the same coordinates, or the
    placeholder ([New Cell], [New Header]) at coordinates that did not
    exist before, so that growing appends rows and headers and pads the
    rows, and shrinking truncates, without moving anything; and the
    table after the resize has the number of headers, of rows of cells
    and of cells in each row that the handler aimed at. *)
Theorem resize_preserves_retained_values p e p' :
  structural e →
  Drag.handleTableStructureChange p e = Ok p' →
  (∀ r c s, cell_at p r c = Some (VStr s) → is_Some (cell_at p' r c) →
            cell_at p' r c = Some (VStr s))
  ∧ (∀ c s, header_at p c = Some (VStr s) → is_Some (header_at p' c) →
            header_at p' c = Some (VStr s))
  ∧ (∀ r c v', cell_at p' r c = Some v' →
       (∃ v, cell_at p r c = Some v ∧ v' = json_clone v)
       ∨ (cell_at p r c = None ∧ v' = VStr "New Cell"))
  ∧ (∀ c v', header_at p' c = Some v' →
       (∃ v, header_at p c = Some v ∧ v' = json_clone v)
       ∨ (header_at p c = None ∧ v' = VStr "New Header"))
  ∧ (∃ hs' cs' newRows newCols,
       target "rows" p e = Ok newRows ∧ target "cols" p e = Ok newCols
       ∧ data_array p' "headers" = Some hs' ∧ data_array p' "cells" = Some cs'
       ∧ newCols = len hs'
       ∧ target_cell_rows p newRows = len cs'
       ∧ forallb (row_has_length (Z.of_nat (length hs'))) cs' = true).
Proof.
  intros Hs H. split_and!.
  - intros r c s Hold [v' Hnew].
    destruct (resize_cells _ _ _ Hs H _ _ _ Hnew) as [(v & Hv & ->) | [Hn _]];
      [|congruence].
    rewrite Hnew. rewrite Hold in Hv. by injection Hv as <-.
  - intros c s Hold [v' Hnew].
    destruct (resize_headers _ _ _ Hs H _ _ Hnew) as [(v & Hv & ->) | [Hn _]];
      [|congruence].
    rewrite Hnew. rewrite Hold in Hv. by injection Hv as <-.
  - exact (resize_cells _ _ _ Hs H).
  - exact (resize_headers _ _ _ Hs H).
  - exact (resize_dimensions _ _ _ Hs H).
Qed.

(** The table of the palette with [rows] set to 6: the cell in the last
    row and column of the original stays as it is. *)
Lemma resize_preserves_retained_values_witness :
  cell_at (updated (Drag.handleTableStructureChange Table_props
                      (number_input "rows" "6"))) 2 3
  = Some (VStr "Cell 3-4").
Proof.
  refine (proj1 (resize_preserves_retained_values Table_props
                   (number_input "rows" "6") _ _ _) 2%nat 3%nat _ _ _).
  - left. reflexivity.
  - apply is_Ok_updated. vm_compute. reflexivity.
  - vm_compute. reflexivity.
  - apply (bool_decide_unpack _). vm_compute. exact I.
Defined.

Lemma to_number_Some_Num v z : to_number v = Ok (Num z) → v = Some (VNum (Num z)).
Proof. destruct v as [[| |n| | |]|]; simpl; congruence. Qed.

Lemma new_value_number e k p n :
  Target.name e = k →
  target k p e = Ok n →
  (if String.eqb (Target.type e) "checkbox"
   then VBool (Target.checked e)
   else VNum (parseInt (Target.value e))) = VNum n.
Proof.
  unfold target. intros ->. rewrite String.eqb_refl.
  destruct (String.eqb _ _); simpl; congruence.
Qed.

Lemma kept_number e k p z :
  Target.name e ≠ k → target k p e = Ok (Num z) →
  p !! k = Some (VNum (Num z)).
Proof.
  unfold target. intros Hne%String.eqb_neq. rewrite Hne.
  apply to_number_Some_Num.
Qed.

Lemma cell_rows_number p newRows (k : nat) :
  target_cell_rows p newRows = Num (Z.of_nat k) →
  newRows = Num (Z.of_nat k + (if truthy (p !! "hasHeader") then 1 else 0)).
Proof.
  unfold target_cell_rows.
  destruct (truthy _), newRows as [|z]; simpl; try discriminate;
    intros [= Hz]; f_equal; lia.
Qed.

(** An edit of [rows] or of [cols] that reaches [onUpdate] leaves a table
    that satisfies the shape invariant, whatever the table was before. *)
Lemma resize_rows_cols_shape p e p' :
  Target.name e = "rows" ∨ Target.name e = "cols" →
  Drag.handleTableStructureChange p e = Ok p' →
  shape_ok p' = true.
Proof.
  intros Hname H.
  apply handleTableStructureChange_inv in H
    as (hs0 & cs0 & hs' & cs' & newRows & newCols & _ & _ & HnewRows
        & HnewCols & Hcols & _ & Hrows & Hcs' & ->);
    [|destruct Hname; [by left | by right; left]].
  apply cell_rows_number in Hrows. subst newCols.
  assert (forallb (row_has_length (Z.of_nat (length hs'))) cs' = true) as Hall.
  { apply forallb_forall. intros row Hin.
    apply list_elem_of_In, list_elem_of_lookup in Hin as [r Hr].
    destruct (Hcs' _ _ Hr) as (l' & -> & Hl' & _).
    simpl. injection Hl' as ->. apply Z.eqb_refl. }
  unfold shape_ok. rewrite !data_array_resized. simpl.
  rewrite !(lookup_insert_ne _ "data") by done.
  unfold len in *.
  destruct Hname as [Hn | Hn]; rewrite Hn; simpl.
  - apply (new_value_number _ _ _ _ Hn) in HnewRows. rewrite HnewRows.
    apply kept_number in HnewCols; [|by rewrite Hn].
    rewrite lookup_insert_eq, !lookup_insert_ne by done.
    rewrite HnewCols, Hrows, Hall, Z.eqb_refl, andb_true_r. simpl.
    apply Z.eqb_eq. destruct (truthy _); lia.
  - apply (new_value_number _ _ _ _ Hn) in HnewCols. rewrite HnewCols.
    rewrite Hrows in HnewRows. apply kept_number in HnewRows; [|by rewrite Hn].
    rewrite lookup_insert_eq, !lookup_insert_ne by done.
    rewrite HnewRows, Hall, Z.eqb_refl, andb_true_r. simpl.
    apply Z.eqb_eq. destruct (truthy _); lia.
Qed.

(** C2, where the code departs from it.  The table of the palette
    satisfies the shape invariant: 4 rows with a header, 3 rows of cells.
    Unchecking [hasHeader] reaches [onUpdate] with [rows] 4, [hasHeader]
    false and still 3 rows of cells, because the number of rows of cells
    is computed from the [hasHeader] of before the edit; the invariant
    asks for 4. *)
Theorem hasHeader_toggle_breaks_shape :
  let p' := updated (Drag.handleTableStructureChange Table_props
                       (checkbox_input "hasHeader" false)) in
  shape_ok Table_props = true
  ∧ is_Ok (Drag.handleTableStructureChange Table_props
             (checkbox_input "hasHeader" false)) = true
  ∧ p' !! "rows" = Some (num 4)
  ∧ p' !! "hasHeader" = Some (VBool false)
  ∧ length <$> data_array p' "cells" = Some 3%nat
  ∧ shape_ok p' = false.
Proof. vm_compute. repeat split. Qed.

Lemma set_length_valid {A} (l : list A) n :
  valid_length n = true → set_length l n = Ok (take (to_nat n) l).
Proof. unfold set_length. by intros ->. Qed.

Lemma target_cell_rows_NaN p : target_cell_rows p NaN = NaN.
Proof. unfold target_cell_rows. by destruct (truthy _). Qed.

(** An edit of [cols] that asks for a negative or an unparsable number
    of columns: the handler assigns the number as the length of the
    headers and ends with the [RangeError] of that assignment. *)
Lemma resize_cols_throws p e hs rows :
  data_array p "headers" = Some hs →
  p !! "rows" = Some (VNum rows) →
  Target.name e = "cols" →
  Target.type e ≠ "checkbox" →
  (parseInt (Target.value e) = NaN
   ∨ ∃ z, parseInt (Target.value e) = Num z ∧ z < 0) →
  let newCols := parseInt (Target.value e) in
  gt0 (sub newCols (len (json_clone <$> hs))) = false
  ∧ set_length (json_clone <$> hs) newCols = Throw RangeError
  ∧ Drag.handleTableStructureChange p e = Throw RangeError.
Proof.
  intros Hhs Hrows Hname Htype Hparse newCols.
  assert (gt0 (sub newCols (len (json_clone <$> hs))) = false) as Hgt.
  { subst newCols. destruct Hparse as [-> | (z & -> & Hz)]; [done|].
    simpl. apply Z.ltb_ge. lia. }
  assert (set_length (json_clone <$> hs) newCols = Throw RangeError) as Hset.
  { subst newCols. destruct Hparse as [-> | (z & -> & Hz)]; [done|].
    unfold set_length. simpl.
    by replace (0 <=? z) with false by (symmetry; apply Z.leb_gt; lia). }
  split_and!; [done..|].
  unfold Drag.handleTableStructureChange.
  unfold data_array in Hhs.
  destruct (p !! "data") as [d|] eqn:Hd; [|discriminate]. simpl in Hhs.
  apply String.eqb_neq in Htype. rewrite Hname, Htype, Hrows. simpl.
  rewrite !as_object_clone.
  destruct (as_object d !! "headers") as [[| | | | l |]|]; try discriminate.
  injection Hhs as ->.
  change (json_clone <$> Some (VArr hs)) with (Some (json_clone (VArr hs))).
  rewrite json_clone_arr. simpl.
  fold newCols. by rewrite Hgt, Hset.
Qed.

(** An edit of [rows] to a text that does not parse, on a table whose
    headers are as many as its columns: the number of rows of cells the
    handler aims at is [NaN], the handler assigns it as the length of the
    cells and ends with the [RangeError] of that assignment. *)
Lemma resize_rows_throws p e hs cs :
  data_array p "headers" = Some hs →
  data_array p "cells" = Some cs →
  p !! "cols" = Some (VNum (len hs)) →
  valid_length (len hs) = true →
  Target.name e = "rows" →
  Target.type e ≠ "checkbox" →
  parseInt (Target.value e) = NaN →
  target "rows" p e = Ok NaN
  ∧ set_length (json_clone <$> cs) (target_cell_rows p NaN) = Throw RangeError
  ∧ Drag.handleTableStructureChange p e = Throw RangeError.
Proof.
  intros Hhs Hcs Hcols Hvalid Hname Htype Hparse.
  apply String.eqb_neq in Htype.
  assert (target "rows" p e = Ok NaN) as Htarget.
  { unfold target. by rewrite Hname, Htype, Hparse. }
  split_and!; [done | by rewrite target_cell_rows_NaN |].
  unfold Drag.handleTableStructureChange.
  unfold data_array in Hhs, Hcs.
  destruct (p !! "data") as [d|] eqn:Hd; [|discriminate].
  simpl in Hhs, Hcs.
  rewrite Hname, Htype, Hparse, Hcols. simpl.
  rewrite !as_object_clone.
  destruct (as_object d !! "headers") as [[| | | | l |]|]; try discriminate.
  destruct (as_object d !! "cells") as [[| | | | l' |]|]; try discriminate.
  injection Hhs as ->. injection Hcs as ->.
  change (json_clone <$> Some (VArr hs)) with (Some (json_clone (VArr hs))).
  change (json_clone <$> Some (VArr cs)) with (Some (json_clone (VArr cs))).
  rewrite !json_clone_arr. cbn [mbind result_bind Drag.get_array].
  rewrite length_fmap, Z.sub_diag. cbn [Z.ltb Z.compare].
  rewrite (set_length_valid _ _ Hvalid). cbn [mbind result_bind].
  by destruct (truthy _).
Qed.

Lemma set_length_negative {A} (l : list A) k :
  k < 0 → set_length l (Num k) = Throw RangeError.
Proof.
  intros Hk. unfold set_length. simpl.
  by replace (0 <=? k) with false by (symmetry; apply Z.leb_gt; lia).
Qed.

Lemma target_cell_rows_Num p z :
  target_cell_rows p (Num z)
  = Num (z - (if truthy (p !! "hasHeader") then 1 else 0)).
Proof.
  unfold target_cell_rows. destruct (truthy _); simpl; f_equal; lia.
Qed.

(** An edit of [rows] to a number that leaves a negative number of rows
    of cells, on a table whose headers are as many as its columns: the
    test [rowDiff > 0] fails, the handler assigns the negative number as
    the length of the cells and ends with the [RangeError] of that
    assignment. *)
Lemma resize_rows_negative_throws p e hs cs z :
  data_array p "headers" = Some hs →
  data_array p "cells" = Some cs →
  p !! "cols" = Some (VNum (len hs)) →
  valid_length (len hs) = true →
  Target.name e = "rows" →
  Target.type e ≠ "checkbox" →
  parseInt (Target.value e) = Num z →
  z - (if truthy (p !! "hasHeader") then 1 else 0) < 0 →
  target "rows" p e = Ok (Num z)
  ∧ gt0 (sub (target_cell_rows p (Num z)) (len (json_clone <$> cs))) = false
  ∧ set_length (json_clone <$> cs) (target_cell_rows p (Num z))
    = Throw RangeError
  ∧ Drag.handleTableStructureChange p e = Throw RangeError.
Proof.
  intros Hhs Hcs Hcols Hvalid Hname Htype Hparse Hneg.
  apply String.eqb_neq in Htype.
  assert (target "rows" p e = Ok (Num z)) as Htarget.
  { unfold target. by rewrite Hname, Htype, Hparse. }
  assert (gt0 (sub (target_cell_rows p (Num z)) (len (json_clone <$> cs)))
          = false) as Hgt.
  { rewrite target_cell_rows_Num. unfold len. simpl. apply Z.ltb_ge. lia. }
  assert (set_length (json_clone <$> cs) (target_cell_rows p (Num z))
          = Throw RangeError) as Hset.
  { rewrite target_cell_rows_Num. by apply set_length_negative. }
  split_and!; [done..|].
  unfold Drag.handleTableStructureChange.
  unfold data_array in Hhs, Hcs.
  destruct (p !! "data") as [d|] eqn:Hd; [|discriminate].
  simpl in Hhs, Hcs.
  rewrite Hname, Htype, Hparse, Hcols. simpl.
  rewrite !as_object_clone.
  destruct (as_object d !! "headers") as [[| | | | l |]|]; try discriminate.
  destruct (as_object d !! "cells") as [[| | | | l' |]|]; try discriminate.
  injection Hhs as ->. injection Hcs as ->.
  change (json_clone <$> Some (VArr hs)) with (Some (json_clone (VArr hs))).
  change (json_clone <$> Some (VArr cs)) with (Some (json_clone (VArr cs))).
  rewrite !json_clone_arr. cbn [mbind result_bind Drag.get_array].
  rewrite length_fmap, Z.sub_diag. cbn [Z.ltb Z.compare].
  rewrite (set_length_valid _ _ Hvalid). cbn [mbind result_bind].
  change (if truthy (p !! "hasHeader") then Num (z - 1) else Num z)
    with (target_cell_rows p (Num z)).
  by rewrite Hgt, Hset.
Qed.

(** C10. The resize path has no clamp.  An edit of [cols] whose text
    parses to a negative integer, or does not parse so that the number of
    columns is [NaN], fails the test [headerDiff > 0]; the handler
    assigns the number as the length of the headers, and the
    [RangeError] of this assignment ends the handler before [onUpdate].
    An edit of [rows] whose text does not parse makes the number of rows
    of cells [NaN], which the handler assigns as the length of the
    cells, with the same end.  An edit of [rows] whose text parses to a
    number that leaves a negative number of rows of cells fails the test
    [rowDiff > 0]; the handler assigns the negative number as the length
    of the cells, with the same end: no number of columns or of rows is
    brought to zero or more anywhere on the path. *)
Theorem resize_does_not_clamp p e hs cs :
  data_array p "headers" = Some hs →
  data_array p "cells" = Some cs →
  Target.type e ≠ "checkbox" →
  (Target.name e = "cols" →
   (∃ rows, p !! "rows" = Some (VNum rows)) →
   (parseInt (Target.value e) = NaN
    ∨ ∃ z, parseInt (Target.value e) = Num z ∧ z < 0) →
   gt0 (sub (parseInt (Target.value e)) (len (json_clone <$> hs))) = false
   ∧ set_length (json_clone <$> hs) (parseInt (Target.value e))
     = Throw RangeError
   ∧ Drag.handleTableStructureChange p e = Throw RangeError)
  ∧ (Target.name e = "rows" →
     p !! "cols" = Some (VNum (len hs)) →
     valid_length (len hs) = true →
     parseInt (Target.value e) = NaN →
     target "rows" p e = Ok NaN
     ∧ set_length (json_clone <$> cs) (target_cell_rows p NaN)
       = Throw RangeError
     ∧ Drag.handleTableStructureChange p e = Throw RangeError)
  ∧ (Target.name e = "rows" →
     p !! "cols" = Some (VNum (len hs)) →
     valid_length (len hs) = true →
     ∀ z, parseInt (Target.value e) = Num z →
          z - (if truthy (p !! "hasHeader") then 1 else 0) < 0 →
          target "rows" p e = Ok (Num z)
          ∧ gt0 (sub (target_cell_rows p (Num z)) (len (json_clone <$> cs)))
            = false
          ∧ set_length (json_clone <$> cs) (target_cell_rows p (Num z))
            = Throw RangeError
          ∧ Drag.handleTableStructureChange p e = Throw RangeError).
Proof.
  intros Hhs Hcs Htype. split_and!.
  - intros Hname [rows Hrows] Hparse.
    exact (resize_cols_throws p e hs rows Hhs Hrows Hname Htype Hparse).
  - intros Hname Hcols Hvalid Hparse.
    exact (resize_rows_throws p e hs cs Hhs Hcs Hcols Hvalid Hname Htype Hparse).
  - intros Hname Hcols Hvalid z Hparse Hneg.
    exact (resize_rows_negative_throws p e hs cs z Hhs Hcs Hcols Hvalid Hname
             Htype Hparse Hneg).
Qed.

(** The table of the palette, [cols] set to [-1], and [rows] set to
    [-3]. *)
Lemma resize_does_not_clamp_witness :
  Drag.handleTableStructureChange Table_props (number_input "cols" "-1")
  = Throw RangeError
  ∧ Drag.handleTableStructureChange Table_props (number_input "rows" "-3")
    = Throw RangeError.
Proof.
  split.
  - refine (proj2 (proj2 (proj1 (resize_does_not_clamp Table_props
              (number_input "cols" "-1")
              (default [] (data_array Table_props "headers"))
              (default [] (data_array Table_props "cells"))
              _ _ _) _ _ _))).
    + vm_compute. reflexivity.
    + vm_compute. reflexivity.
    + discriminate.
    + reflexivity.
    + exists (Num 4). vm_compute. reflexivity.
    + right. exists (-1). split; [vm_compute; reflexivity | lia].
  - refine (proj2 (proj2 (proj2 (proj2 (proj2 (resize_does_not_clamp
              Table_props (number_input "rows" "-3")
              (default [] (data_array Table_props "headers"))
              (default [] (data_array Table_props "cells"))
              _ _ _)) _ _ _ (-3) _ _)))).
    + vm_compute. reflexivity.
    + vm_compute. reflexivity.
    + discriminate.
    + reflexivity.
    + vm_compute. reflexivity.
    + vm_compute. reflexivity.
    + vm_compute. reflexivity.
    + vm_compute. reflexivity.
Defined.

Lemma resize_returns (n : number) (l : list value) (x : value) :
  valid_length n = true →
  ∃ l', (if gt0 (sub n (len l))
         then fill ← Array_fill (sub n (len l)) x; Ok (l ++ fill)
         else set_length l n) = Ok l'.
Proof.
  intros Hn. destruct (gt0 (sub n (len l))) eqn:Hgt.
  - assert (valid_length (sub n (len l)) = true) as Hv.
    { destruct n as [|z]; [done|]. simpl in *.
      apply andb_true_iff in Hn as [_ Hn]. apply Z.ltb_lt in Hn, Hgt.
      apply andb_true_iff. split; [apply Z.leb_le | apply Z.ltb_lt]; lia. }
    unfold Array_fill. rewrite Hv. simpl. eauto.
  - unfold set_length. rewrite Hn. eauto.
Qed.

Lemma push_rows_returns k n cells :
  valid_length n = true → ∃ cells', Drag.push_rows k n cells = Ok cells'.
Proof.
  intros Hn. revert cells. induction k as [|k IH]; intros cells; simpl.
  - eauto.
  - unfold Array_fill. rewrite Hn. simpl. apply IH.
Qed.

Lemma mapM_returns {A B} (f : A → result B) l :
  Forall (λ x, ∃ y, f x = Ok y) l → ∃ l', mapM f l = Ok l'.
Proof.
  induction 1 as [|x l [y Hy] _ [l' IH]]; simpl; [eauto|].
  rewrite Hy. simpl. rewrite IH. simpl. eauto.
Qed.

Lemma resize_row_returns n row :
  valid_length n = true → is_array row = true →
  ∃ row', Drag.resize_row n row = Ok row'.
Proof.
  intros Hn Hrow. destruct row as [| | | | l |]; try discriminate.
  unfold Drag.resize_row. simpl.
  destruct (resize_returns n l (VStr "New Cell") Hn) as [l' Hl'].
  destruct (gt0 (sub n (len l))).
  - apply bind_Ok in Hl' as (fill & -> & [= <-]). simpl. eauto.
  - rewrite Hl'. simpl. eauto.
Qed.

(** The handler reaches [onUpdate] whenever the table has its headers
    and its rows of cells as arrays, the edit is structural, and the
    numbers of columns and of rows of cells asked for are array
    lengths. *)
Lemma handleTableStructureChange_returns p e hs cs newRows newCols :
  structural e →
  data_array p "headers" = Some hs →
  data_array p "cells" = Some cs →
  forallb is_array cs = true →
  target "rows" p e = Ok newRows →
  target "cols" p e = Ok newCols →
  valid_length newCols = true →
  valid_length (target_cell_rows p newRows) = true →
  ∃ p', Drag.handleTableStructureChange p e = Ok p'.
Proof.
  intros Hs Hhs Hcs Harr Hrows Hcols Hvc Hvr.
  unfold Drag.handleTableStructureChange, data_array in *.
  destruct (p !! "data") as [d|]; [|discriminate]. simpl in Hhs, Hcs. simpl.
  assert (String.eqb (Target.name e) "rows" || String.eqb (Target.name e) "cols"
          || String.eqb (Target.name e) "hasHeader" = true) as ->.
  { destruct Hs as [-> | [-> | ->]]; reflexivity. }
  unfold target in Hrows, Hcols. rewrite Hrows, Hcols. simpl.
  change (JSON_parse (JSON_stringify d)) with (json_clone d).
  rewrite !as_object_clone.
  destruct (as_object d !! "headers") as [[| | | | hs0 |]|]; try discriminate.
  destruct (as_object d !! "cells") as [[| | | | cs0 |]|]; try discriminate.
  injection Hhs as ->. injection Hcs as ->.
  change (json_clone <$> Some (VArr hs)) with (Some (json_clone (VArr hs))).
  change (json_clone <$> Some (VArr cs)) with (Some (json_clone (VArr cs))).
  rewrite !json_clone_arr. simpl.
  destruct (resize_returns newCols (json_clone <$> hs) (VStr "New Header") Hvc)
    as [hs' ->]. simpl.
  fold (target_cell_rows p newRows).
  set (n := target_cell_rows p newRows) in *.
  assert (∃ cs1,
    (if gt0 (sub n (len (json_clone <$> cs)))
     then Drag.push_rows (to_nat (sub n (len (json_clone <$> cs)))) newCols
            (json_clone <$> cs)
     else set_length (json_clone <$> cs) n) = Ok cs1
    ∧ forallb is_array cs1 = true) as (cs1 & -> & Harr1).
  { assert (forallb is_array (json_clone <$> cs) = true) as Harr'.
    { rewrite forallb_forall in *. intros x Hx.
      apply list_elem_of_In, list_elem_of_fmap in Hx as (y & -> & Hy).
      apply list_elem_of_In, Harr in Hy.
      destruct y; try discriminate. by rewrite json_clone_arr. }
    destruct (gt0 _).
    - destruct (push_rows_returns (to_nat (sub n (len (json_clone <$> cs))))
                  newCols (json_clone <$> cs) Hvc) as [cs1 H1].
      exists cs1. split; [done|]. apply push_rows_Ok in H1 as ->.
      rewrite forallb_app, Harr'. simpl.
      apply forallb_forall. intros x Hx.
      apply list_elem_of_In, elem_of_replicate_inv in Hx as ->. done.
    - unfold set_length. rewrite Hvr. eexists. split; [done|].
      rewrite forallb_forall in *. intros x Hx. apply Harr'.
      apply list_elem_of_In, elem_of_take in Hx as (i & Hi & _).
      apply list_elem_of_In. by eapply list_elem_of_lookup_2. }
  simpl.
  destruct (mapM_returns (Drag.resize_row newCols) cs1) as [cs' ->].
  { apply Forall_forall. intros x Hx. apply resize_row_returns; [done|].
    rewrite forallb_forall in Harr1. by apply Harr1, list_elem_of_In. }
  simpl. eauto.
Qed.

(* ===================================================================== *)
(** ** The component sequence: reorder, update, cancelled drags          *)
(* ===================================================================== *)

Lemma findIndex_from_found x l a :
  some x l = true →
  ∃ i c, findIndex_from x l a = a + Z.of_nat i
         ∧ l !! i = Some c ∧ id c = x.
Proof.
  revert a. induction l as [|c l IH]; intros a; simpl; [discriminate|].
  destruct (String.eqb (id c) x) eqn:E.
  - intros _. exists 0%nat, c. apply String.eqb_eq in E.
    split_and!; [lia | done..].
  - simpl. intros H. destruct (IH (a + 1) H) as (i & c' & Hi & Hc & Hid).
    exists (S i), c'. split_and!; [lia | done..].
Qed.

Lemma findIndex_found x l :
  some x l = true →
  ∃ i c, findIndex x l = Z.of_nat i ∧ l !! i = Some c ∧ id c = x.
Proof.
  intros H. destruct (findIndex_from_found x l 0 H) as (i & c & Hi & Hc).
  exists i, c. split; [unfold findIndex; lia | done].
Qed.

Lemma findIndex_from_not_found x l a :
  some x l = false → findIndex_from x l a = -1.
Proof.
  revert a. induction l as [|c l IH]; intros a; simpl; [done|].
  destruct (String.eqb (id c) x); simpl; [discriminate | auto].
Qed.

Lemma splice_start_index {A} (l : list A) (i : nat) :
  (i ≤ length l)%nat → splice_start l (Z.of_nat i) = i.
Proof.
  intros Hi. unfold splice_start.
  replace (Z.of_nat i <? 0) with false by (symmetry; apply Z.ltb_ge; lia).
  lia.
Qed.

(** [arrayMove] between two positions of the array: the element is taken
    out, and put at the destination index of what is left. *)
Lemma arrayMove_index {A} (l : list A) (i j : nat) x :
  l !! i = Some x → (j < length l)%nat →
  arrayMove l (Z.of_nat i) (Z.of_nat j)
  = take j (delete i l) ++ x :: drop j (delete i l).
Proof.
  intros Hi Hj. pose proof (lookup_lt_Some _ _ _ Hi) as Hlt.
  unfold arrayMove, splice_remove.
  replace (Z.of_nat j <? 0) with false by (symmetry; apply Z.ltb_ge; lia).
  rewrite splice_start_index by lia.
  rewrite (drop_S _ _ _ Hi). simpl.
  rewrite <- delete_take_drop. unfold splice_insert.
  rewrite splice_start_index; [done|].
  rewrite length_delete by eauto. lia.
Qed.

Lemma insert_delete_Permutation {A} (l : list A) (i j : nat) x :
  l !! i = Some x →
  take j (delete i l) ++ x :: drop j (delete i l) ≡ₚ l.
Proof.
  intros Hi. rewrite <- Permutation_middle, take_drop.
  symmetry. by apply delete_Permutation.
Qed.

(** C3. Dragging a component of the canvas that is not a palette entry
    onto a different component of the canvas takes the element at the
    source index out and puts it at the destination index of the
    sequence that is left; the sequence after is a permutation of the
    sequence before, and so is the list of its ids. *)
Theorem reorder_is_a_move now canvas active over :
  active ∉ Drag.availableComponents →
  some active canvas = true →
  some over canvas = true →
  active ≠ over →
  ∃ i j x,
    findIndex active canvas = Z.of_nat i
    ∧ findIndex over canvas = Z.of_nat j
    ∧ canvas !! i = Some x ∧ id x = active
    ∧ Drag.handleDragEnd now canvas active (Some over)
      = take j (delete i canvas) ++ x :: drop j (delete i canvas)
    ∧ Drag.handleDragEnd now canvas active (Some over) ≡ₚ canvas
    ∧ id <$> Drag.handleDragEnd now canvas active (Some over)
      ≡ₚ id <$> canvas.
Proof.
  intros Hpal Ha Ho Hne.
  destruct (findIndex_found _ _ Ha) as (i & x & Hi & Hx & Hid).
  destruct (findIndex_found _ _ Ho) as (j & y & Hj & Hy & _).
  exists i, j, x.
  assert (Drag.handleDragEnd now canvas active (Some over)
          = take j (delete i canvas) ++ x :: drop j (delete i canvas)) as ->.
  { unfold Drag.handleDragEnd.
    rewrite bool_decide_eq_false_2 by done.
    rewrite Ha, Ho. apply String.eqb_neq in Hne. rewrite Hne. simpl.
    rewrite Hi, Hj. apply arrayMove_index; [done|].
    by apply lookup_lt_Some in Hy. }
  split_and!; try done.
  - by apply insert_delete_Permutation.
  - apply fmap_Permutation. by apply insert_delete_Permutation.
Qed.

(** From [A, B, C], dragging [A] onto [C] gives [B, C, A]. *)
Lemma reorder_is_a_move_witness :
  id <$> Drag.handleDragEnd 0 ABC "A" (Some "C") ≡ₚ id <$> ABC
  ∧ id <$> Drag.handleDragEnd 0 ABC "A" (Some "C") = ["B"; "C"; "A"].
Proof.
  split; [|vm_compute; reflexivity].
  destruct (reorder_is_a_move 0 ABC "A" "C") as (i & j & x & H).
  - apply (bool_decide_unpack _). vm_compute. exact I.
  - reflexivity.
  - reflexivity.
  - discriminate.
  - apply H.
Defined.

(** C4. [handleUpdateComponent(id, newProps)] keeps the length, the
    order, the ids and the types; a component with the given id has
    exactly [newProps] as its props afterwards, key by key, whatever its
    props were; every other component is unchanged; and when no component
    has the id the sequence is unchanged. *)
Theorem update_replaces_props (i : string) (newProps : gmap string value)
    (c : list component) :
  length (handleUpdateComponent i newProps c) = length c
  ∧ (∀ k comp, c !! k = Some comp →
       ∃ comp', handleUpdateComponent i newProps c !! k = Some comp'
         ∧ id comp' = id comp ∧ type comp' = type comp
         ∧ (id comp = i →
              props comp' = newProps
              ∧ ∀ key, props comp' !! key = newProps !! key)
         ∧ (id comp ≠ i → comp' = comp))
  ∧ ((∀ comp, comp ∈ c → id comp ≠ i) →
       handleUpdateComponent i newProps c = c).
Proof.
  unfold handleUpdateComponent. split_and!.
  - by rewrite length_fmap.
  - intros k comp Hk. rewrite list_lookup_fmap, Hk. simpl.
    eexists. split; [done|].
    destruct (String.eqb (id comp) i) eqn:E.
    + apply String.eqb_eq in E. simpl. split_and!; try done.
    + apply String.eqb_neq in E. split_and!; try done.
  - intros Hno. induction c as [|comp c IH]; [done|].
    rewrite fmap_cons. f_equal.
    + assert (id comp ≠ i) as E by (apply Hno; by left).
      apply String.eqb_neq in E. by rewrite E.
    + apply IH. intros ? ?. apply Hno. by right.
Qed.

(** The spec's scenario: props [{label: "Old", placeholder: "X",
    hint: "h"}] replaced by [{label: "New", placeholder: "X"}]; the key
    [hint], which the caller left out, is gone. *)
Lemma update_replaces_props_witness :
  let old := {| id := "Input-1"; type := "Input";
                props := {[ "label" := VStr "Old"; "placeholder" := VStr "X";
                            "hint" := VStr "h" ]} |} in
  let new : gmap string value :=
    {[ "label" := VStr "New"; "placeholder" := VStr "X" ]} in
  ∃ comp', handleUpdateComponent "Input-1" new [old] !! 0%nat = Some comp'
    ∧ props comp' !! "label" = Some (VStr "New")
    ∧ props comp' !! "hint" = None.
Proof.
  intros old new.
  destruct (proj1 (proj2 (update_replaces_props "Input-1" new [old]))
              0%nat old eq_refl)
    as (comp' & Hk & _ & _ & Hprops & _).
  exists comp'. split; [exact Hk|].
  destruct (Hprops eq_refl) as [_ Hkeys].
  split; rewrite Hkeys; reflexivity.
Defined.

(** The id [handleDragEnd] mints for a new component is no palette
    entry, so a component created by the handler is never taken for one. *)
Lemma minted_id_is_no_palette_entry active (now : Z) :
  active ∈ Drag.availableComponents →
  active +:+ "-" +:+ pretty now ∉ Drag.availableComponents.
Proof.
  unfold Drag.availableComponents. intros Ha Hin.
  repeat (apply elem_of_cons in Ha as [-> | Ha]);
    try (by apply elem_of_nil in Ha);
    repeat (apply elem_of_cons in Hin as [Hin | Hin]; [discriminate|]);
    by apply elem_of_nil in Hin.
Qed.
(** Where C5 holds.  A drag that ends with no drop target leaves the
    component sequence as it is, in each of the three handlers.  A drag
    whose active element is no palette entry and is dropped on itself
    leaves it as it is, in each of the three handlers.  In [Drag.jsx], a
    drag whose active element is no palette entry and whose drop target
    is no component of the canvas (a palette entry, for one) leaves it as
    it is. *)
Lemma cancelled_drag_is_noop now canvas active over :
  (over = None →
     Drag.handleDragEnd now canvas active over = canvas
     ∧ DragAdvanced.handleDragEnd now canvas active over = canvas
     ∧ DragDrop.handleDragEnd now canvas active over = canvas)
  ∧ (over = Some active →
       (active ∉ Drag.availableComponents →
          Drag.handleDragEnd now canvas active over = canvas)
       ∧ (active ∉ DragAdvanced.availableComponents →
            DragAdvanced.handleDragEnd now canvas active over = canvas)
       ∧ (active ∉ DragDrop.availableComponents →
            DragDrop.handleDragEnd now canvas active over = canvas))
  ∧ (active ∉ Drag.availableComponents →
     cancelled canvas active over →
     Drag.handleDragEnd now canvas active over = canvas).
Proof.
  split_and!.
  - by intros ->.
  - intros ->. split_and!; intros Hpal.
    + unfold Drag.handleDragEnd. rewrite bool_decide_eq_false_2 by done.
      by rewrite String.eqb_refl, andb_false_r.
    + unfold DragAdvanced.handleDragEnd.
      rewrite bool_decide_eq_false_2 by done. by rewrite String.eqb_refl.
    + unfold DragDrop.handleDragEnd.
      rewrite bool_decide_eq_false_2 by done. by rewrite String.eqb_refl.
  - intros Hpal [-> | [-> | (o & -> & Ho)]]; [done | |];
      unfold Drag.handleDragEnd; rewrite bool_decide_eq_false_2 by done.
    + by rewrite String.eqb_refl, andb_false_r.
    + by rewrite Ho, andb_false_r.
Qed.

(** [arrayMove] to the index [-1], which [findIndex] gives for a target
    that is not found: the index counts from the end of the array as it
    is before the element is taken out, and the element is put last. *)
Lemma arrayMove_minus_one {A} (l : list A) (i : nat) x :
  l !! i = Some x → arrayMove l (Z.of_nat i) (-1) = delete i l ++ [x].
Proof.
  intros Hi. pose proof (lookup_lt_Some _ _ _ Hi) as Hlt.
  unfold arrayMove, splice_remove. cbn [Z.ltb Z.compare].
  rewrite splice_start_index by lia.
  rewrite (drop_S _ _ _ Hi). simpl.
  rewrite <- delete_take_drop. unfold splice_insert.
  replace (Z.of_nat (length l) + -1) with (Z.of_nat (length (delete i l)))
    by (rewrite length_delete by eauto; lia).
  rewrite splice_start_index by done.
  by rewrite firstn_all, drop_all.
Qed.

Lemma some_true_find x canvas :
  some x canvas = true → is_Some (find x canvas).
Proof.
  unfold some, find. induction canvas as [|c canvas IH]; [done|]. simpl.
  destruct (String.eqb (id c) x); simpl; eauto.
Qed.

Lemma moved_last_differs (canvas : list component) i x :
  canvas !! i = Some x →
  NoDup (id <$> canvas) → (S i < length canvas)%nat →
  delete i canvas ++ [x] ≠ canvas.
Proof.
  intros Hi Hnd Hlt Heq.
  destruct (lookup_lt_is_Some_2 canvas (S i) Hlt) as [y Hy].
  assert ((delete i canvas ++ [x]) !! i = Some y) as Hy'.
  { rewrite lookup_app_l by (rewrite length_delete by eauto; lia).
    by rewrite list_lookup_delete_ge. }
  rewrite Heq, Hi in Hy'. injection Hy' as ->.
  assert (i = S i); [|lia].
  apply (NoDup_lookup (id <$> canvas) i (S i) (id y) Hnd).
  - by rewrite list_lookup_fmap, Hi.
  - by rewrite list_lookup_fmap, Hy.
Qed.

(** C5, where the code departs from it.  A component of the canvas that
    is dragged and dropped on a target that is no component of the
    canvas, a palette entry for one, is a cancelled drag.  The handler
    of [DragAdvanced.jsx] tests only that the two ids differ: [findIndex]
    gives [-1] for the target, [arrayMove] is called with it, and the
    component is taken out of its place and put last; with distinct ids
    and the component not last already, the sequence is not the one
    before.  The handler of [DragDrop] does the same.  The handler of
    [Drag.jsx] tests that the target is on the canvas and leaves the
    sequence as it is. *)
Theorem drop_outside_canvas_moves_component now canvas active over i x :
  canvas !! i = Some x →
  id x = active →
  findIndex active canvas = Z.of_nat i →
  some over canvas = false →
  active ∉ DragAdvanced.availableComponents →
  cancelled canvas active (Some over)
  ∧ findIndex over canvas = -1
  ∧ DragAdvanced.handleDragEnd now canvas active (Some over)
    = delete i canvas ++ [x]
  ∧ (NoDup (id <$> canvas) → (S i < length canvas)%nat →
     DragAdvanced.handleDragEnd now canvas active (Some over) ≠ canvas)
  ∧ (active ∉ DragDrop.availableComponents →
     DragDrop.handleDragEnd now canvas active (Some over)
     = delete i canvas ++ [x])
  ∧ (active ∉ Drag.availableComponents →
     Drag.handleDragEnd now canvas active (Some over) = canvas).
Proof.
  intros Hi Hid Hfind Hover Hpal.
  assert (some active canvas = true) as Hactive.
  { unfold some. apply existsb_exists. exists x. split.
    - apply list_elem_of_In. by eapply list_elem_of_lookup_2.
    - by apply String.eqb_eq. }
  assert (String.eqb active over = false) as Hne.
  { apply String.eqb_neq. intros ->. congruence. }
  assert (findIndex over canvas = -1) as Hnot
    by (by apply findIndex_from_not_found).
  assert (DragAdvanced.handleDragEnd now canvas active (Some over)
          = delete i canvas ++ [x]) as Hmoved.
  { unfold DragAdvanced.handleDragEnd.
    rewrite bool_decide_eq_false_2 by done. rewrite Hne. simpl.
    rewrite Hfind, Hnot. by apply arrayMove_minus_one. }
  split_and!.
  - right. right. by exists over.
  - done.
  - done.
  - intros Hnd Hlt. rewrite Hmoved. by apply moved_last_differs.
  - intros Hpal'. unfold DragDrop.handleDragEnd.
    rewrite bool_decide_eq_false_2 by done. rewrite Hne. simpl.
    rewrite bool_decide_eq_true_2 by (by apply some_true_find).
    rewrite Hfind, Hnot. by apply arrayMove_minus_one.
  - intros Hpal'. unfold Drag.handleDragEnd.
    rewrite bool_decide_eq_false_2 by done.
    by rewrite Hover, andb_false_r.
Qed.

(** In [DragAdvanced.jsx], the button of the canvas with a button, an
    input and a text area dropped on the palette entry [Separator]. *)
Lemma drop_outside_canvas_moves_component_witness :
  id <$> advanced_canvas = ["Button-1"; "Input-2"; "Textarea-3"]
  ∧ id <$> DragAdvanced.handleDragEnd 4 advanced_canvas "Button-1"
             (Some "Separator")
    = ["Input-2"; "Textarea-3"; "Button-1"].
Proof.
  split; [vm_compute; reflexivity|].
  refine (eq_trans
            (f_equal (fmap id)
               (proj1 (proj2 (proj2
                  (drop_outside_canvas_moves_component 4 advanced_canvas
                     "Button-1" "Separator" 0%nat
                     (default (Component "" "" ∅) (head advanced_canvas))
                     _ _ _ _ _))))) _).
  - vm_compute. reflexivity.
  - vm_compute. reflexivity.
  - vm_compute. reflexivity.
  - vm_compute. reflexivity.
  - apply (bool_decide_unpack _). vm_compute. exact I.
  - vm_compute. reflexivity.
Defined.

(* ===================================================================== *)
(** ** Style edits                                                       *)
(* ===================================================================== *)

Lemma style_at_insert p k v (m : gmap string value) :
  style_at (<["styles" := VObj (<[k := v]> m)]> p) k = Some v.
Proof. unfold style_at. by rewrite !lookup_insert_eq. Qed.

(** C6, where the code departs from it.  A number field of the style
    form whose text does not parse stores [NaN] under the field's name in
    [Drag.jsx] and in [DragAdvanced.jsx]; the handler of [DragDrop], which
    reads [parseInt(value, 10) || 0], stores 0. *)
Theorem unparsable_style_is_stored_as_NaN props e :
  Target.type e = "number" →
  parseInt (Target.value e) = NaN →
  style_at (Drag.handleStyleChange props e) (Target.name e) = Some (VNum NaN)
  ∧ style_at (DragAdvanced.handleStyleChange props e) (Target.name e)
    = Some (VNum NaN)
  ∧ style_at (DragDrop.handleStyleChange props e) (Target.name e)
    = Some (num 0).
Proof.
  intros Ht Hp.
  unfold Drag.handleStyleChange, DragAdvanced.handleStyleChange,
    DragDrop.handleStyleChange.
  rewrite !style_at_insert, Ht, Hp. done.
Qed.

(** The margin of a text block edited to the empty text. *)
Lemma unparsable_style_is_stored_as_NaN_witness :
  style_at (Drag.handleStyleChange Text_props (number_input "marginTop" ""))
    "marginTop"
  = Some (VNum NaN).
Proof.
  exact (proj1 (unparsable_style_is_stored_as_NaN Text_props
                  (number_input "marginTop" "") eq_refl eq_refl)).
Defined.

(* ===================================================================== *)
(** ** The exported document                                             *)
(* ===================================================================== *)

Lemma value_size_elem (l : list value) v :
  v ∈ l → (value_size v < value_size (VArr l))%nat.
Proof.
  simpl. induction 1 as [v l | v w l _ IH]; simpl; lia.
Qed.

Lemma value_size_lookup (m : gmap string value) k v :
  m !! k = Some v → (value_size v < value_size (VObj m))%nat.
Proof.
  simpl. revert k v.
  induction m as [|i x m Hi Hfold IH] using map_first_key_ind;
    intros k v.
  - by rewrite lookup_empty.
  - rewrite map_fold_insert_first_key by done.
    rewrite lookup_insert. case_decide; intros E.
    + injection E as ->. lia.
    + specialize (IH _ _ E). lia.
Qed.

(** Induction on values, with the hypothesis for every element of an
    array and every field of an object. *)
Lemma value_ind' (P : value → Prop) :
  P VNull → (∀ b, P (VBool b)) → (∀ n, P (VNum n)) → (∀ s, P (VStr s)) →
  (∀ l, Forall P l → P (VArr l)) →
  (∀ m, map_Forall (λ _, P) m → P (VObj m)) →
  ∀ v, P v.
Proof.
  intros Hnull Hbool Hnum Hstr Harr Hobj v.
  remember (value_size v) as n eqn:Hn. revert v Hn.
  induction n as [n IH] using lt_wf_ind. intros v ->.
  destruct v as [| | | | l | m]; auto.
  - apply Harr, Forall_forall. intros x Hx.
    eapply IH; [|done]. by apply value_size_elem.
  - apply Hobj. intros k x Hk.
    eapply IH; [|done]. by eapply value_size_lookup.
Qed.

Lemma finite_obj_lookup (m : gmap string value) k v :
  finite (VObj m) = true → m !! k = Some v → finite v = true.
Proof.
  simpl. revert k v.
  induction m as [|i x m Hi Hfold IH] using map_first_key_ind;
    intros k v.
  - by rewrite lookup_empty.
  - rewrite map_fold_insert_first_key by done.
    intros [Hx Hm]%andb_true_iff.
    rewrite lookup_insert. case_decide; intros E.
    + by injection E as <-.
    + by eapply IH.
Qed.

(** A value without [NaN] is its own copy through JSON. *)
Lemma json_clone_finite v : finite v = true → json_clone v = v.
Proof.
  induction v as [| b | [|z] | s | l IH | m IH] using value_ind';
    try done.
  - intros Hl. rewrite json_clone_arr. f_equal.
    simpl in Hl. rewrite forallb_forall in Hl.
    induction IH as [|x l Hx _ IHl]; [done|].
    rewrite fmap_cons, Hx, IHl; [done | |].
    + intros y Hy. apply Hl. by right.
    + apply Hl. by left.
  - intros Hm. rewrite json_clone_obj. f_equal.
    apply map_eq. intros k. rewrite lookup_fmap.
    destruct (m !! k) as [x|] eqn:Hk; [|done]. simpl. f_equal.
    apply (IH _ _ Hk). by eapply finite_obj_lookup.
Qed.

Lemma value_component_clone c :
  Serializer.value_component (json_clone (Drag.component_value c))
  = Some (clone_component c).
Proof.
  unfold Drag.component_value, obj. rewrite json_clone_obj.
  unfold Serializer.value_component. rewrite !lookup_fmap. simpl.
  rewrite lookup_insert_eq.
  rewrite (lookup_insert_ne _ "id" "type"), lookup_insert_eq by done.
  rewrite (lookup_insert_ne _ "id" "props"),
    (lookup_insert_ne _ "type" "props"), lookup_insert_eq by done.
  simpl. unfold clone_component. do 2 f_equal.
  by rewrite <- map_fmap_compose.
Qed.

(** Reading the exported document back gives the blueprint with every
    props object copied through JSON. *)
Lemma fromJSON_toJSON b :
  Serializer.fromJSON (Serializer.toJSON b) = Some (clone_component <$> b).
Proof.
  unfold Serializer.fromJSON, Serializer.toJSON, Drag.pageJson.
  change (JSON_parse (JSON_stringify ?v)) with (json_clone v).
  unfold obj. rewrite json_clone_obj, lookup_fmap. simpl.
  rewrite (lookup_insert_ne _ "name" "components"), lookup_insert_eq by done.
  simpl.
  induction b as [|c b IH]; [done|].
  rewrite !fmap_cons. cbn [mapM].
  change (JSON_parse (JSON_stringify (Drag.component_value c)))
    with (json_clone (Drag.component_value c)).
  rewrite value_component_clone. simpl.
  by rewrite IH.
Qed.

(** For a blueprint without [NaN] the round trip is the identity: same
    ids, types, order and props. *)
Lemma roundtrip_finite b :
  Forall (λ c, finite (VObj (props c)) = true) b →
  Serializer.fromJSON (Serializer.toJSON b) = Some b.
Proof.
  intros Hb. rewrite fromJSON_toJSON. f_equal.
  induction Hb as [|c b Hc _ IH]; [done|].
  rewrite fmap_cons, IH. f_equal.
  destruct c as [i t p]. unfold clone_component.
  apply json_clone_finite in Hc. rewrite json_clone_obj in Hc.
  injection Hc as Hc. simpl in *. by rewrite Hc.
Qed.

(** C7, where the code departs from it.  The document is
    [{ name, components }] and reading it back keeps ids, types and order
    and copies the props through JSON.  On the canvas reached by dragging
    a text block from the palette and editing its top margin to the empty
    text, the margin is [NaN]; the document holds [null] for it, and the
    blueprint read back differs from the one exported.  The document is
    the one of the blueprint whose margin is [null], so that no way of
    reading documents gives both blueprints back. *)
Theorem roundtrip_loses_NaN :
  Serializer.toJSON canvas_with_empty_margin
  = JSON_stringify
      (obj [("name", VStr "Exported Page");
            ("components",
             VArr (Drag.component_value <$> canvas_with_empty_margin))])
  ∧ first_margin (Some canvas_with_empty_margin) = Some (VNum NaN)
  ∧ first_margin (Serializer.fromJSON
                    (Serializer.toJSON canvas_with_empty_margin))
    = Some VNull
  ∧ Serializer.fromJSON (Serializer.toJSON canvas_with_empty_margin)
    ≠ Some canvas_with_empty_margin
  ∧ ∀ reader : json → option (list component),
      ¬ (reader (Serializer.toJSON canvas_with_empty_margin)
         = Some canvas_with_empty_margin
         ∧ reader (Serializer.toJSON canvas_with_null_margin)
           = Some canvas_with_null_margin).
Proof.
  split_and!.
  - reflexivity.
  - vm_compute. reflexivity.
  - vm_compute. reflexivity.
  - intros H. apply (f_equal first_margin) in H.
    vm_compute in H. discriminate.
  - intros reader [H1 H2].
    assert (Serializer.toJSON canvas_with_empty_margin
            = Serializer.toJSON canvas_with_null_margin) as Heq
      by (vm_compute; reflexivity).
    rewrite Heq, H2 in H1. apply (f_equal first_margin) in H1.
    vm_compute in H1. discriminate.
Qed.

(* ===================================================================== *)
(** ** Replacing the picture of an image                                 *)
(* ===================================================================== *)

Section replace.
Import Files.

(** The two handlers run [replace_src] on props that agree with the
    component's props on [src]. *)
Variable handler :
  gmap string value → option Url.File → Url.env →
  Url.env * result (option (gmap string value)).
Variable pre : gmap string value → gmap string value.
Hypothesis handler_eq : ∀ p f env, handler p f env = Drag.replace_src (pre p) f env.
Hypothesis pre_src : ∀ p, pre p !! "src" = p !! "src".

Lemma blob_src_insert i t (p : gmap string value) (n : nat) :
  blob_src {| id := i; type := t;
              props := <["src" := VStr ("blob:" +:+ pretty n)]> p |}
  = Some ("blob:" +:+ pretty n).
Proof. unfold blob_src. simpl. rewrite lookup_insert_eq. reflexivity. Qed.

Lemma find_Some_id sel canvas c :
  find sel canvas = Some c → id c = sel ∧ c ∈ canvas.
Proof.
  unfold find. intros H. apply find_some in H as [Hin Heq].
  apply String.eqb_eq in Heq. split; [done|]. by apply list_elem_of_In.
Qed.

Lemma find_update sel newProps canvas c :
  find sel canvas = Some c →
  find sel (handleUpdateComponent sel newProps canvas)
  = Some {| id := id c; type := type c; props := newProps |}.
Proof.
  unfold find, handleUpdateComponent.
  induction canvas as [|x canvas IH]; [done|].
  rewrite fmap_cons. simpl.
  destruct (String.eqb (id x) sel) eqn:E; simpl.
  - rewrite E. by intros [= ->].
  - rewrite E. apply IH.
Qed.

Lemma update_ids sel newProps canvas :
  id <$> handleUpdateComponent sel newProps canvas = id <$> canvas.
Proof.
  unfold handleUpdateComponent. rewrite <- list_fmap_compose.
  apply list_fmap_ext. intros _ x _. simpl.
  by destruct (String.eqb (id x) sel).
Qed.

Lemma elem_of_bound x canvas :
  x ∈ bound canvas ↔ ∃ c, c ∈ canvas ∧ blob_src c = Some x.
Proof. unfold bound. rewrite elem_of_list_to_set. apply list_elem_of_omap. Qed.

Lemma NoDup_ids_eq (canvas : list component) c1 c2 :
  NoDup (id <$> canvas) → c1 ∈ canvas → c2 ∈ canvas → id c1 = id c2 →
  c1 = c2.
Proof.
  intros Hnd H1 H2 Hid.
  apply list_elem_of_lookup in H1 as [i1 H1].
  apply list_elem_of_lookup in H2 as [i2 H2].
  assert (i1 = i2) as ->; [|congruence].
  apply (NoDup_lookup (id <$> canvas) i1 i2 (id c1) Hnd).
  - by rewrite list_lookup_fmap, H1.
  - by rewrite list_lookup_fmap, H2, Hid.
Qed.


End replace.

Section file_events.
Import Files.

Variable handler :
  gmap string value → option Url.File → Url.env →
  Url.env * result (option (gmap string value)).
Variable pre : gmap string value → gmap string value.
Hypothesis handler_eq : ∀ p f env, handler p f env = Drag.replace_src (pre p) f env.
Hypothesis pre_src : ∀ p, pre p !! "src" = p !! "src".

Lemma file_event_no_image sel file st :
  (∀ f, file = Some f → startsWith (Url.file_type f) "image/" = false) →
  file_event handler sel file st = st.
Proof.
  intros Hfile. destruct st as [canvas env]. unfold file_event.
  destruct (find sel canvas) as [c|]; [|done].
  destruct (String.eqb (type c) "Image"); [|done].
  rewrite handler_eq. unfold Drag.replace_src.
  destruct file as [f|]; [|done]. by rewrite (Hfile f eq_refl).
Qed.

(** An image file on an image whose [src] is absent or a string: the
    component gets the URL just minted as its [src]; the URL it held is
    released if it was an object URL. *)
Lemma file_event_image sel file canvas env c :
  find sel canvas = Some c →
  type c = "Image" →
  startsWith (Url.file_type file) "image/" = true →
  props c !! "src" = None ∨ (∃ s, props c !! "src" = Some (VStr s)) →
  file_event handler sel (Some file) (canvas, env)
  = (handleUpdateComponent sel
       (<["src" := VStr ("blob:" +:+ pretty (Url.minted env))]>
          (pre (props c))) canvas,
     match blob_src c with
     | Some s => Url.revokeObjectURL s (Url.createObjectURL env).2
     | None => (Url.createObjectURL env).2
     end).
Proof.
  intros Hfind Htype Hfile Hsrc.
  destruct (find_Some_id _ _ _ Hfind) as [Hid Hin].
  unfold file_event. rewrite Hfind, Htype. simpl.
  rewrite handler_eq. unfold Drag.replace_src, blob_src.
  rewrite Hfile. simpl. rewrite pre_src.
  destruct Hsrc as [-> | [s ->]]; simpl; [by rewrite Hid|].
  destruct (String.eqb s "") eqn:Hs; simpl.
  - apply String.eqb_eq in Hs as ->. by rewrite Hid.
  - destruct (startsWith s "blob:"); by rewrite Hid.
Qed.

End file_events.

Lemma handleImageFileSelect_replace_src p f env :
  Drag.handleImageFileSelect p f env = Drag.replace_src p f env.
Proof. reflexivity. Qed.

Lemma handleDrop_replace_src p f env :
  Drag.handleDrop p f env = Drag.replace_src (delete "styles" p) f env.
Proof. reflexivity. Qed.

Lemma delete_styles_src (p : gmap string value) :
  delete "styles" p !! "src" = p !! "src".
Proof. by rewrite lookup_delete_ne. Qed.


(** A pick leaves a canvas that is shown a canvas that is shown. *)
Lemma pick_keeps_renders sel (v : value) c canvas :
  c ∈ canvas →
  Forall (λ c, Files.renders c = true) canvas →
  Forall (λ c, Files.renders c = true)
    (handleUpdateComponent sel (<["src" := v]> (props c)) canvas).
Proof.
  intros Hc Hall. unfold handleUpdateComponent. apply Forall_fmap.
  eapply Forall_impl; [exact Hall|]. intros c0 Hc0. simpl.
  destruct (String.eqb (id c0) sel); [|done].
  unfold Files.renders. simpl. rewrite lookup_insert_ne by done.
  by apply (proj1 (Forall_forall _ _) Hall c).
Qed.




(** The props [handleDrop] hands to [onUpdate] have no [styles]: the
    handler spreads the props it destructured [styles] out of. *)
Lemma handleDrop_omits_styles p file env env' p' :
  Drag.handleDrop p file env = (env', Ok (Some p')) → p' !! "styles" = None.
Proof.
  unfold Drag.handleDrop, Drag.replace_src.
  destruct file as [f|]; [|discriminate].
  destruct (startsWith _ _); [|discriminate]. simpl.
  assert (∀ u : string,
            (<["src" := VStr u]> (delete "styles" p) : gmap string value)
              !! "styles" = None) as Hnone.
  { intros u. rewrite lookup_insert_ne by done. apply lookup_delete_eq. }
  destruct (truthy _); [|by intros [= _ <-]].
  destruct (delete "styles" p !! "src") as [[| | | s | |]|]; try discriminate.
  destruct (startsWith s "blob:"); by intros [= _ <-].
Qed.

(* ===================================================================== *)
(** ** Sharing of the default-props templates                            *)
(* ===================================================================== *)

Section heap.
Import Heap.

Lemma val_ge_mono n n' v : (n' ≤ n)%nat → val_ge n v = true → val_ge n' v = true.
Proof.
  destruct v; simpl; try done.
  intros Hle H. apply Nat.leb_le in H. apply Nat.leb_le. lia.
Qed.

Lemma obj_refs_mono n n' o :
  (n' ≤ n)%nat → obj_refs (val_ge n) o = true → obj_refs (val_ge n') o = true.
Proof.
  unfold obj_refs. rewrite !forallb_forall.
  intros Hle H v Hv. eapply val_ge_mono; eauto.
Qed.

Lemma prefix_lookup_end (h1 h' : heap) o :
  (h1 ++ [o]) `prefix_of` h' → h' !! length h1 = Some o.
Proof.
  intros Hp. eapply prefix_lookup_Some; [|exact Hp].
  by rewrite list_lookup_middle.
Qed.

Lemma prefix_app_l_inv (h1 h' : heap) ext :
  (h1 ++ ext) `prefix_of` h' → h1 `prefix_of` h'.
Proof. intros [k ->]. exists (ext ++ k). by rewrite app_assoc. Qed.

(** The elements of an array. *)
Lemma alloc_list_spec (l : list value) :
  Forall (λ v, ∀ h, allocates value_size reify val_ge v h (alloc v h)) l →
  ∀ h,
    allocates (λ l, foldr (λ x acc, value_size x + acc)%nat 0%nat l)
      (λ fuel h' vs, reify fuel h' <$> vs)
      (λ n vs, forallb (val_ge n) vs)
      l h (alloc_list alloc l h).
Proof.
  induction 1 as [|x l Hx _ IH]; intros h.
  - split_and!; [exists []; by rewrite app_nil_r | done | done].
  - simpl. destruct (alloc x h) as [h1 v] eqn:Ha.
    destruct (alloc_list alloc l h1) as [h2 vs] eqn:Hl.
    specialize (Hx h). rewrite Ha in Hx.
    specialize (IH h1). rewrite Hl in IH.
    destruct Hx as ((e1 & He1 & Hf1) & Hv & Hr).
    destruct IH as ((e2 & He2 & Hf2) & Hvs & Hrs).
    simpl in *. subst h1 h2.
    assert (length h ≤ length (h ++ e1))%nat as Hle
      by (rewrite length_app; lia).
    split_and!.
    + exists (e1 ++ e2). split; [by rewrite app_assoc|].
      apply Forall_app. split; [done|].
      eapply Forall_impl; [exact Hf2|]. intros o. by apply obj_refs_mono.
    + simpl. rewrite Hv. simpl.
      rewrite forallb_forall in Hvs. apply forallb_forall.
      intros y Hy. eapply val_ge_mono; eauto.
    + intros fuel h' Hfuel Hp. simpl in Hfuel, Hp. cbn [snd].
      rewrite fmap_cons. f_equal.
      * apply Hr; [lia|]. by eapply prefix_app_l_inv.
      * apply Hrs; [lia | done].
Qed.

(** The properties of an object. *)
Lemma alloc_fields_spec (m : gmap string value) :
  map_Forall (λ _ v, ∀ h, allocates value_size reify val_ge v h (alloc v h)) m →
  ∀ h,
    allocates (λ m, map_fold (λ _ x acc, value_size x + acc)%nat 0%nat m)
      (λ fuel h' fs,
         list_to_map (prod_map (λ k : string, k) (reify fuel h') <$> fs))
      (λ n fs, forallb (val_ge n) (snd <$> fs))
      m h (alloc_fields alloc m h).
Proof.
  induction m as [|i x m Hi Hfirst IH] using map_first_key_ind; intros Hm h.
  - split_and!; [exists []; by rewrite app_nil_r | done | done].
  - unfold alloc_fields. rewrite map_fold_insert_first_key by done.
    fold (alloc_fields alloc m h).
    destruct (alloc_fields alloc m h) as [h1 fs] eqn:Hl. cbn [fst snd].
    destruct (alloc x h1) as [h2 v] eqn:Ha.
    assert (∀ h, allocates value_size reify val_ge x h (alloc x h)) as Hx
      by (apply (Hm i); apply lookup_insert_eq).
    specialize (Hx h1). rewrite Ha in Hx.
    assert (map_Forall (λ _ v, ∀ h, allocates value_size reify val_ge v h
                                      (alloc v h)) m) as Hm'.
    { intros k y Hk. apply (Hm k). rewrite lookup_insert_ne; [done|].
      intros ->. congruence. }
    specialize (IH Hm' h). rewrite Hl in IH.
    destruct IH as ((e1 & He1 & Hf1) & Hvs & Hrs).
    destruct Hx as ((e2 & He2 & Hf2) & Hv & Hr).
    simpl in *. subst h1 h2.
    assert (length h ≤ length (h ++ e1))%nat as Hle
      by (rewrite length_app; lia).
    split_and!.
    + exists (e1 ++ e2). split; [by rewrite app_assoc|].
      apply Forall_app. split; [done|].
      eapply Forall_impl; [exact Hf2|]. intros o. by apply obj_refs_mono.
    + cbn [snd fmap list_fmap forallb]. apply andb_true_iff. split; [|done].
      by eapply val_ge_mono.
    + intros fuel h' Hfuel Hp. cbn [snd fst] in *.
      rewrite map_fold_insert_first_key in Hfuel by done.
      rewrite fmap_cons. cbn [prod_map fst snd].
      rewrite list_to_map_cons. f_equal.
      * apply Hr; [lia | done].
      * apply Hrs; [lia|]. by eapply prefix_app_l_inv.
Qed.

(** Allocating a tree of values. *)
Lemma alloc_spec v h : allocates value_size reify val_ge v h (alloc v h).
Proof.
  revert h.
  induction v as [| b | n | s | l IH | m IH] using value_ind'; intros h;
    try (split_and!; [exists []; by rewrite app_nil_r | done |];
         intros [|fuel] h' Hfuel Hp; simpl in *; done).
  - pose proof (alloc_list_spec l IH h) as ((e & He & Hf) & Hvs & Hrs).
    simpl. destruct (alloc_list alloc l h) as [h1 es]. simpl in *. subst h1.
    split_and!.
    + exists (e ++ [HArray es]). split; [by rewrite app_assoc|].
      apply Forall_app. split; [done|]. by repeat constructor.
    + apply Nat.leb_le. rewrite length_app. lia.
    + intros [|fuel] h' Hfuel Hp; simpl in Hfuel; [lia|].
      cbn [reify fst snd] in *.
      rewrite (prefix_lookup_end _ _ _ Hp). f_equal.
      apply Hrs; [lia|]. by eapply prefix_app_l_inv.
  - pose proof (alloc_fields_spec m IH h) as ((e & He & Hf) & Hvs & Hrs).
    simpl. destruct (alloc_fields alloc m h) as [h1 fs]. simpl in *. subst h1.
    split_and!.
    + exists (e ++ [HObject fs]). split; [by rewrite app_assoc|].
      apply Forall_app. split; [done|]. by repeat constructor.
    + apply Nat.leb_le. rewrite length_app. lia.
    + intros [|fuel] h' Hfuel Hp; simpl in Hfuel; [lia|].
      cbn [reify fst snd] in *.
      rewrite (prefix_lookup_end _ _ _ Hp). f_equal.
      apply Hrs; [lia|]. by eapply prefix_app_l_inv.
Qed.

(** Reading from an address below [n] only visits objects below [n],
    when these refer to each other only. *)
Lemma reify_frame n (h h' : heap) fuel v :
  closed_below n h = true →
  take n h' = take n h →
  val_lt n v = true →
  reify fuel h' v = reify fuel h v.
Proof.
  intros Hclosed Htake. revert v.
  induction fuel as [|f IH]; intros v Hv; destruct v as [| | | |l]; try done.
  simpl in Hv. apply Nat.ltb_lt in Hv. cbn [reify].
  assert (h' !! l = h !! l) as ->.
  { rewrite <- (lookup_take_lt h' n l), <- (lookup_take_lt h n l) by done.
    by rewrite Htake. }
  destruct (h !! l) as [o|] eqn:Hl; [|done].
  assert (obj_refs (val_lt n) o = true) as Ho.
  { unfold closed_below in Hclosed. rewrite forallb_forall in Hclosed.
    apply Hclosed, list_elem_of_In, list_elem_of_lookup. exists l.
    by rewrite lookup_take_lt. }
  unfold obj_refs in Ho. rewrite forallb_forall in Ho.
  destruct o as [fs|es]; simpl in Ho; f_equal.
  - apply (f_equal list_to_map).
    apply list_fmap_ext. intros i [k x] Hi. simpl. f_equal.
    apply IH, Ho, list_elem_of_In, list_elem_of_fmap.
    exists (k, x). split; [done|]. by eapply list_elem_of_lookup_2.
  - apply list_fmap_ext. intros i x Hi.
    apply IH, Ho, list_elem_of_In. by eapply list_elem_of_lookup_2.
Qed.

Lemma find_list_to_map (fs : list (string * hval)) (g : hval → value) k v :
  snd <$> List.find (λ kv, String.eqb kv.1 k) fs = Some v →
  (list_to_map (prod_map (λ k : string, k) g <$> fs) : gmap string value)
    !! k = Some (g v).
Proof.
  induction fs as [|[k' x] fs IH]; [done|]. simpl.
  destruct (String.eqb k' k) eqn:E; simpl.
  - apply String.eqb_eq in E as ->. intros [= ->].
    by rewrite lookup_insert_eq.
  - apply String.eqb_neq in E. intros H.
    rewrite lookup_insert_ne by done. by apply IH.
Qed.

(** A template read from the heap a tree was allocated in. *)
Lemma get_alloc_obj (m : gmap string value) h0 root k tpl fuel :
  alloc (VObj m) [] = (h0, root) →
  get h0 root k = Some tpl →
  (value_size (VObj m) ≤ S fuel)%nat →
  m !! k = Some (reify fuel h0 tpl).
Proof.
  intros Halloc Hget Hfuel.
  destruct (alloc_spec (VObj m) []) as (_ & _ & Hread).
  rewrite Halloc in Hread.
  specialize (Hread (S fuel) h0 Hfuel (reflexivity _)).
  unfold get in Hget. cbn [fst snd] in *.
  destruct root as [| | | |l]; try discriminate.
  cbn [reify] in Hread.
  destruct (h0 !! l) as [[fs|es]|]; try discriminate.
  injection Hread as <-. by apply find_list_to_map.
Qed.

Lemma templates_kept_length h0 h :
  templates_kept h0 h → (length h0 ≤ length h)%nat.
Proof.
  intros [Htake _]. apply (f_equal length) in Htake.
  rewrite length_take in Htake. lia.
Qed.

Lemma templates_kept_alloc h0 h v :
  templates_kept h0 h → templates_kept h0 (alloc v h).1.
Proof.
  intros Hk. pose proof (templates_kept_length _ _ Hk) as Hle.
  destruct Hk as [Htake Hdrop].
  destruct (alloc_spec v h) as ((ext & -> & Hext) & _ & _). split.
  - by rewrite take_app_le.
  - rewrite drop_app_le by done. apply Forall_app. split; [done|].
    eapply Forall_impl; [exact Hext|]. intros o. by apply obj_refs_mono.
Qed.

(** Creating components and writing objects that are no templates
    keeps the templates. *)
Lemma step_keeps_templates fuel DEFAULT_PROPS h0 h h' :
  templates_kept h0 h →
  step fuel (length h0) DEFAULT_PROPS h h' →
  templates_kept h0 h'.
Proof.
  intros Hk Hstep. destruct Hstep as [h active | h l o Hl Ho].
  - unfold new_props_Drag. destruct (get _ _ _); [|done].
    by apply templates_kept_alloc.
  - destruct Hk as [Htake Hdrop]. split.
    + by rewrite take_insert_ge.
    + rewrite drop_insert_ge by done. by apply Forall_insert.
Qed.

Lemma steps_keep_templates fuel DEFAULT_PROPS h0 h1 h :
  templates_kept h0 h1 →
  rtc (step fuel (length h0) DEFAULT_PROPS) h1 h → templates_kept h0 h.
Proof.
  intros H1 Hsteps. induction Hsteps as [|h1 h2 h3 Hstep _ IH]; [done|].
  apply IH. by eapply step_keeps_templates.
Qed.

Lemma templates_kept_refl h0 : templates_kept h0 h0.
Proof. split; [by rewrite firstn_all | by rewrite drop_all]. Qed.

Lemma get_frame n (h h' : heap) v k :
  take n h' = take n h → val_lt n v = true → get h' v k = get h v k.
Proof.
  intros Htake Hv. destruct v as [| | | |l]; try done.
  simpl in Hv. apply Nat.ltb_lt in Hv. unfold get.
  rewrite <- (lookup_take_lt h' n l), <- (lookup_take_lt h n l) by done.
  by rewrite Htake.
Qed.

Lemma get_closed n (h : heap) v k x :
  closed_below n h = true → val_lt n v = true →
  get h v k = Some x → val_lt n x = true.
Proof.
  intros Hclosed Hv Hget. destruct v as [| | | |l]; try done.
  simpl in Hv. apply Nat.ltb_lt in Hv. unfold get in Hget.
  destruct (h !! l) as [[fs|es]|] eqn:Hl; try discriminate.
  unfold closed_below in Hclosed. rewrite forallb_forall in Hclosed.
  assert (obj_refs (val_lt n) (HObject fs) = true) as Ho.
  { apply Hclosed, list_elem_of_In, list_elem_of_lookup. exists l.
    by rewrite lookup_take_lt. }
  unfold obj_refs in Ho. rewrite forallb_forall in Ho. apply Ho. simpl.
  destruct (List.find _ fs) as [[k' y]|] eqn:Hfind; [|discriminate].
  injection Hget as <-. apply find_some in Hfind as [Hin _].
  apply list_elem_of_In, list_elem_of_fmap. exists (k', y).
  split; [done|]. by apply list_elem_of_In.
Qed.
End heap.

Section templates.
Import Heap.

(** X22.  In [Drag.jsx] the templates are never shared.  After any number of
    palette insertions and of writes into objects that are no
    templates, every template is the object it was and reads as it
    did; the props of a new component are a fresh object, which is no
    template and refers to none, and read as the defaults of its
    type.  ([fuel] is the depth to which [JSON.stringify] is followed;
    any depth that covers the templates will do.) *)
Theorem cloned_defaults_are_independent fuel h active template :
  (value_size (VObj Drag.DEFAULT_PROPS) ≤ fuel)%nat →
  rtc (step fuel (length Drag_heap.1) Drag_heap.2) Drag_heap.1 h →
  get Drag_heap.1 Drag_heap.2 active = Some template →
  let r := new_props_Drag fuel h Drag_heap.2 active in
  templates_kept Drag_heap.1 h
  ∧ get h Drag_heap.2 active = Some template
  ∧ (∀ d, reify d h template = reify d Drag_heap.1 template)
  ∧ val_ge (length Drag_heap.1) r.2 = true
  ∧ templates_kept Drag_heap.1 r.1
  ∧ ∀ d, (fuel ≤ d)%nat →
         Drag.DEFAULT_PROPS !! active = Some (reify d r.1 r.2).
Proof.
  intros Hfuel Hsteps Htpl r.
  pose proof (steps_keep_templates _ _ _ _ _ (templates_kept_refl _) Hsteps)
    as Hk.
  assert (closed_below (length Drag_heap.1) Drag_heap.1 = true) as Hclosed
    by (vm_compute; reflexivity).
  assert (val_lt (length Drag_heap.1) Drag_heap.2 = true) as Hroot
    by (vm_compute; reflexivity).
  assert (take (length Drag_heap.1) h
          = take (length Drag_heap.1) Drag_heap.1) as Htake.
  { destruct Hk as [-> _]. by rewrite firstn_all. }
  assert (get h Drag_heap.2 active = Some template) as Hget
    by (by rewrite (get_frame _ _ _ _ _ Htake Hroot)).
  pose proof (get_closed _ _ _ _ _ Hclosed Hroot Htpl) as Hlt.
  assert (∀ d, reify d h template = reify d Drag_heap.1 template) as Hread
    by (intros d; by apply (reify_frame (length Drag_heap.1))).
  assert (Drag.DEFAULT_PROPS !! active
          = Some (reify fuel Drag_heap.1 template)) as Hdef.
  { eapply get_alloc_obj; [apply surjective_pairing | done | lia]. }
  set (V := reify fuel Drag_heap.1 template) in *.
  assert (json_clone V = V) as Hclone.
  { apply json_clone_finite.
    eapply (finite_obj_lookup Drag.DEFAULT_PROPS); [|exact Hdef].
    vm_compute. reflexivity. }
  assert (r = alloc V h) as ->.
  { subst r. unfold new_props_Drag, JSON_clone. rewrite Hget, Hread.
    fold V. fold (json_clone V). by rewrite Hclone. }
  split_and!.
  - exact Hk.
  - exact Hget.
  - exact Hread.
  - destruct (alloc_spec V h) as (_ & Hge & _).
    eapply val_ge_mono; [|exact Hge]. by apply templates_kept_length.
  - by apply templates_kept_alloc.
  - intros d Hd. destruct (alloc_spec V h) as (_ & _ & Hr).
    rewrite Hr; [exact Hdef | | reflexivity].
    pose proof (value_size_lookup _ _ _ Hdef). lia.
Qed.

(** A text block is dragged from the palette and the top margin in the
    styles object of its props is set to 99: the template of text
    blocks reads as before, and the next text block gets the defaults. *)
Lemma cloned_defaults_are_independent_example :
  let h := heap_after_write_Drag in
  Some (reify 101 h (default HNull (get h Drag_heap.2 "Text")))
  = Drag.DEFAULT_PROPS !! "Text"
  ∧ style_at (as_object (reify 101 h cloned_text.2)) "marginTop"
    = Some (num 99)
  ∧ Some (reify 101 (new_props_Drag 101 h Drag_heap.2 "Text").1
                    (new_props_Drag 101 h Drag_heap.2 "Text").2)
    = Drag.DEFAULT_PROPS !! "Text".
Proof. vm_compute. repeat split. Qed.

(** C9, where the code departs from it.  In [DragAdvanced.jsx] the
    props of a new component are the template object itself: after a
    button has been dragged from the palette, setting the top margin in
    the styles object of its props to 99 sets it in the template, and
    the next button dragged from the palette has a top margin of 99,
    where the defaults have 0. *)
Theorem shared_template_is_altered :
  let h0 := DragAdvanced_heap.1 in
  let DEFAULT_PROPS := DragAdvanced_heap.2 in
  let h := heap_after_write in
  let next := (new_props_DragAdvanced h DEFAULT_PROPS "Button").2 in
  get h0 DEFAULT_PROPS "Button" = Some shared_button
  ∧ Some (reify 3 h0 shared_button) = DragAdvanced.DEFAULT_PROPS !! "Button"
  ∧ style_at (as_object (reify 3 h0 shared_button)) "marginTop"
    = Some (num 0)
  ∧ style_at (as_object
                (reify 3 h (default HNull (get h DEFAULT_PROPS "Button"))))
             "marginTop" = Some (num 99)
  ∧ style_at (as_object (reify 3 h next)) "marginTop" = Some (num 99)
  ∧ Some (reify 3 h next) ≠ DragAdvanced.DEFAULT_PROPS !! "Button".
Proof.
  cbv zeta. split_and!; try (vm_compute; reflexivity).
  intros H.
  apply (f_equal (λ o, style_at (as_object (default VNull o)) "marginTop"))
    in H.
  vm_compute in H. discriminate.
Qed.
End templates.

(* ===================================================================== *)
(** ** The table after a resize, in closed form                          *)
(* ===================================================================== *)

Lemma to_nat_of_nat k : to_nat (Num (Z.of_nat k)) = k.
Proof. simpl. lia. Qed.

Lemma resized_length {A} n (x : A) l : length (resized n x l) = n.
Proof. unfold resized. rewrite length_app, length_take, length_replicate. lia. Qed.

Lemma resized_same {A} (x : A) l : resized (length l) x l = l.
Proof.
  unfold resized. rewrite firstn_all, Nat.sub_diag. simpl. apply app_nil_r.
Qed.

Lemma resized_fmap {A B} (f : A → B) n x l :
  f <$> resized n x l = resized n (f x) (f <$> l).
Proof.
  unfold resized. by rewrite fmap_app, fmap_take, fmap_replicate, length_fmap.
Qed.

(** Growing and then shrinking back gives the array back. *)
Lemma resized_back {A} n (x y : A) l :
  (length l ≤ n)%nat → resized (length l) y (resized n x l) = l.
Proof.
  intros Hle. unfold resized at 1. rewrite resized_length.
  replace (length l - n)%nat with 0%nat by lia. simpl. rewrite app_nil_r.
  unfold resized. rewrite (take_ge l n) by done. by rewrite take_app_length.
Qed.

Lemma resized_closed (n : number) (l l' : list value) (x : value) :
  (if gt0 (sub n (len l))
   then fill ← Array_fill (sub n (len l)) x; Ok (l ++ fill)
   else set_length l n) = Ok l' →
  ∃ k, n = Num (Z.of_nat k) ∧ l' = resized k x l.
Proof.
  destruct (gt0 (sub n (len l))) eqn:Hgt.
  - intros H. apply bind_Ok in H as (fill & Hfill & [= <-]).
    apply Array_fill_Ok in Hfill as [_ ->].
    apply gt0_sub_to_nat in Hgt as (z & -> & Hn & Hlt).
    exists (Z.to_nat z). split; [f_equal; lia|].
    unfold resized. rewrite Hn. by rewrite take_ge by lia.
  - intros H. apply set_length_Ok in H as [Hv ->].
    pose proof (gt0_sub_len _ _ Hv Hgt) as Hle.
    exists (to_nat n). split; [by apply valid_length_to_nat|].
    unfold resized. replace (to_nat n - length l)%nat with 0%nat by lia.
    simpl. by rewrite app_nil_r.
Qed.

Lemma resized_rows_closed (newCellRows newCols : number) (cs cs1 : list value) :
  (if gt0 (sub newCellRows (len cs))
   then Drag.push_rows (to_nat (sub newCellRows (len cs))) newCols cs
   else set_length cs newCellRows) = Ok cs1 →
  ∃ k, newCellRows = Num (Z.of_nat k)
       ∧ cs1 = resized k (VArr (replicate (to_nat newCols) (VStr "New Cell"))) cs.
Proof.
  destruct (gt0 (sub newCellRows (len cs))) eqn:Hgt.
  - intros H. apply push_rows_Ok in H as ->.
    apply gt0_sub_to_nat in Hgt as (z & -> & Hn & Hlt).
    exists (Z.to_nat z). split; [f_equal; lia|].
    unfold resized. rewrite Hn. by rewrite take_ge by lia.
  - intros H. apply set_length_Ok in H as [Hv ->].
    pose proof (gt0_sub_len _ _ Hv Hgt) as Hle.
    exists (to_nat newCellRows). split; [by apply valid_length_to_nat|].
    unfold resized.
    replace (to_nat newCellRows - length cs)%nat with 0%nat by lia.
    simpl. by rewrite app_nil_r.
Qed.

Lemma resize_row_closed (nc : nat) row row' :
  Drag.resize_row (Num (Z.of_nat nc)) row = Ok row' →
  is_array row = true
  ∧ row' = VArr (resized nc (VStr "New Cell") (as_array row)).
Proof.
  unfold Drag.resize_row. intros H.
  apply bind_Ok in H as (l & Hl & H).
  apply get_array_Ok in Hl. destruct row; try discriminate.
  injection Hl as ->. split; [done|]. simpl.
  assert (∃ l', row' = VArr l' ∧
    (if gt0 (sub (Num (Z.of_nat nc)) (len l))
     then fill ← Array_fill (sub (Num (Z.of_nat nc)) (len l)) (VStr "New Cell");
          Ok (l ++ fill)
     else set_length l (Num (Z.of_nat nc))) = Ok l') as (l' & -> & Hl').
  { destruct (gt0 (sub (Num (Z.of_nat nc)) (len l))).
    - apply bind_Ok in H as (fill & Hfill & [= <-]).
      eexists; split; [done|]. by rewrite Hfill.
    - apply bind_Ok in H as (r' & Hr' & [= <-]). eauto. }
  apply resized_closed in Hl' as (k & [= Hk] & ->).
  by replace k with nc by lia.
Qed.

Lemma mapM_resize_row_closed (nc : nat) l l' :
  mapM (Drag.resize_row (Num (Z.of_nat nc))) l = Ok l' →
  forallb is_array l = true
  ∧ l' = (λ row, VArr (resized nc (VStr "New Cell") (as_array row))) <$> l.
Proof.
  intros H. apply mapM_Ok in H.
  induction H as [|x y l l' Hxy _ [IH1 IH2]]; [done|].
  apply resize_row_closed in Hxy as [Hx ->].
  split; [simpl; by rewrite Hx|]. rewrite fmap_cons. by f_equal.
Qed.

Lemma data_array_clone p k l :
  data_array p k = Some l →
  ∃ d, p !! "data" = Some d
       ∧ arr_of (as_object (json_clone d) !! k) = Some (json_clone <$> l).
Proof.
  unfold data_array. destruct (p !! "data") as [d|]; [|discriminate].
  simpl. intros H. exists d. split; [done|].
  by rewrite as_object_clone, arr_of_clone, H.
Qed.

(** The props a structural edit hands to [onUpdate]: the props with the
    edited value stored, and with the data made of the copies of the
    headers and the rows, brought to the numbers of columns and of rows
    of cells the handler aims at. *)
Lemma handleTableStructureChange_closed p e p' :
  structural e →
  Drag.handleTableStructureChange p e = Ok p' →
  ∃ hs0 cs0 nc nr newRows,
    data_array p "headers" = Some hs0
    ∧ data_array p "cells" = Some cs0
    ∧ target "rows" p e = Ok newRows
    ∧ target "cols" p e = Ok (Num (Z.of_nat nc))
    ∧ target_cell_rows p newRows = Num (Z.of_nat nr)
    ∧ p' = <["data" := resized_data nc nr (json_clone <$> hs0)
                         (json_clone <$> cs0)]>
             (<[Target.name e := new_value e]> p).
Proof.
  intros Hs H. unfold Drag.handleTableStructureChange in H.
  apply bind_Ok in H as (d' & Hd & H).
  destruct (p !! "data") as [d|] eqn:Hdata; [|discriminate].
  injection Hd as <-.
  assert (String.eqb (Target.name e) "rows" || String.eqb (Target.name e) "cols"
          || String.eqb (Target.name e) "hasHeader" = true) as Hname.
  { destruct Hs as [-> | [-> | ->]]; reflexivity. }
  cbv zeta in H. rewrite Hname in H. clear Hname.
  apply bind_Ok in H as (newRows & HnewRows & H).
  apply bind_Ok in H as (newCols & HnewCols & H).
  apply bind_Ok in H as (hs & Hhs & H).
  apply bind_Ok in H as (hs' & Hhs' & H).
  apply bind_Ok in H as (cs & Hcs & H).
  apply bind_Ok in H as (cs1 & Hcs1 & H).
  apply bind_Ok in H as (cs' & Hcs' & [= <-]).
  apply get_array_Ok in Hhs, Hcs.
  rewrite as_object_clone, arr_of_clone in Hhs, Hcs.
  destruct (arr_of (as_object d !! "headers")) as [hs0|] eqn:Hhs0;
    [|discriminate].
  destruct (arr_of (as_object d !! "cells")) as [cs0|] eqn:Hcs0;
    [|discriminate].
  injection Hhs as <-. injection Hcs as <-.
  apply resized_closed in Hhs' as (nc & -> & ->).
  apply resized_rows_closed in Hcs1 as (nr & Hnr & ->).
  apply mapM_resize_row_closed in Hcs' as [_ ->].
  rewrite to_nat_of_nat.
  exists hs0, cs0, nc, nr, newRows.
  split_and!; try done.
  - unfold data_array. by rewrite Hdata.
  - unfold data_array. by rewrite Hdata.
Qed.

(* ===================================================================== *)
(** ** Resizes in sequence                                               *)
(* ===================================================================== *)

(** A copy through JSON is its own copy. *)
Lemma json_clone_idemp v : json_clone (json_clone v) = json_clone v.
Proof.
  induction v as [| b | [|z] | s | l IH | m IH] using value_ind'; try done.
  - rewrite !json_clone_arr. f_equal. rewrite <- list_fmap_compose.
    apply list_fmap_ext. intros i x Hi. simpl.
    eapply (proj1 (Forall_lookup _ _) IH); eauto.
  - rewrite !json_clone_obj. f_equal. apply map_eq. intros k.
    rewrite !lookup_fmap. destruct (m !! k) as [x|] eqn:Hk; [|done].
    simpl. f_equal. by apply (IH k).
Qed.

Lemma json_clone_fmap_idemp (l : list value) :
  json_clone <$> (json_clone <$> l) = json_clone <$> l.
Proof.
  rewrite <- list_fmap_compose. apply list_fmap_ext. intros i x _.
  apply json_clone_idemp.
Qed.

Lemma json_clone_as_array v :
  as_array (json_clone v) = json_clone <$> as_array v.
Proof.
  destruct v as [| | [|] | | l |]; try done. by rewrite json_clone_arr.
Qed.

(** The rows of a table after a resize are their own copies. *)
Lemma resized_rows_clone nc (rows : list value) :
  json_clone <$>
    ((λ row, VArr (resized nc (VStr "New Cell") (as_array row)))
       <$> (json_clone <$> rows))
  = (λ row, VArr (resized nc (VStr "New Cell") (as_array row)))
      <$> (json_clone <$> rows).
Proof.
  rewrite <- !list_fmap_compose. apply list_fmap_ext. intros i x _. simpl.
  rewrite json_clone_arr, resized_fmap. do 2 f_equal.
  by rewrite json_clone_as_array, json_clone_fmap_idemp.
Qed.

Lemma resized_idemp {A} n (x : A) l : resized n x (resized n x l) = resized n x l.
Proof.
  rewrite <- (resized_length n x l) at 1. apply resized_same.
Qed.

Lemma resized_headers_idemp nc (hs : list value) :
  resized nc (VStr "New Header")
    (json_clone <$> resized nc (VStr "New Header") (json_clone <$> hs))
  = resized nc (VStr "New Header") (json_clone <$> hs).
Proof.
  rewrite resized_fmap, json_clone_fmap_idemp.
  change (json_clone (VStr "New Header")) with (VStr "New Header").
  apply resized_idemp.
Qed.

Lemma resized_cells_idemp nc nr (cs : list value) :
  let f := λ row, VArr (resized nc (VStr "New Cell") (as_array row)) in
  let ph := VArr (replicate nc (VStr "New Cell")) in
  f <$> resized nr ph (json_clone <$> (f <$> resized nr ph (json_clone <$> cs)))
  = f <$> resized nr ph (json_clone <$> cs).
Proof.
  intros f ph.
  assert (json_clone ph = ph) as Hph.
  { subst ph. by rewrite json_clone_arr, fmap_replicate. }
  assert (resized nr ph (json_clone <$> cs)
          = json_clone <$> resized nr ph cs) as ->.
  { by rewrite resized_fmap, Hph. }
  subst f. rewrite resized_rows_clone.
  rewrite <- (resized_length nr ph cs) at 1.
  rewrite <- (length_fmap json_clone (resized nr ph cs)) at 1.
  rewrite <- (length_fmap (λ row, VArr (resized nc (VStr "New Cell")
                                         (as_array row)))
                (json_clone <$> resized nr ph cs)) at 1.
  rewrite resized_same. rewrite <- list_fmap_compose.
  apply list_fmap_ext. intros i x _. simpl. f_equal. apply resized_idemp.
Qed.

(** The closed form of the data is a fixed point of a resize to the
    same numbers of columns and of rows of cells. *)
Lemma resized_data_idemp nc nr (hs cs : list value) :
  resized_data nc nr
    (json_clone <$> resized nc (VStr "New Header") (json_clone <$> hs))
    (json_clone <$>
       ((λ row, VArr (resized nc (VStr "New Cell") (as_array row)))
          <$> resized nr (VArr (replicate nc (VStr "New Cell")))
                (json_clone <$> cs)))
  = resized_data nc nr (json_clone <$> hs) (json_clone <$> cs).
Proof.
  unfold resized_data.
  by rewrite resized_headers_idemp, resized_cells_idemp.
Qed.

(** What an edit asks for does not depend on the data, nor on the field
    the edit itself sets. *)
Lemma target_after k p e x d :
  k ≠ "data" →
  target k (<["data" := d]> (<[Target.name e := x]> p)) e
  = target k p e.
Proof.
  intros Hk. unfold target.
  destruct (String.eqb (Target.name e) k) eqn:E; [done|].
  apply String.eqb_neq in E.
  by rewrite lookup_insert_ne, lookup_insert_ne.
Qed.

Lemma data_array_closed nc nr hs cs (q : gmap string value) :
  data_array (<["data" := resized_data nc nr hs cs]> q) "headers"
  = Some (resized nc (VStr "New Header") hs)
  ∧ data_array (<["data" := resized_data nc nr hs cs]> q) "cells"
    = Some ((λ row, VArr (resized nc (VStr "New Cell") (as_array row)))
              <$> resized nr (VArr (replicate nc (VStr "New Cell"))) cs).
Proof.
  unfold resized_data. by rewrite !data_array_resized.
Qed.

Lemma forallb_is_array_resized nc (l : list value) :
  forallb is_array
    ((λ row, VArr (resized nc (VStr "New Cell") (as_array row))) <$> l) = true.
Proof. induction l; simpl; auto. Qed.

Lemma valid_length_nat (k : nat) :
  valid_length (Num (Z.of_nat k)) = true ↔ Z.of_nat k < 2 ^ 32.
Proof. simpl. rewrite andb_true_iff, Z.leb_le, Z.ltb_lt. lia. Qed.

(** X1.  A rows or cols edit applied a second time, to the props the
    first one handed to [onUpdate], hands over the same props again:
    [handleTableStructureChange] is idempotent.  The arrays after the
    first edit have lengths an array can have. *)
Theorem resize_is_idempotent p e p' hs' cs' :
  Target.name e = "rows" ∨ Target.name e = "cols" →
  Drag.handleTableStructureChange p e = Ok p' →
  data_array p' "headers" = Some hs' →
  data_array p' "cells" = Some cs' →
  valid_length (len hs') = true →
  valid_length (len cs') = true →
  Drag.handleTableStructureChange p' e = Ok p'.
Proof.
  intros Hname H Hhs' Hcs' Hvh Hvc.
  assert (structural e) as Hs.
  { destruct Hname; [by left | by right; left]. }
  assert (Target.name e ≠ "hasHeader" ∧ Target.name e ≠ "data") as [Hnh Hnd].
  { destruct Hname as [-> | ->]; done. }
  apply handleTableStructureChange_closed in H
    as (hs0 & cs0 & nc & nr & newRows & _ & _ & Hrows & Hcols & Hnr & Hp');
    [|done].
  set (D := resized_data nc nr (json_clone <$> hs0) (json_clone <$> cs0)) in *.
  destruct (data_array_closed nc nr (json_clone <$> hs0) (json_clone <$> cs0)
              (<[Target.name e := new_value e]> p)) as [Hh Hc].
  fold D in Hh, Hc. rewrite <- Hp' in Hh, Hc.
  rewrite Hh in Hhs'. rewrite Hc in Hcs'.
  injection Hhs' as <-. injection Hcs' as <-.
  assert (target "rows" p' e = Ok newRows) as Hrows'.
  { rewrite Hp'. by rewrite target_after. }
  assert (target "cols" p' e = Ok (Num (Z.of_nat nc))) as Hcols'.
  { rewrite Hp'. by rewrite target_after. }
  assert (target_cell_rows p' newRows = Num (Z.of_nat nr)) as Hnr'.
  { rewrite <- Hnr. unfold target_cell_rows. rewrite Hp'.
    by rewrite lookup_insert_ne, lookup_insert_ne. }
  unfold len in Hvh, Hvc.
  rewrite resized_length in Hvh. rewrite length_fmap, resized_length in Hvc.
  destruct (handleTableStructureChange_returns p' e _ _ newRows
              (Num (Z.of_nat nc)) Hs Hh Hc) as [p'' H2]; try done.
  { apply forallb_is_array_resized. }
  { by rewrite Hnr'. }
  rewrite H2. f_equal.
  apply handleTableStructureChange_closed in H2
    as (hs1 & cs1 & nc' & nr' & newRows' & Hh1 & Hc1 & Hrows1 & Hcols1 & Hnr1
        & ->); [|done].
  rewrite Hh in Hh1. rewrite Hc in Hc1. injection Hh1 as <-. injection Hc1 as <-.
  rewrite Hrows' in Hrows1. injection Hrows1 as <-.
  rewrite Hcols' in Hcols1. injection Hcols1 as Hnc%Nat2Z.inj. subst nc'.
  rewrite Hnr' in Hnr1. injection Hnr1 as Hnr1%Nat2Z.inj. subst nr'.
  rewrite resized_data_idemp. fold D.
  rewrite Hp' at 1. rewrite Hp'.
  rewrite (insert_id (<["data" := D]> _) (Target.name e)).
  - by rewrite insert_insert_eq.
  - rewrite lookup_insert_ne by done. by rewrite lookup_insert_eq.
Qed.

Lemma data_array_Some_default p k l :
  data_array p k = Some l → l = default [] (data_array p k).
Proof. by intros ->. Qed.

Lemma shape_ok_inv p :
  shape_ok p = true →
  ∃ rows hs cs,
    p !! "rows" = Some (VNum (Num rows))
    ∧ p !! "cols" = Some (VNum (len hs))
    ∧ data_array p "headers" = Some hs
    ∧ data_array p "cells" = Some cs
    ∧ Z.of_nat (length cs)
      = rows - (if truthy (p !! "hasHeader") then 1 else 0)
    ∧ forallb (row_has_length (Z.of_nat (length hs))) cs = true.
Proof.
  unfold shape_ok.
  destruct (p !! "rows") as [[| |[|rows]| | |]|]; try discriminate.
  destruct (p !! "cols") as [[| |[|cols]| | |]|]; try discriminate.
  destruct (data_array p "headers") as [hs|]; [|discriminate].
  destruct (data_array p "cells") as [cs|]; [|discriminate].
  rewrite !andb_true_iff, !Z.eqb_eq. intros [[Hh Hc] Hall].
  exists rows, hs, cs. unfold len. rewrite Hh. by split_and!.
Qed.

Lemma resized_row_same n (rows : list value) :
  forallb (row_has_length (Z.of_nat n)) rows = true →
  (λ row, VArr (resized n (VStr "New Cell") (as_array row))) <$> rows = rows.
Proof.
  intros Hall. rewrite <- (list_fmap_id rows) at 2.
  apply list_fmap_ext. intros i x Hi. simpl.
  rewrite forallb_forall in Hall.
  specialize (Hall x). rewrite <- list_elem_of_In in Hall.
  specialize (Hall (list_elem_of_lookup_2 _ _ _ Hi)).
  destruct x as [| | | | l |]; try discriminate. simpl in *.
  apply Z.eqb_eq, Nat2Z.inj in Hall. subst n. by rewrite resized_same.
Qed.

Lemma row_has_length_clone n (rows : list value) :
  forallb (row_has_length n) rows = true →
  forallb (row_has_length n) (json_clone <$> rows) = true.
Proof.
  induction rows as [|x rows IH]; [done|]. simpl.
  rewrite !andb_true_iff. intros [Hx Hr]. split; [|auto].
  destruct x as [| | [|] | | l |]; try discriminate.
  rewrite json_clone_arr. simpl. by rewrite length_fmap.
Qed.

Lemma resized_data_same (hs cs : list value) :
  forallb (row_has_length (Z.of_nat (length hs))) cs = true →
  resized_data (length hs) (length cs) hs cs = table_data hs cs.
Proof.
  intros Hall. unfold resized_data, table_data.
  by rewrite !resized_same, resized_row_same.
Qed.

Lemma resized_fmap_back {A B} (f : A → B) n (x : A) (y : B) l :
  (length l ≤ n)%nat →
  resized (length l) y (f <$> resized n x l) = f <$> l.
Proof.
  intros Hle. rewrite resized_fmap.
  rewrite <- (length_fmap f l). apply resized_back. by rewrite length_fmap.
Qed.

Lemma resized_headers_back nc1 (hs : list value) :
  (length hs ≤ nc1)%nat →
  resized (length hs) (VStr "New Header")
    (json_clone <$> resized nc1 (VStr "New Header") (json_clone <$> hs))
  = json_clone <$> hs.
Proof.
  intros Hnc. rewrite resized_fmap, json_clone_fmap_idemp.
  change (json_clone (VStr "New Header")) with (VStr "New Header").
  rewrite <- (length_fmap json_clone hs) at 1.
  apply resized_back. by rewrite length_fmap.
Qed.

Lemma resized_cells_back nc nc1 nr1 (cs : list value) :
  (nc ≤ nc1)%nat → (length cs ≤ nr1)%nat →
  forallb (row_has_length (Z.of_nat nc)) cs = true →
  (λ row, VArr (resized nc (VStr "New Cell") (as_array row)))
    <$> resized (length cs) (VArr (replicate nc (VStr "New Cell")))
          (json_clone <$>
             ((λ row, VArr (resized nc1 (VStr "New Cell") (as_array row)))
                <$> resized nr1 (VArr (replicate nc1 (VStr "New Cell")))
                      (json_clone <$> cs)))
  = json_clone <$> cs.
Proof.
  intros Hnc Hnr Hall.
  set (ph := VArr (replicate nc1 (VStr "New Cell"))).
  assert (json_clone ph = ph) as Hph.
  { subst ph. by rewrite json_clone_arr, fmap_replicate. }
  assert (resized nr1 ph (json_clone <$> cs)
          = json_clone <$> resized nr1 ph cs) as ->.
  { by rewrite resized_fmap, Hph. }
  rewrite resized_rows_clone.
  rewrite (resized_fmap json_clone), Hph.
  rewrite <- (length_fmap json_clone cs) at 1.
  rewrite resized_fmap_back by (by rewrite length_fmap).
  rewrite <- list_fmap_compose.
  rewrite <- (list_fmap_id (json_clone <$> cs)) at 2.
  apply list_fmap_ext. intros i x Hi. simpl.
  apply row_has_length_clone in Hall.
  rewrite forallb_forall in Hall.
  specialize (Hall x). rewrite <- list_elem_of_In in Hall.
  specialize (Hall (list_elem_of_lookup_2 _ _ _ Hi)).
  destruct x as [| | | | l |]; try discriminate. simpl in *.
  apply Z.eqb_eq, Nat2Z.inj in Hall. f_equal.
  rewrite <- Hall. apply resized_back. lia.
Qed.

(** The data after a resize to at least the present numbers of columns
    and rows, resized to the present numbers again. *)
Lemma resized_data_back nc1 nr1 (hs cs : list value) :
  (length hs ≤ nc1)%nat → (length cs ≤ nr1)%nat →
  forallb (row_has_length (Z.of_nat (length hs))) cs = true →
  resized_data (length hs) (length cs)
    (json_clone <$> resized nc1 (VStr "New Header") (json_clone <$> hs))
    (json_clone <$>
       ((λ row, VArr (resized nc1 (VStr "New Cell") (as_array row)))
          <$> resized nr1 (VArr (replicate nc1 (VStr "New Cell")))
                (json_clone <$> cs)))
  = table_data (json_clone <$> hs) (json_clone <$> cs).
Proof.
  intros Hnc Hnr Hall. unfold resized_data, table_data.
  by rewrite resized_headers_back, resized_cells_back.
Qed.

Lemma new_value_number_input (k v : string) :
  new_value (number_input k v) = VNum (parseInt v).
Proof. reflexivity. Qed.

Lemma target_number_input (k v : string) p :
  target k p (number_input k v) = Ok (parseInt v).
Proof. unfold target. simpl. by rewrite String.eqb_refl. Qed.

Lemma target_other (k' : string) (e : Target.t) p :
  Target.name e ≠ k' → target k' p e = to_number (p !! k').
Proof. unfold target. by intros ->%String.eqb_neq. Qed.

(** X2.  An edit of the checkbox [hasHeader] of a table that satisfies
    the shape invariant changes nothing but the field [hasHeader]: the
    data handed to [onUpdate] are the copy through JSON of the headers
    and rows the table has, no row is added or taken away. *)
Theorem hasHeader_edit_keeps_data p e p' :
  Target.name e = "hasHeader" →
  shape_ok p = true →
  Drag.handleTableStructureChange p e = Ok p' →
  p' = <["data" := table_data (json_clone <$> headers_of p)
                     (json_clone <$> cells_of p)]>
         (<["hasHeader" := new_value e]> p).
Proof.
  intros Hname Hshape H.
  apply handleTableStructureChange_closed in H
    as (hs0 & cs0 & nc & nr & newRows & Hhs0 & Hcs0 & Hrows & Hcols & Hnr & ->);
    [|by right; right].
  apply shape_ok_inv in Hshape
    as (rows & hs & cs & Hprows & Hpcols & Hhs & Hcs & Hlen & Hall).
  rewrite Hhs in Hhs0. rewrite Hcs in Hcs0.
  injection Hhs0 as <-. injection Hcs0 as <-.
  unfold headers_of, cells_of. rewrite Hhs, Hcs, Hname. simpl.
  rewrite target_other, Hprows in Hrows by (by rewrite Hname).
  rewrite target_other, Hpcols in Hcols by (by rewrite Hname).
  injection Hrows as <-. injection Hcols as Hnc%Nat2Z.inj.
  assert (nr = length cs) as ->.
  { unfold target_cell_rows in Hnr.
    destruct (truthy (p !! "hasHeader")); simpl in Hnr;
      injection Hnr as Hnr; lia. }
  subst nc. f_equal.
  pose proof (resized_data_same (json_clone <$> hs) (json_clone <$> cs)) as Hd.
  rewrite !length_fmap in Hd. apply Hd. by apply row_has_length_clone.
Qed.

(** The table of the palette, its header switched off: the three rows
    of cells stay. *)
Lemma hasHeader_edit_keeps_data_witness :
  after_edit Table_props (checkbox_input "hasHeader" false)
  = <["data" := table_data (json_clone <$> headers_of Table_props)
                  (json_clone <$> cells_of Table_props)]>
      (<["hasHeader" := VBool false]> Table_props).
Proof.
  refine (hasHeader_edit_keeps_data Table_props
            (checkbox_input "hasHeader" false) _ _ _ _).
  - reflexivity.
  - vm_compute. reflexivity.
  - apply is_Ok_updated. vm_compute. reflexivity.
Defined.

(** X3.  A table that satisfies the shape invariant, its rows (or its
    columns) set to a greater number and then set back to the number it
    had: the props are the ones before the two edits, with the data
    copied through JSON.  The placeholders of the first edit are cut off
    by the second and every header and cell is back in its place. *)
Theorem grow_then_shrink_back p k v0 v1 z0 z1 p1 p2 :
  k = "rows" ∨ k = "cols" →
  shape_ok p = true →
  p !! k = Some (VNum (Num z0)) →
  parseInt v0 = Num z0 →
  parseInt v1 = Num z1 →
  z0 ≤ z1 →
  Drag.handleTableStructureChange p (number_input k v1) = Ok p1 →
  Drag.handleTableStructureChange p1 (number_input k v0) = Ok p2 →
  p2 = <["data" := table_data (json_clone <$> headers_of p)
                     (json_clone <$> cells_of p)]> p.
Proof.
  intros Hk Hshape Hpk Hv0 Hv1 Hle H1 H2.
  assert (structural (number_input k v1) ∧ structural (number_input k v0)
          ∧ k ≠ "data" ∧ k ≠ "hasHeader") as (Hs1 & Hs0 & Hkd & Hkh).
  { destruct Hk as [-> | ->]; split_and!; try done;
      first [by left | by right; left]. }
  apply handleTableStructureChange_closed in H1
    as (hs0 & cs0 & nc1 & nr1 & newRows1 & Hhs0 & Hcs0 & Hrows1 & Hcols1
        & Hnr1 & Hp1); [|done].
  apply shape_ok_inv in Hshape
    as (rows & hs & cs & Hprows & Hpcols & Hhs & Hcs & Hlen & Hall).
  rewrite Hhs in Hhs0. rewrite Hcs in Hcs0.
  injection Hhs0 as <-. injection Hcs0 as <-.
  apply handleTableStructureChange_closed in H2
    as (hs1 & cs1 & nc2 & nr2 & newRows2 & Hhs1 & Hcs1 & Hrows2 & Hcols2
        & Hnr2 & ->); [|done].
  destruct (data_array_closed nc1 nr1 (json_clone <$> hs) (json_clone <$> cs)
              (<[Target.name (number_input k v1) := new_value (number_input k v1)]> p))
    as [Hh Hc].
  rewrite <- Hp1 in Hh, Hc. rewrite Hh in Hhs1. rewrite Hc in Hcs1.
  injection Hhs1 as <-. injection Hcs1 as <-.
  assert (p1 !! "hasHeader" = p !! "hasHeader") as Hhas.
  { rewrite Hp1. simpl. by rewrite lookup_insert_ne, lookup_insert_ne. }
  assert (∀ k', k' ≠ "data" → target k' p1 (number_input k v0)
                              = target k' p (number_input k v0)) as Hsame.
  { intros k' Hk'. rewrite Hp1.
    change (Target.name (number_input k v1))
      with (Target.name (number_input k v0)).
    by apply target_after. }
  rewrite Hsame in Hrows2, Hcols2 by done.
  unfold target_cell_rows in Hnr1, Hnr2. rewrite Hhas in Hnr2.
  unfold headers_of, cells_of. rewrite Hhs, Hcs. simpl.
  assert (nc2 = length hs ∧ nr2 = length cs
          ∧ (length hs ≤ nc1)%nat ∧ (length cs ≤ nr1)%nat)
    as (-> & -> & Hnc & Hnr).
  { destruct Hk as [-> | ->].
    - rewrite target_number_input, Hv1 in Hrows1.
      rewrite target_number_input, Hv0 in Hrows2.
      rewrite target_other, Hpcols in Hcols1 by done.
      rewrite target_other, Hpcols in Hcols2 by done.
      rewrite Hprows in Hpk.
      injection Hrows1 as <-. injection Hrows2 as <-. injection Hpk as <-.
      injection Hcols1 as Hc1%Nat2Z.inj. injection Hcols2 as Hc2%Nat2Z.inj.
      destruct (truthy (p !! "hasHeader")); simpl in Hnr1, Hnr2;
        injection Hnr1 as Hnr1; injection Hnr2 as Hnr2; lia.
    - rewrite target_number_input, Hv1 in Hcols1.
      rewrite target_number_input, Hv0 in Hcols2.
      rewrite target_other, Hprows in Hrows1 by done.
      rewrite target_other, Hprows in Hrows2 by done.
      rewrite Hpcols in Hpk. unfold len in Hpk.
      injection Hrows1 as <-. injection Hrows2 as <-. injection Hpk as <-.
      injection Hcols1 as Hc1. injection Hcols2 as Hc2.
      destruct (truthy (p !! "hasHeader")); simpl in Hnr1, Hnr2;
        injection Hnr1 as Hnr1; injection Hnr2 as Hnr2; lia. }
  rewrite resized_data_back by done.
  rewrite Hp1. simpl. rewrite !new_value_number_input, Hv0.
  apply map_eq. intros j.
  destruct (decide (j = "data")) as [-> | Hj]; [by rewrite !lookup_insert_eq|].
  rewrite (lookup_insert_ne _ "data") by done.
  rewrite (lookup_insert_ne p "data") by done.
  destruct (decide (j = k)) as [-> | Hjk].
  - by rewrite lookup_insert_eq.
  - by rewrite !lookup_insert_ne.
Qed.

(** The table of the palette with [rows] set to 9 and then to 4 again. *)
Lemma grow_then_shrink_back_witness :
  after_edit (after_edit Table_props (number_input "rows" "9"))
    (number_input "rows" "4")
  = <["data" := table_data (json_clone <$> headers_of Table_props)
                  (json_clone <$> cells_of Table_props)]> Table_props.
Proof.
  refine (grow_then_shrink_back Table_props "rows" "4" "9" 4 9 _ _
            _ _ _ _ _ _ _ _).
  - left. reflexivity.
  - vm_compute. reflexivity.
  - vm_compute. reflexivity.
  - vm_compute. reflexivity.
  - vm_compute. reflexivity.
  - lia.
  - apply is_Ok_updated. vm_compute. reflexivity.
  - apply is_Ok_updated. vm_compute. reflexivity.
Defined.

(** The table of the palette with [cols] set to 6, twice. *)
Lemma resize_is_idempotent_witness :
  Drag.handleTableStructureChange
    (after_edit Table_props (number_input "cols" "6"))
    (number_input "cols" "6")
  = Ok (after_edit Table_props (number_input "cols" "6")).
Proof.
  refine (resize_is_idempotent Table_props (number_input "cols" "6") _
            (headers_of (after_edit Table_props (number_input "cols" "6")))
            (cells_of (after_edit Table_props (number_input "cols" "6")))
            _ _ _ _ _ _).
  - right. reflexivity.
  - apply is_Ok_updated. vm_compute. reflexivity.
  - vm_compute. reflexivity.
  - vm_compute. reflexivity.
  - vm_compute. reflexivity.
  - vm_compute. reflexivity.
Defined.

(** X4.  What an edit cuts off no later edit brings back: after an edit
    that leaves the table with [c] columns, whatever a second structural
    edit puts at a column from [c] on is a placeholder, the header
    ["New Header"] and the cell ["New Cell"], never the text that was
    there. *)
Theorem truncated_columns_stay_lost p e1 e2 p1 p2 c col :
  structural e1 → structural e2 →
  Drag.handleTableStructureChange p e1 = Ok p1 →
  Drag.handleTableStructureChange p1 e2 = Ok p2 →
  target "cols" p e1 = Ok (Num c) →
  c ≤ Z.of_nat col →
  (∀ v, header_at p2 col = Some v → v = VStr "New Header")
  ∧ (∀ r v, cell_at p2 r col = Some v → v = VStr "New Cell").
Proof.
  intros Hs1 Hs2 H1 H2 Hc Hcol.
  destruct (resize_dimensions _ _ _ Hs1 H1)
    as (hs' & cs' & newRows & newCols & _ & Hcols & Hhs' & Hcs' & Hlen & _
        & Hall).
  rewrite Hc in Hcols. injection Hcols as <-.
  unfold len in Hlen. injection Hlen as ->.
  assert (header_at p1 col = None) as Hh1.
  { unfold header_at. rewrite Hhs'. simpl. apply lookup_ge_None. lia. }
  assert (∀ r, cell_at p1 r col = None) as Hc1.
  { intros r. unfold cell_at. rewrite Hcs'. simpl.
    destruct (cs' !! r) as [row|] eqn:Hr; [|done]. simpl.
    rewrite forallb_forall in Hall. specialize (Hall row).
    rewrite <- list_elem_of_In in Hall.
    specialize (Hall (list_elem_of_lookup_2 _ _ _ Hr)).
    destruct row as [| | | | l |]; try discriminate. simpl in *.
    apply Z.eqb_eq in Hall. apply lookup_ge_None. lia. }
  split.
  - intros v Hv.
    destruct (resize_headers _ _ _ Hs2 H2 _ _ Hv) as [(v0 & Hv0 & _) | [_ ->]];
      [congruence | done].
  - intros r v Hv.
    destruct (resize_cells _ _ _ Hs2 H2 _ _ _ Hv) as [(v0 & Hv0 & _) | [_ ->]];
      [|done].
    rewrite Hc1 in Hv0. discriminate.
Qed.

(** The table of the palette cut to 2 columns and set to 4 again: the
    last cell of the first row was ["Cell 1-4"]. *)
Lemma truncated_columns_stay_lost_witness :
  cell_at Table_props 0 3 = Some (VStr "Cell 1-4")
  ∧ default VNull
      (cell_at (after_edit (after_edit Table_props (number_input "cols" "2"))
                  (number_input "cols" "4")) 0 3)
    = VStr "New Cell".
Proof.
  split; [vm_compute; reflexivity|].
  refine (proj2 (truncated_columns_stay_lost Table_props
                   (number_input "cols" "2") (number_input "cols" "4")
                   _ _ 2 3 _ _ _ _ _ _) 0%nat _ _).
  - right. left. reflexivity.
  - right. left. reflexivity.
  - apply is_Ok_updated. vm_compute. reflexivity.
  - apply is_Ok_updated. vm_compute. reflexivity.
  - vm_compute. reflexivity.
  - lia.
  - vm_compute. reflexivity.
Defined.

(** X5.  A rows or cols edit of a table whose headers and rows are
    arrays, with numbers of columns and of rows of cells that an array
    can have, reaches [onUpdate], and the props it hands over satisfy
    the shape invariant: as many headers as [cols], [rows] less the
    header row many rows of cells, every row of length [cols]. *)
Theorem rows_cols_edit_updates_in_shape p e hs cs newRows newCols :
  Target.name e = "rows" ∨ Target.name e = "cols" →
  data_array p "headers" = Some hs →
  data_array p "cells" = Some cs →
  forallb is_array cs = true →
  target "rows" p e = Ok newRows →
  target "cols" p e = Ok newCols →
  valid_length newCols = true →
  valid_length (target_cell_rows p newRows) = true →
  ∃ p', Drag.handleTableStructureChange p e = Ok p' ∧ shape_ok p' = true.
Proof.
  intros Hname Hhs Hcs Harr Hrows Hcols Hvc Hvr.
  destruct (handleTableStructureChange_returns p e hs cs newRows newCols)
    as [p' Hp']; try done.
  { destruct Hname; [by left | by right; left]. }
  exists p'. split; [done|]. by eapply resize_rows_cols_shape.
Qed.

(** The table of the palette with [rows] set to 2. *)
Lemma rows_cols_edit_updates_in_shape_witness :
  ∃ p', Drag.handleTableStructureChange Table_props (number_input "rows" "2")
        = Ok p'
        ∧ shape_ok p' = true.
Proof.
  refine (rows_cols_edit_updates_in_shape Table_props
            (number_input "rows" "2") (headers_of Table_props)
            (cells_of Table_props) (Num 2) (Num 4) _ _ _ _ _ _ _ _).
  - left. reflexivity.
  - vm_compute. reflexivity.
  - vm_compute. reflexivity.
  - vm_compute. reflexivity.
  - vm_compute. reflexivity.
  - vm_compute. reflexivity.
  - vm_compute. reflexivity.
  - vm_compute. reflexivity.
Defined.

(* ===================================================================== *)
(** ** The data of a new table                                           *)
(* ===================================================================== *)

Lemma mapM_pure {A B} (f : A → result B) (g : A → B) (l : list A) :
  (∀ x, f x = Ok (g x)) → mapM f l = Ok (g <$> l).
Proof.
  intros Hf. induction l as [|x l IH]; [done|].
  change (mapM f (x :: l)) with (y ← f x; k ← mapM f l; Ok (y :: k)).
  by rewrite Hf, IH.
Qed.

Lemma Array_from_Ok {A} n (f : nat → result A) (g : nat → A) :
  n < 2 ^ 32 → (∀ i, f i = Ok (g i)) →
  Drag.Array_from n f = Ok (g <$> seq 0 (Z.to_nat n)).
Proof.
  intros Hn Hf. unfold Drag.Array_from.
  apply Z.ltb_lt in Hn as ->. by apply mapM_pure.
Qed.

Lemma Array_from_RangeError {A} n (f : nat → result A) :
  2 ^ 32 ≤ n → Drag.Array_from n f = Throw RangeError.
Proof. intros Hn. unfold Drag.Array_from. by apply Z.ltb_ge in Hn as ->. Qed.

Lemma seq_fmap_length {A} (g : nat → A) n :
  length (g <$> seq 0 (Z.to_nat n)) = Z.to_nat n.
Proof. by rewrite length_fmap, length_seq. Qed.

Lemma seq_fmap_lookup {A} (g : nat → A) n (i : nat) :
  Z.of_nat i < n → (g <$> seq 0 (Z.to_nat n)) !! i = Some (g i).
Proof.
  intros Hi. rewrite list_lookup_fmap. by rewrite lookup_seq_lt by lia.
Qed.

(** The data [generateDefaultTableData] returns when it returns. *)
Lemma generateDefaultTableData_Ok rows cols (hasHeader : bool) :
  cols < 2 ^ 32 →
  (if hasHeader then rows - 1 else rows) < 2 ^ 32 →
  Drag.generateDefaultTableData rows cols hasHeader
  = Ok (table_data
          ((λ i, VStr ("Header " +:+ pretty (i + 1)%nat))
             <$> seq 0 (Z.to_nat cols))
          ((λ r, VArr ((λ c, VStr ("Cell " +:+ pretty (r + 1)%nat +:+ "-"
                                   +:+ pretty (c + 1)%nat))
                         <$> seq 0 (Z.to_nat cols)))
             <$> seq 0 (Z.to_nat (if hasHeader then rows - 1 else rows)))).
Proof.
  intros Hc Hr. unfold Drag.generateDefaultTableData. cbv zeta.
  rewrite (Array_from_Ok cols _
             (λ i, VStr ("Header " +:+ pretty (i + 1)%nat))) by done.
  cbn [mbind result_bind].
  rewrite (Array_from_Ok _ _
             (λ r, VArr ((λ c, VStr ("Cell " +:+ pretty (r + 1)%nat +:+ "-"
                                     +:+ pretty (c + 1)%nat))
                           <$> seq 0 (Z.to_nat cols)))); [done | done |].
  intros r.
  by rewrite (Array_from_Ok cols _
                (λ c, VStr ("Cell " +:+ pretty (r + 1)%nat +:+ "-"
                            +:+ pretty (c + 1)%nat))).
Qed.

Lemma table_props_lookups rows cols hasHeader d :
  table_props rows cols hasHeader d !! "rows" = Some (num rows)
  ∧ table_props rows cols hasHeader d !! "cols" = Some (num cols)
  ∧ table_props rows cols hasHeader d !! "hasHeader" = Some (VBool hasHeader)
  ∧ table_props rows cols hasHeader d !! "data" = Some d.
Proof.
  unfold table_props. split_and!.
  - by rewrite lookup_insert_eq.
  - rewrite lookup_insert_ne by done. by rewrite lookup_insert_eq.
  - rewrite !lookup_insert_ne by done. by rewrite lookup_insert_eq.
  - rewrite !lookup_insert_ne by done. by rewrite lookup_insert_eq.
Qed.

Lemma table_props_data rows cols hasHeader hs cs k :
  data_array (table_props rows cols hasHeader (table_data hs cs)) k
  = if String.eqb k "headers" then Some hs
    else if String.eqb k "cells" then Some cs else None.
Proof.
  rewrite <- (data_array_resized ∅). unfold data_array.
  destruct (table_props_lookups rows cols hasHeader (table_data hs cs))
    as (_ & _ & _ & ->).
  by rewrite lookup_insert_eq.
Qed.

(** X6.  [generateDefaultTableData(rows, cols, hasHeader)] ends in a
    [RangeError] when [cols], or [rows] less the header row, is [2 ^ 32]
    or more, and returns otherwise.  The data it returns satisfy the
    shape invariant with [rows], [cols] and [hasHeader] exactly when
    [cols] is not negative and [rows] covers the header row; the header
    of column [c] is ["Header c+1"] and the cell of row [r] and column
    [c] is ["Cell r+1-c+1"], the header row not counted. *)
Theorem default_table_data_shape rows cols (hasHeader : bool) :
  (2 ^ 32 ≤ cols ∨ 2 ^ 32 ≤ rows - (if hasHeader then 1 else 0) →
   Drag.generateDefaultTableData rows cols hasHeader = Throw RangeError)
  ∧ (cols < 2 ^ 32 → rows - (if hasHeader then 1 else 0) < 2 ^ 32 →
     ∃ d, Drag.generateDefaultTableData rows cols hasHeader = Ok d
       ∧ (shape_ok (table_props rows cols hasHeader d) = true
          ↔ 0 ≤ cols ∧ (if hasHeader then 1 else 0) ≤ rows)
       ∧ (∀ c : nat, Z.of_nat c < cols →
            header_at (table_props rows cols hasHeader d) c
            = Some (VStr ("Header " +:+ pretty (c + 1)%nat)))
       ∧ (∀ r c : nat,
            Z.of_nat r < rows - (if hasHeader then 1 else 0) →
            Z.of_nat c < cols →
            cell_at (table_props rows cols hasHeader d) r c
            = Some (VStr ("Cell " +:+ pretty (r + 1)%nat +:+ "-"
                          +:+ pretty (c + 1)%nat)))).
Proof.
  assert ((if hasHeader then rows - 1 else rows)
          = rows - (if hasHeader then 1 else 0)) as Hactual
    by (destruct hasHeader; lia).
  split.
  - intros Hbig. unfold Drag.generateDefaultTableData. cbv zeta.
    destruct (Z_lt_le_dec cols (2 ^ 32)) as [Hc | Hc].
    + rewrite (Array_from_Ok cols _
                 (λ i, VStr ("Header " +:+ pretty (i + 1)%nat))) by done.
      cbn [mbind result_bind].
      rewrite Array_from_RangeError; [done|]. rewrite Hactual. lia.
    + rewrite (Array_from_RangeError cols) by done. reflexivity.
  - intros Hc Hr. eexists. split.
    { apply generateDefaultTableData_Ok; [done | by rewrite Hactual]. }
    rewrite Hactual. split_and!.
    + unfold shape_ok. rewrite !table_props_data. simpl.
      destruct (table_props_lookups rows cols hasHeader
                  (table_data
                     ((λ i, VStr ("Header " +:+ pretty (i + 1)%nat))
                        <$> seq 0 (Z.to_nat cols))
                     ((λ r, VArr ((λ c, VStr ("Cell " +:+ pretty (r + 1)%nat
                                              +:+ "-" +:+ pretty (c + 1)%nat))
                                    <$> seq 0 (Z.to_nat cols)))
                        <$> seq 0 (Z.to_nat
                                     (rows - (if hasHeader then 1 else 0))))))
        as (-> & -> & -> & _).
      unfold num. simpl.
      rewrite !seq_fmap_length, !andb_true_iff, !Z.eqb_eq.
      rewrite forallb_forall. split.
      * intros [[Hc' Hr'] _]. destruct hasHeader; simpl in *; lia.
      * intros [Hc' Hr']. split; [destruct hasHeader; simpl; lia|].
        intros row Hin. apply list_elem_of_In in Hin.
        apply list_elem_of_fmap in Hin as (r & -> & _). simpl.
        rewrite seq_fmap_length. apply Z.eqb_eq. lia.
    + intros c Hc'. unfold header_at. rewrite table_props_data. simpl.
      by rewrite seq_fmap_lookup.
    + intros r c Hr' Hc'. unfold cell_at. rewrite table_props_data. simpl.
      rewrite seq_fmap_lookup by done. simpl.
      by rewrite seq_fmap_lookup.
Qed.

(** The last cell of the table of 4 rows and 4 columns with a header,
    the table of the palette. *)
Lemma default_table_data_shape_witness :
  ∃ d, Drag.generateDefaultTableData 4 4 true = Ok d
       ∧ cell_at (table_props 4 4 true d) 2 3 = Some (VStr "Cell 3-4").
Proof.
  destruct (proj2 (default_table_data_shape 4 4 true))
    as (d & Hd & _ & _ & Hcell).
  - simpl. lia.
  - simpl. lia.
  - exists d. split; [exact Hd|].
    apply (Hcell 2%nat 3%nat); simpl; lia.
Defined.

(* ===================================================================== *)
(** ** Saving a cell or a header of a table                              *)
(* ===================================================================== *)

Lemma Table_props_default :
  Drag.generateDefaultTableData 4 4 true = Ok Table_data
  ∧ delete "styles" Table_props = table_props 4 4 true Table_data.
Proof. split; vm_compute; reflexivity. Qed.

Lemma set_index_Ok arr i x arr' :
  Table.set_index arr i x = Ok arr' →
  arr' !! i = Some x
  ∧ (∀ j, j ≠ i → arr' !! j = arr !! j)
  ∧ (is_Some (arr !! i) → length arr' = length arr).
Proof.
  unfold Table.set_index.
  destruct (i <? length arr)%nat eqn:Hlt.
  - apply Nat.ltb_lt in Hlt. intros [= <-]. split_and!.
    + by apply list_lookup_insert_eq.
    + intros j Hj. by apply list_lookup_insert_ne.
    + intros _. apply length_insert.
  - apply Nat.ltb_ge in Hlt.
    destruct (i =? length arr)%nat eqn:Heq; [|discriminate].
    apply Nat.eqb_eq in Heq. subst i. intros [= <-]. split_and!.
    + rewrite lookup_app_r by done. by rewrite Nat.sub_diag.
    + intros j Hj. destruct (decide (j < length arr)%nat).
      * by rewrite lookup_app_l.
      * rewrite !lookup_ge_None_2; [done | lia |].
        rewrite length_app. simpl. lia.
    + intros [y Hy]. apply lookup_lt_Some in Hy. lia.
Qed.

Lemma set_index_in_range arr i x :
  is_Some (arr !! i) → Table.set_index arr i x = Ok (<[i := x]> arr).
Proof.
  intros [y Hy%lookup_lt_Some]. unfold Table.set_index.
  by apply Nat.ltb_lt in Hy as ->.
Qed.

Lemma mapM_spread_array (cs : list value) (rows : list (list value)) :
  mapM (λ row, Table.spread_array (Some row)) cs = Ok rows →
  cs = VArr <$> rows.
Proof.
  intros H%mapM_Ok. induction H as [|row l cs rows Hrow _ IH]; [done|].
  simpl. f_equal; [|done].
  destruct row; simpl in Hrow; congruence.
Qed.

Lemma mapM_spread_array_Ok (rows : list (list value)) :
  mapM (λ row, Table.spread_array (Some row)) (VArr <$> rows) = Ok rows.
Proof.
  induction rows as [|l rows IH]; [done|].
  rewrite fmap_cons.
  change (mapM (λ row, Table.spread_array (Some row))
            (VArr l :: (VArr <$> rows)))
    with (y ← Table.spread_array (Some (VArr l));
          k ← mapM (λ row, Table.spread_array (Some row)) (VArr <$> rows);
          Ok (y :: k)).
  by rewrite IH.
Qed.

Lemma as_object_lookup_Some d k v :
  as_object d !! k = Some v → ∃ m, d = VObj m.
Proof.
  destruct d; simpl; try (rewrite lookup_empty; discriminate). eauto.
Qed.

(** What a save of a cell that reaches [onDataChange] has read and what
    it hands over. *)
Lemma handleCellSave_inv d r c x d' :
  Table.handleCellSave d r c x = Ok d' →
  ∃ m rows row row',
    d = VObj m
    ∧ m !! "cells" = Some (VArr (VArr <$> rows))
    ∧ rows !! r = Some row
    ∧ Table.set_index row c x = Ok row'
    ∧ d' = VObj (<["cells" := VArr (VArr <$> <[r := row']> rows)]> m).
Proof.
  unfold Table.handleCellSave. intros H.
  apply bind_Ok in H as (rows & Hrows & H).
  destruct (as_object d !! "cells") as [v|] eqn:Hv; [|discriminate].
  destruct (as_object_lookup_Some _ _ _ Hv) as [m ->]. simpl in Hv.
  destruct v as [| | | | cs |]; try discriminate. simpl in Hrows.
  apply mapM_spread_array in Hrows as ->.
  destruct (rows !! r) as [row|] eqn:Hr; [|discriminate].
  apply bind_Ok in H as (row' & Hrow' & [= <-]).
  by exists m, rows, row, row'.
Qed.

Lemma handleHeaderSave_inv d c x d' :
  Table.handleHeaderSave d c x = Ok d' →
  ∃ m hs hs',
    d = VObj m
    ∧ m !! "headers" = Some (VArr hs)
    ∧ Table.set_index hs c x = Ok hs'
    ∧ d' = VObj (<["headers" := VArr hs']> m).
Proof.
  unfold Table.handleHeaderSave. intros H.
  apply bind_Ok in H as (hs & Hhs & H).
  destruct (as_object d !! "headers") as [v|] eqn:Hv; [|discriminate].
  destruct (as_object_lookup_Some _ _ _ Hv) as [m ->]. simpl in Hv.
  destruct v as [| | | | l |]; try discriminate. injection Hhs as <-.
  apply bind_Ok in H as (hs' & Hhs' & [= <-]).
  by exists m, l, hs'.
Qed.

Lemma cell_at_data p m rows r c :
  p !! "data" = Some (VObj m) →
  m !! "cells" = Some (VArr (VArr <$> rows)) →
  cell_at p r c = row ← rows !! r; row !! c.
Proof.
  intros Hd Hm. unfold cell_at, data_array. rewrite Hd. simpl. rewrite Hm.
  simpl. rewrite list_lookup_fmap. by destruct (rows !! r).
Qed.

(** X7.  A save of the cell in row [r] and column [c] that reaches
    [onDataChange] puts the new text at that place and nowhere else:
    every other cell, every other field of the data (the headers among
    them) and every other prop is what it was, not a copy through
    JSON. *)
Theorem cell_save_sets_one_cell p d r c x d' :
  p !! "data" = Some d →
  Table.handleCellSave d r c x = Ok d' →
  cell_at (Table.onDataChange p d') r c = Some x
  ∧ (∀ r' c', (r', c') ≠ (r, c) →
       cell_at (Table.onDataChange p d') r' c' = cell_at p r' c')
  ∧ (∀ k, k ≠ "cells" → as_object d' !! k = as_object d !! k)
  ∧ (∀ k, k ≠ "data" → Table.onDataChange p d' !! k = p !! k).
Proof.
  intros Hd H.
  apply handleCellSave_inv in H
    as (m & rows & row & row' & -> & Hm & Hr & Hset & ->).
  apply set_index_Ok in Hset as (Hc & Hother & _).
  unfold Table.onDataChange.
  assert (∀ r' c',
    cell_at (<["data" := VObj (<["cells" :=
               VArr (VArr <$> <[r := row']> rows)]> m)]> p) r' c'
    = row ← <[r := row']> rows !! r'; row !! c') as Hcell.
  { intros r' c'. eapply cell_at_data.
    - apply lookup_insert_eq.
    - apply lookup_insert_eq. }
  split_and!.
  - rewrite Hcell, list_lookup_insert_eq by (by eapply lookup_lt_Some).
    done.
  - intros r' c' Hne. rewrite Hcell, (cell_at_data p m rows) by done.
    destruct (decide (r' = r)) as [-> | Hr'].
    + rewrite list_lookup_insert_eq by (by eapply lookup_lt_Some).
      rewrite Hr. simpl. apply Hother. congruence.
    + by rewrite list_lookup_insert_ne.
  - intros k Hk. simpl. by rewrite lookup_insert_ne.
  - intros k Hk. by rewrite lookup_insert_ne.
Qed.

Lemma is_Ok_saved r : is_Ok r = true → r = Ok (saved r).
Proof. by destruct r. Qed.

(** The second cell of the first row of the table of the palette. *)
Lemma cell_save_sets_one_cell_witness :
  cell_at (Table.onDataChange Table_props
             (saved (Table.handleCellSave Table_data 0 1 (VStr "new"))))
    0 1
  = Some (VStr "new").
Proof.
  refine (proj1 (cell_save_sets_one_cell Table_props Table_data 0 1
                   (VStr "new") _ _ _)).
  - vm_compute. reflexivity.
  - apply is_Ok_saved. vm_compute. reflexivity.
Defined.

Lemma shape_ok_intro p rows hs cs :
  p !! "rows" = Some (VNum (Num rows)) →
  p !! "cols" = Some (VNum (len hs)) →
  data_array p "headers" = Some hs →
  data_array p "cells" = Some cs →
  Z.of_nat (length cs) = rows - (if truthy (p !! "hasHeader") then 1 else 0) →
  forallb (row_has_length (Z.of_nat (length hs))) cs = true →
  shape_ok p = true.
Proof.
  intros Hr Hc Hhs Hcs Hlen Hall. unfold shape_ok.
  rewrite Hr, Hc, Hhs, Hcs. unfold len. rewrite Hall, andb_true_r.
  apply andb_true_iff. split; apply Z.eqb_eq; lia.
Qed.

Lemma rows_are_arrays n (cs : list value) :
  forallb (row_has_length n) cs = true → cs = VArr <$> (as_array <$> cs).
Proof.
  induction cs as [|x cs IH]; [done|]. simpl.
  rewrite andb_true_iff. intros [Hx Hr]. f_equal; [|auto].
  by destruct x.
Qed.

Lemma data_array_obj p k l :
  data_array p k = Some l →
  ∃ m, p !! "data" = Some (VObj m) ∧ m !! k = Some (VArr l).
Proof.
  unfold data_array. destruct (p !! "data") as [d|]; [|discriminate]. simpl.
  destruct (as_object d !! k) as [v|] eqn:Hv; [|discriminate].
  destruct (as_object_lookup_Some _ _ _ Hv) as [m ->]. simpl in Hv.
  destruct v; try discriminate. intros [= ->]. eauto.
Qed.

Lemma data_array_insert_data (p : gmap string value) m k :
  data_array (<["data" := VObj m]> p) k = arr_of (m !! k).
Proof. unfold data_array. by rewrite lookup_insert_eq. Qed.

(** X8.  On a table that satisfies the shape invariant a save of a cell
    the table has reaches [onDataChange], and the props handed to
    [onUpdate] satisfy the invariant again. *)
Theorem cell_save_keeps_shape p d r c x old :
  shape_ok p = true →
  p !! "data" = Some d →
  cell_at p r c = Some old →
  ∃ d', Table.handleCellSave d r c x = Ok d'
        ∧ shape_ok (Table.onDataChange p d') = true.
Proof.
  intros Hshape Hd Hcell.
  apply shape_ok_inv in Hshape
    as (rows & hs & cs & Hprows & Hpcols & Hhs & Hcs & Hlen & Hall).
  destruct (data_array_obj _ _ _ Hcs) as (m & Hm & Hmc).
  rewrite Hd in Hm. injection Hm as ->.
  pose proof (rows_are_arrays _ _ Hall) as Hrows.
  set (ls := as_array <$> cs) in *.
  rewrite Hrows in Hmc.
  rewrite (cell_at_data p m ls) in Hcell by done.
  destruct (ls !! r) as [row|] eqn:Hr; [|discriminate]. simpl in Hcell.
  exists (VObj (<["cells" := VArr (VArr <$> <[r := <[c := x]> row]> ls)]> m)).
  split.
  - unfold Table.handleCellSave. simpl. rewrite Hmc. simpl.
    rewrite mapM_spread_array_Ok. simpl. rewrite Hr.
    by rewrite set_index_in_range.
  - unfold Table.onDataChange.
    apply (shape_ok_intro _ rows hs (VArr <$> <[r := <[c := x]> row]> ls)).
    + by rewrite lookup_insert_ne.
    + by rewrite lookup_insert_ne.
    + rewrite data_array_insert_data, lookup_insert_ne by done.
      apply data_array_obj in Hhs as (m' & Hm' & Hmh).
      rewrite Hd in Hm'. injection Hm' as <-. by rewrite Hmh.
    + by rewrite data_array_insert_data, lookup_insert_eq.
    + rewrite lookup_insert_ne by done.
      rewrite length_fmap, length_insert. rewrite <- Hlen, Hrows.
      by rewrite length_fmap.
    + rewrite list_fmap_insert, <- Hrows.
      apply forallb_forall. intros y Hy%list_elem_of_In.
      apply list_elem_of_lookup in Hy as [i Hi].
      destruct (decide (i = r)) as [-> | Hne].
      * rewrite list_lookup_insert_eq in Hi.
        2:{ rewrite Hrows, length_fmap. by eapply lookup_lt_Some. }
        injection Hi as <-. simpl. rewrite length_insert.
        rewrite forallb_forall in Hall. specialize (Hall (VArr row)).
        apply Hall, list_elem_of_In. rewrite Hrows.
        apply list_elem_of_fmap. exists row. split; [done|].
        by eapply list_elem_of_lookup_2.
      * rewrite list_lookup_insert_ne in Hi by done.
        rewrite forallb_forall in Hall. apply Hall, list_elem_of_In.
        by eapply list_elem_of_lookup_2.
Qed.

(** The last cell of the table of the palette. *)
Lemma cell_save_keeps_shape_witness :
  ∃ d', Table.handleCellSave Table_data 2 3 (VStr "new") = Ok d'
        ∧ shape_ok (Table.onDataChange Table_props d') = true.
Proof.
  refine (cell_save_keeps_shape Table_props Table_data 2 3 (VStr "new")
            (VStr "Cell 3-4") _ _ _).
  - vm_compute. reflexivity.
  - vm_compute. reflexivity.
  - vm_compute. reflexivity.
Defined.

(** X9.  A save of the header of column [c] that reaches [onDataChange]
    puts the new text at that place and nowhere else: the other headers,
    the other fields of the data (the cells among them) and the other
    props are what they were; and when the table had a header at [c], it
    satisfies the shape invariant after the save exactly if it did
    before. *)
Theorem header_save_sets_one_header p d c x d' :
  p !! "data" = Some d →
  Table.handleHeaderSave d c x = Ok d' →
  header_at (Table.onDataChange p d') c = Some x
  ∧ (∀ c', c' ≠ c → header_at (Table.onDataChange p d') c' = header_at p c')
  ∧ (∀ k, k ≠ "headers" → as_object d' !! k = as_object d !! k)
  ∧ (∀ k, k ≠ "data" → Table.onDataChange p d' !! k = p !! k)
  ∧ (is_Some (header_at p c) →
       shape_ok (Table.onDataChange p d') = shape_ok p).
Proof.
  intros Hd H.
  apply handleHeaderSave_inv in H as (m & hs & hs' & -> & Hm & Hset & ->).
  apply set_index_Ok in Hset as (Hc & Hother & Hlen).
  unfold Table.onDataChange.
  assert (data_array p "headers" = Some hs) as Hhs.
  { unfold data_array. rewrite Hd. simpl. by rewrite Hm. }
  assert (data_array (<["data" := VObj (<["headers" := VArr hs']> m)]> p)
            "headers" = Some hs') as Hhs'.
  { by rewrite data_array_insert_data, lookup_insert_eq. }
  assert (data_array (<["data" := VObj (<["headers" := VArr hs']> m)]> p)
            "cells" = data_array p "cells") as Hcs.
  { rewrite data_array_insert_data, lookup_insert_ne by done.
    unfold data_array. by rewrite Hd. }
  split_and!.
  - unfold header_at. by rewrite Hhs'.
  - intros c' Hc'. unfold header_at. rewrite Hhs', Hhs. simpl. by apply Hother.
  - intros k Hk. simpl. by rewrite lookup_insert_ne.
  - intros k Hk. by rewrite lookup_insert_ne.
  - intros Hsome. unfold header_at in Hsome. rewrite Hhs in Hsome.
    simpl in Hsome. specialize (Hlen Hsome).
    unfold shape_ok. rewrite Hhs', Hcs, Hhs.
    rewrite !(lookup_insert_ne _ "data") by done. by rewrite Hlen.
Qed.

(** The second header of the table of the palette. *)
Lemma header_save_sets_one_header_witness :
  header_at (Table.onDataChange Table_props
               (saved (Table.handleHeaderSave Table_data 1 (VStr "new")))) 1
  = Some (VStr "new").
Proof.
  refine (proj1 (header_save_sets_one_header Table_props Table_data 1
                   (VStr "new") _ _ _)).
  - vm_compute. reflexivity.
  - apply is_Ok_saved. vm_compute. reflexivity.
Defined.

(* ===================================================================== *)
(** ** One edit of a cell                                                *)
(* ===================================================================== *)

Lemma run_app value s es1 es2 :
  EditableCell.run value s (es1 ++ es2)
  = let '(s1, saved1) := EditableCell.run value s es1 in
    let '(s2, saved2) := EditableCell.run value s1 es2 in
    (s2, saved1 ++ saved2).
Proof.
  revert s. induction es1 as [|e es1 IH]; intros s; simpl.
  - by destruct (EditableCell.run value s es2).
  - destruct (EditableCell.step value s e) as [s1 saved].
    rewrite IH.
    destruct (EditableCell.run value s1 es1) as [s2 saved1].
    destruct (EditableCell.run value s2 es2) as [s3 saved2].
    by rewrite app_assoc.
Qed.

(** Typing saves nothing and leaves the last text in the input. *)
Lemma run_typed value t typed :
  EditableCell.run value {| EditableCell.isEditing := true;
                            EditableCell.text := t |}
    (EditableCell.Change <$> typed)
  = ({| EditableCell.isEditing := true;
        EditableCell.text := last_typed t typed |}, []).
Proof.
  revert t. induction typed as [|v typed IH]; intros t; [done|].
  rewrite fmap_cons. cbn [EditableCell.run EditableCell.step
                           EditableCell.isEditing].
  rewrite IH. simpl. do 2 f_equal. unfold last_typed.
  rewrite last_cons. by destruct (last typed).
Qed.

Lemma run_session value typed e :
  EditableCell.run value (EditableCell.initial value) (session typed e)
  = let '(s, saved) :=
      EditableCell.step value
        {| EditableCell.isEditing := true;
           EditableCell.text := last_typed value typed |} e in
    (s, from_option (λ x, [x]) [] saved).
Proof.
  unfold session.
  change (EditableCell.run value (EditableCell.initial value)
            (EditableCell.DoubleClick :: ?es))
    with (let '(s2, rest) :=
            EditableCell.run value
              {| EditableCell.isEditing := true;
                 EditableCell.text := value |} es in
          (s2, [] ++ rest)).
  rewrite run_app, run_typed. simpl.
  destruct (EditableCell.step value _ e) as [s saved].
  by rewrite app_nil_r.
Qed.

(** X10.  One edit of a cell that ends with the key Enter or with the
    input losing the focus calls [onSave] once, with the text typed
    last, or with the text of the cell when nothing was typed, and
    leaves the cell not being edited. *)
Theorem edit_session_saves_last_text value typed e :
  e = EditableCell.Blur ∨ e = EditableCell.KeyDown "Enter" →
  EditableCell.run value (EditableCell.initial value) (session typed e)
  = ({| EditableCell.isEditing := false;
        EditableCell.text := last_typed value typed |},
     [last_typed value typed]).
Proof. intros [-> | ->]; by rewrite run_session. Qed.

Lemma edit_session_saves_last_text_witness :
  EditableCell.run "Cell 1-1" (EditableCell.initial "Cell 1-1")
    (session ["a"; "ab"] EditableCell.Blur)
  = ({| EditableCell.isEditing := false; EditableCell.text := "ab" |},
     ["ab"]).
Proof.
  apply (edit_session_saves_last_text "Cell 1-1" ["a"; "ab"]).
  left. reflexivity.
Defined.

(** X11.  The keys other than Enter.  With the key Escape the edit ends
    without a call of [onSave] and the cell is as it was before the
    double click: the text typed is dropped.  Any other key than Enter
    and Escape changes nothing: nothing is saved by it, and the cell is
    still being edited with the text typed, so that the edit has not
    ended; when the input loses the focus after it, the text typed is
    saved. *)
Theorem escape_discards_the_edit value typed :
  EditableCell.run value (EditableCell.initial value)
    (session typed (EditableCell.KeyDown "Escape"))
  = (EditableCell.initial value, [])
  ∧ (∀ key, key ≠ "Enter" → key ≠ "Escape" →
       EditableCell.run value (EditableCell.initial value)
         (session typed (EditableCell.KeyDown key))
       = ({| EditableCell.isEditing := true;
             EditableCell.text := last_typed value typed |}, [])
       ∧ EditableCell.run value (EditableCell.initial value)
           (session typed (EditableCell.KeyDown key) ++ [EditableCell.Blur])
         = ({| EditableCell.isEditing := false;
               EditableCell.text := last_typed value typed |},
            [last_typed value typed])).
Proof.
  split.
  - by rewrite run_session.
  - intros key Henter%String.eqb_neq Hescape%String.eqb_neq.
    assert (EditableCell.run value (EditableCell.initial value)
              (session typed (EditableCell.KeyDown key))
            = ({| EditableCell.isEditing := true;
                  EditableCell.text := last_typed value typed |}, [])) as Hkey.
    { rewrite run_session.
      cbn [EditableCell.step EditableCell.isEditing].
      unfold EditableCell.handleKeyDown. by rewrite Henter, Hescape. }
    split; [done|]. by rewrite run_app, Hkey.
Qed.

(** Two texts typed, the key Tab, and the input losing the focus. *)
Lemma escape_discards_the_edit_witness :
  EditableCell.run "Cell 1-1" (EditableCell.initial "Cell 1-1")
    (session ["a"; "ab"] (EditableCell.KeyDown "Tab") ++ [EditableCell.Blur])
  = ({| EditableCell.isEditing := false; EditableCell.text := "ab" |},
     ["ab"]).
Proof.
  refine (proj2 (proj2 (escape_discards_the_edit "Cell 1-1" ["a"; "ab"])
                   "Tab" _ _)).
  - discriminate.
  - discriminate.
Defined.

(* ===================================================================== *)
(** ** A drag from the palette                                           *)
(* ===================================================================== *)

Lemma findIndex_from_app x l1 c l2 a :
  x ∉ id <$> l1 → id c = x →
  findIndex_from x (l1 ++ c :: l2) a = a + Z.of_nat (length l1).
Proof.
  revert a. induction l1 as [|d l1 IH]; intros a Hnot Hc; simpl.
  - apply String.eqb_eq in Hc as ->. lia.
  - rewrite fmap_cons, not_elem_of_cons in Hnot. destruct Hnot as [Hd Hnot].
    assert (String.eqb (id d) x = false) as -> by (apply String.eqb_neq; congruence).
    rewrite IH by done. lia.
Qed.

Lemma some_false x l : x ∉ id <$> l → some x l = false.
Proof.
  induction l as [|c l IH]; [done|]. rewrite fmap_cons, not_elem_of_cons.
  intros [Hc Hl]. simpl. rewrite IH by done.
  assert (String.eqb (id c) x = false) as -> by (apply String.eqb_neq; congruence).
  done.
Qed.

(** Every palette entry has a template. *)
Lemma palette_template active :
  active ∈ Drag.availableComponents →
  ∃ t, Drag.DEFAULT_PROPS !! active = Some t.
Proof.
  unfold Drag.availableComponents. intros Ha.
  repeat (apply elem_of_cons in Ha as [-> | Ha]);
    try (by apply elem_of_nil in Ha);
    (destruct (Drag.DEFAULT_PROPS !! _) as [t|] eqn:E;
     [by exists t | vm_compute in E; discriminate]).
Qed.

Lemma palette_drop now canvas active o :
  active ∈ Drag.availableComponents →
  Drag.handleDragEnd now canvas active (Some o)
  = if negb (findIndex o canvas =? -1)
    then splice_insert canvas (findIndex o canvas) (new_component now active)
    else canvas ++ [new_component now active].
Proof.
  intros Ha. unfold Drag.handleDragEnd, new_component.
  rewrite bool_decide_eq_true_2 by done.
  destruct (palette_template _ Ha) as [t ->]. done.
Qed.

(** X12.  A drag from the palette that ends on a component of the canvas
    puts the new component right before that component (the first with
    that id), and a drag that ends on anything else puts it at the end.
    The components of the canvas stay, in their order. *)
Theorem palette_drop_inserts_before_target now active o :
  active ∈ Drag.availableComponents →
  (∀ l1 c l2, id c = o → o ∉ id <$> l1 →
     Drag.handleDragEnd now (l1 ++ c :: l2) active (Some o)
     = l1 ++ new_component now active :: c :: l2)
  ∧ (∀ canvas, o ∉ id <$> canvas →
       Drag.handleDragEnd now canvas active (Some o)
       = canvas ++ [new_component now active]).
Proof.
  intros Ha. split.
  - intros l1 c l2 Hc Hnot. rewrite palette_drop by done.
    unfold findIndex. rewrite findIndex_from_app, Z.add_0_l by done.
    replace (Z.of_nat (length l1) =? -1) with false
      by (symmetry; apply Z.eqb_neq; lia).
    simpl. unfold splice_insert.
    rewrite splice_start_index by (rewrite length_app; simpl; lia).
    by rewrite take_app_length, drop_app_length.
  - intros canvas Hnot. rewrite palette_drop by done.
    unfold findIndex. by rewrite findIndex_from_not_found by by apply some_false.
Qed.

(** A table dragged onto the second of three components. *)
Lemma palette_drop_inserts_before_target_witness :
  id <$> Drag.handleDragEnd 7 ABC "Table" (Some "B")
  = ["A"; "Table-7"; "B"; "C"].
Proof.
  refine (eq_trans
            (f_equal (fmap id)
               (proj1 (palette_drop_inserts_before_target 7 "Table" "B" _)
                  [ {| id := "A"; type := "Text"; props := ∅ |} ]
                  {| id := "B"; type := "Image"; props := ∅ |}
                  [ {| id := "C"; type := "Text"; props := ∅ |} ] _ _)) _).
  - apply (bool_decide_unpack _). vm_compute. exact I.
  - reflexivity.
  - apply (bool_decide_unpack _). vm_compute. exact I.
  - vm_compute. reflexivity.
Defined.

Lemma palette_drop_Permutation now canvas active o :
  active ∈ Drag.availableComponents →
  Drag.handleDragEnd now canvas active (Some o)
  ≡ₚ new_component now active :: canvas.
Proof.
  intros Ha. rewrite palette_drop by done.
  destruct (negb _).
  - unfold splice_insert. rewrite <- Permutation_middle.
    by rewrite take_drop.
  - by rewrite Permutation_app_comm.
Qed.

Lemma minted_id_inj a1 a2 (n1 n2 : Z) :
  a1 ∈ Drag.availableComponents →
  a2 ∈ Drag.availableComponents →
  a1 +:+ "-" +:+ pretty n1 = a2 +:+ "-" +:+ pretty n2 →
  a1 = a2 ∧ n1 = n2.
Proof.
  unfold Drag.availableComponents. intros H1 H2.
  repeat (apply elem_of_cons in H1 as [-> | H1]);
    try (by apply elem_of_nil in H1);
    repeat (apply elem_of_cons in H2 as [-> | H2]);
    try (by apply elem_of_nil in H2);
    simpl; intros H; try discriminate;
    (split; [done|]); apply (inj pretty); by simplify_eq.
Qed.

(** X13.  Two components made by drags from the palette have the same id
    exactly when they are of the same type and were made at the same
    value of [Date.now()]. *)
Theorem minted_ids_equal_iff a1 a2 (n1 n2 : Z) :
  a1 ∈ Drag.availableComponents →
  a2 ∈ Drag.availableComponents →
  id (new_component n1 a1) = id (new_component n2 a2) ↔ a1 = a2 ∧ n1 = n2.
Proof.
  intros H1 H2. split.
  - by apply minted_id_inj.
  - by intros [-> ->].
Qed.

Lemma minted_ids_equal_iff_witness :
  id (new_component 5 "Text") = id (new_component 5 "Image")
  ↔ "Text" = "Image" ∧ 5 = 5.
Proof.
  apply minted_ids_equal_iff.
  - apply (bool_decide_unpack _). vm_compute. exact I.
  - apply (bool_decide_unpack _). vm_compute. exact I.
Defined.

Lemma minted_before_mono now now' c :
  now ≤ now' → minted_before now c → minted_before now' c.
Proof.
  intros Hle (a & t & Ha & Ht & Hid). exists a, t. split_and!; [done | lia | done].
Qed.

(** X14.  On a canvas whose ids are distinct and were all made by drags
    from the palette before the time [now], a drag from the palette at
    [now] leaves the ids distinct, and all made before [now + 1]: the
    ids stay unique as long as [Date.now()] grows from one insertion to
    the next. *)
Theorem palette_drop_keeps_ids_unique now canvas active over :
  active ∈ Drag.availableComponents →
  NoDup (id <$> canvas) →
  Forall (minted_before now) canvas →
  NoDup (id <$> Drag.handleDragEnd now canvas active over)
  ∧ Forall (minted_before (now + 1)) (Drag.handleDragEnd now canvas active over).
Proof.
  intros Ha Hnd Hall.
  assert (Forall (minted_before (now + 1)) canvas) as Hall'.
  { eapply Forall_impl; [done|]. intros c. apply minted_before_mono. lia. }
  destruct over as [o|]; [|done].
  pose proof (palette_drop_Permutation now canvas active o Ha) as Hperm.
  split.
  - rewrite Hperm, fmap_cons. apply NoDup_cons. split; [|done].
    intros Hin. apply list_elem_of_fmap in Hin as (c & Hid & Hc).
    rewrite Forall_forall in Hall.
    destruct (Hall c Hc) as (a & t & Ha' & Ht & Hidc).
    rewrite Hidc in Hid.
    apply minted_id_inj in Hid as [_ ->]; [lia | done..].
  - rewrite Hperm. constructor; [|done].
    exists active, now. split_and!; [done | lia | done].
Qed.

(** A text block dragged in at time 1 onto the canvas that has the text
    block made at time 0. *)
Lemma palette_drop_keeps_ids_unique_witness :
  NoDup (id <$> Drag.handleDragEnd 1 canvas_with_text "Text" (Some "Text")).
Proof.
  refine (proj1 (palette_drop_keeps_ids_unique 1 canvas_with_text "Text"
                   (Some "Text") _ _ _)).
  - apply (bool_decide_unpack _). vm_compute. exact I.
  - apply (bool_decide_unpack _). vm_compute. exact I.
  - assert (canvas_with_text = [new_component 0 "Text"]) as ->
      by (vm_compute; reflexivity).
    constructor; [|constructor].
    exists "Text", 0. split_and!.
    + apply (bool_decide_unpack _). vm_compute. exact I.
    + lia.
    + reflexivity.
Defined.

(** X15.  Two drags of the same palette entry at the same value of
    [Date.now()] leave two components with the same id on the canvas,
    wherever they are dropped. *)
Theorem same_millisecond_drops_share_an_id now canvas active o1 o2 :
  active ∈ Drag.availableComponents →
  ¬ NoDup (id <$> Drag.handleDragEnd now
                    (Drag.handleDragEnd now canvas active (Some o1))
                    active (Some o2)).
Proof.
  intros Ha.
  rewrite (palette_drop_Permutation now _ active o2 Ha).
  rewrite (palette_drop_Permutation now canvas active o1 Ha).
  rewrite !fmap_cons. intros [Hnot _]%NoDup_cons.
  apply Hnot. by left.
Qed.

Lemma same_millisecond_drops_share_an_id_witness :
  ¬ NoDup (id <$> Drag.handleDragEnd 0 canvas_with_text "Text" (Some "Text")).
Proof.
  apply (same_millisecond_drops_share_an_id 0 [] "Text" "Text" "Text").
  apply (bool_decide_unpack _). vm_compute. exact I.
Defined.

(* ===================================================================== *)
(** ** Updates of props in sequence, and the selected component          *)
(* ===================================================================== *)

Lemma handleUpdateComponent_fmap i p c :
  handleUpdateComponent i p c = with_props i p <$> c.
Proof. reflexivity. Qed.

Lemma with_props_id i p comp : id (with_props i p comp) = id comp.
Proof. unfold with_props. by destruct (String.eqb _ _). Qed.

Lemma with_props_type i p comp : type (with_props i p comp) = type comp.
Proof. unfold with_props. by destruct (String.eqb _ _). Qed.

Lemma with_props_other i p comp : id comp ≠ i → with_props i p comp = comp.
Proof. unfold with_props. by intros ->%String.eqb_neq. Qed.

(** X16.  Updates of props in sequence: of two updates of the same
    component the second wins, updates of components with different ids
    can be swapped, and no update changes the ids, the types or the
    order of the components. *)
Theorem updates_compose i j p q c :
  handleUpdateComponent i q (handleUpdateComponent i p c)
  = handleUpdateComponent i q c
  ∧ (i ≠ j →
       handleUpdateComponent i p (handleUpdateComponent j q c)
       = handleUpdateComponent j q (handleUpdateComponent i p c))
  ∧ id <$> handleUpdateComponent i p c = id <$> c
  ∧ type <$> handleUpdateComponent i p c = type <$> c.
Proof.
  rewrite !handleUpdateComponent_fmap. split_and!.
  - rewrite <- list_fmap_compose. apply list_fmap_ext. intros k comp _.
    simpl. unfold with_props. simpl.
    destruct (String.eqb (id comp) i) eqn:E; simpl; by rewrite E.
  - intros Hij. rewrite <- !list_fmap_compose. apply list_fmap_ext.
    intros k comp _. simpl. unfold with_props.
    destruct (String.eqb (id comp) i) eqn:Ei,
             (String.eqb (id comp) j) eqn:Ej; simpl;
      rewrite ?Ei, ?Ej; try done.
    apply String.eqb_eq in Ei, Ej. congruence.
  - rewrite <- list_fmap_compose. apply list_fmap_ext. intros k comp _.
    apply with_props_id.
  - rewrite <- list_fmap_compose. apply list_fmap_ext. intros k comp _.
    apply with_props_type.
Qed.

(** Updates of the first and of the second of three components. *)
Lemma updates_compose_witness :
  handleUpdateComponent "A" ∅
    (handleUpdateComponent "B" {[ "text" := VStr "b" ]} ABC)
  = handleUpdateComponent "B" {[ "text" := VStr "b" ]}
      (handleUpdateComponent "A" ∅ ABC).
Proof.
  refine (proj1 (proj2 (updates_compose "A" "B" ∅ {[ "text" := VStr "b" ]}
                          ABC)) _).
  discriminate.
Defined.

Lemma find_fmap_with_props sel i p c :
  find sel (with_props i p <$> c) = with_props i p <$> find sel c.
Proof.
  unfold find. induction c as [|comp c IH]; [done|].
  rewrite fmap_cons. simpl. rewrite with_props_id.
  by destruct (String.eqb (id comp) sel).
Qed.

Lemma find_Some_eqb sel c comp : find sel c = Some comp → id comp = sel.
Proof.
  unfold find. intros H%find_some. by apply String.eqb_eq, H.
Qed.

(** X17.  The selected component after an update of props: when the
    update is of the selected id, it is the component that was selected
    with its props replaced by the new ones; when the update is of
    another id, it is the component that was selected, unchanged; and
    an update never makes a selection appear or go away. *)
Theorem selected_component_after_update sel i p c :
  find sel (handleUpdateComponent i p c)
  = match find sel c with
    | Some comp =>
        Some (if String.eqb sel i
              then {| id := id comp; type := type comp; props := p |}
              else comp)
    | None => None
    end.
Proof.
  rewrite handleUpdateComponent_fmap, find_fmap_with_props.
  destruct (find sel c) as [comp|] eqn:Hfind; [|done]. simpl.
  apply find_Some_eqb in Hfind as <-. done.
Qed.

Lemma findIndex_from_fmap i p x c a :
  findIndex_from x (with_props i p <$> c) a = findIndex_from x c a.
Proof.
  revert a. induction c as [|comp c IH]; intros a; [done|].
  rewrite fmap_cons. simpl. rewrite with_props_id, IH. done.
Qed.

Lemma splice_insert_fmap {A B} (f : A → B) l k x :
  f <$> splice_insert l k x = splice_insert (f <$> l) k (f x).
Proof.
  unfold splice_insert, splice_start.
  rewrite fmap_app, fmap_cons, fmap_take, fmap_drop, length_fmap. done.
Qed.

(** X18.  An update of the props of a component and a drag from the
    palette can be swapped, the id updated not being the one the drag
    makes: where the new component goes depends on the ids of the
    canvas only, and the drag leaves the props on the canvas alone. *)
Theorem update_commutes_with_palette_drop now canvas active over i p :
  active ∈ Drag.availableComponents →
  i ≠ id (new_component now active) →
  handleUpdateComponent i p (Drag.handleDragEnd now canvas active over)
  = Drag.handleDragEnd now (handleUpdateComponent i p canvas) active over.
Proof.
  intros Ha Hi. destruct over as [o|]; [|done].
  rewrite !palette_drop by done.
  rewrite !handleUpdateComponent_fmap.
  unfold findIndex. rewrite findIndex_from_fmap.
  destruct (negb _).
  - rewrite splice_insert_fmap. by rewrite with_props_other.
  - rewrite fmap_app. simpl. by rewrite with_props_other.
Qed.

(** An image dragged in at time 9, and the props of the text block on
    the canvas replaced. *)
Lemma update_commutes_with_palette_drop_witness :
  handleUpdateComponent "Text-0" ∅
    (Drag.handleDragEnd 9 canvas_with_text "Image" (Some "Text-0"))
  = Drag.handleDragEnd 9 (handleUpdateComponent "Text-0" ∅ canvas_with_text)
      "Image" (Some "Text-0").
Proof.
  apply update_commutes_with_palette_drop.
  - apply (bool_decide_unpack _). vm_compute. exact I.
  - vm_compute. discriminate.
Defined.

(* ===================================================================== *)
(** ** File events: what they leave alone, the first upload              *)
(* ===================================================================== *)


(** X19.  A file event without a file, or with a file whose type does
    not start with [image/], changes neither the canvas nor the object
    URLs: no URL is minted and none is released. *)
Theorem file_that_is_no_image_changes_nothing sel file st :
  (∀ f, file = Some f → startsWith (Url.file_type f) "image/" = false) →
  Files.pick_file sel file st = st ∧ Files.drop_file sel file st = st.
Proof.
  intros Hfile. split.
  - by apply (file_event_no_image _ (λ p, p) handleImageFileSelect_replace_src).
  - by apply (file_event_no_image _ (delete "styles") handleDrop_replace_src).
Qed.

(** A text file dropped on the image of the canvas. *)
Lemma file_that_is_no_image_changes_nothing_witness :
  Files.drop_file "Image-1" (Some {| Url.file_type := "text/plain" |})
    (image_canvas, image_env)
  = (image_canvas, image_env).
Proof.
  refine (proj2 (file_that_is_no_image_changes_nothing "Image-1"
                   (Some {| Url.file_type := "text/plain" |})
                   (image_canvas, image_env) _)).
  intros f [= <-]. reflexivity.
Defined.

(** X20.  The first image file picked for, or dropped on, an image whose
    [src] is no object URL (absent, or a string that does not start with
    [blob:]) mints one URL and releases none. *)
Theorem first_upload_releases_nothing sel file canvas env c :
  find sel canvas = Some c →
  type c = "Image" →
  startsWith (Url.file_type file) "image/" = true →
  props c !! "src" = None ∨ (∃ s, props c !! "src" = Some (VStr s)) →
  Files.blob_src c = None →
  (Files.pick_file sel (Some file) (canvas, env)).2
    = (Url.createObjectURL env).2
  ∧ (Files.drop_file sel (Some file) (canvas, env)).2
    = (Url.createObjectURL env).2
  ∧ Url.revoked (Url.createObjectURL env).2 = Url.revoked env
  ∧ Url.live (Url.createObjectURL env).2
    = {["blob:" +:+ pretty (Url.minted env)]} ∪ Url.live env.
Proof.
  intros Hfind Htype Hfile Hsrc Hblob. unfold Files.pick_file, Files.drop_file.
  rewrite (file_event_image _ (λ p, p) handleImageFileSelect_replace_src
             (λ _, eq_refl) sel file canvas env c) by done.
  rewrite (file_event_image _ (delete "styles") handleDrop_replace_src
             delete_styles_src sel file canvas env c) by done.
  by rewrite Hblob.
Qed.

(** The first file picked for the image just dragged in. *)
Lemma first_upload_releases_nothing_witness :
  Url.revoked (Files.pick_file "Image-0" (Some png)
                 (new_image_canvas, no_urls)).2 = [].
Proof.
  refine (eq_trans
            (f_equal Url.revoked
               (proj1 (first_upload_releases_nothing "Image-0" png
                         new_image_canvas no_urls (new_component 0 "Image")
                         _ _ _ _ _))) _).
  - vm_compute. reflexivity.
  - reflexivity.
  - vm_compute. reflexivity.
  - right. eexists. vm_compute. reflexivity.
  - vm_compute. reflexivity.
  - reflexivity.
Defined.

(** X21.  After an image file is dropped on an image of the canvas, the
    props of the image have no [styles]: the handler hands to [onUpdate]
    the props it took [styles] out of.  After a file is picked in the
    properties panel the props are the ones before, with the new
    [src]. *)
Theorem dropped_file_removes_styles sel file canvas env c :
  find sel canvas = Some c →
  type c = "Image" →
  startsWith (Url.file_type file) "image/" = true →
  props c !! "src" = None ∨ (∃ s, props c !! "src" = Some (VStr s)) →
  let u := "blob:" +:+ pretty (Url.minted env) in
  find sel (Files.drop_file sel (Some file) (canvas, env)).1
    = Some {| id := id c; type := type c;
              props := <["src" := VStr u]> (delete "styles" (props c)) |}
  ∧ find sel (Files.pick_file sel (Some file) (canvas, env)).1
    = Some {| id := id c; type := type c;
              props := <["src" := VStr u]> (props c) |}.
Proof.
  intros Hfind Htype Hfile Hsrc u. unfold Files.pick_file, Files.drop_file.
  rewrite (file_event_image _ (λ p, p) handleImageFileSelect_replace_src
             (λ _, eq_refl) sel file canvas env c) by done.
  rewrite (file_event_image _ (delete "styles") handleDrop_replace_src
             delete_styles_src sel file canvas env c) by done.
  simpl. split; by apply find_update.
Qed.

(** A file dropped on the image just dragged in. *)
Lemma dropped_file_removes_styles_witness :
  find "Image-0" (Files.drop_file "Image-0" (Some png)
                    (new_image_canvas, no_urls)).1
  = Some {| id := "Image-0"; type := "Image";
            props := <["src" := VStr "blob:0"]>
                       (delete "styles" (props (new_component 0 "Image"))) |}.
Proof.
  refine (proj1 (dropped_file_removes_styles "Image-0" png new_image_canvas
                   no_urls (new_component 0 "Image") _ _ _ _)).
  - vm_compute. reflexivity.
  - reflexivity.
  - vm_compute. reflexivity.
  - right. eexists. vm_compute. reflexivity.
Defined.

(** One file picked, on a canvas that is shown, with distinct ids, whose
    [src] props are strings: no URL is live and unheld after it that was
    not before, and the canvas is such a canvas again. *)
Lemma pick_file_leaks_nothing sel file canvas env :
  NoDup (id <$> canvas) →
  Forall src_is_text canvas →
  Forall (λ c, Files.renders c = true) canvas →
  Files.leaked (Files.pick_file sel file (canvas, env))
    ⊆ Files.leaked (canvas, env)
  ∧ NoDup (id <$> (Files.pick_file sel file (canvas, env)).1)
  ∧ Forall src_is_text (Files.pick_file sel file (canvas, env)).1
  ∧ Forall (λ c, Files.renders c = true)
      (Files.pick_file sel file (canvas, env)).1.
Proof.
  intros Hnd Htext Hshown. unfold Files.pick_file.
  destruct (find sel canvas) as [c|] eqn:Hfind;
    [|by unfold Files.file_event; rewrite Hfind].
  destruct (String.eqb (type c) "Image") eqn:Htype;
    [|by unfold Files.file_event; rewrite Hfind, Htype].
  apply String.eqb_eq in Htype.
  destruct file as [f|];
    [|by rewrite (file_event_no_image _ (λ p, p)
                    handleImageFileSelect_replace_src)].
  destruct (startsWith (Url.file_type f) "image/") eqn:Hfile;
    [|by rewrite (file_event_no_image _ (λ p, p)
                    handleImageFileSelect_replace_src);
        [|intros ? [= <-]]].
  destruct (find_Some_id _ _ _ Hfind) as [Hid Hin].
  assert (src_is_text c) as Hc by (by apply (proj1 (Forall_forall _ _) Htext)).
  rewrite (file_event_image _ (λ p, p) handleImageFileSelect_replace_src
             (λ _, eq_refl) sel f canvas env c) by done.
  set (u := "blob:" +:+ pretty (Url.minted env)).
  set (newProps := <["src" := VStr u]> (props c)).
  cbn [fst snd].
  assert (Files.blob_src {| id := id c; type := type c; props := newProps |}
          = Some u) as Hheld by apply blob_src_insert.
  split_and!.
  - intros x. unfold Files.leaked. cbn [fst snd].
    rewrite !elem_of_difference, !elem_of_bound. intros [Hlive Hnb].
    assert (x ≠ u) as Hxu.
    { intros ->. apply Hnb. eexists. split; [|exact Hheld].
      apply list_elem_of_In, (find_some _ _ (find_update _ _ _ _ Hfind)). }
    assert (x ∈ Url.live env ∧ Files.blob_src c ≠ Some x) as [Hx Hxc].
    { destruct (Files.blob_src c) as [s|]; simpl in Hlive.
      - apply elem_of_difference in Hlive as [Hl Hs].
        apply elem_of_union in Hl as [Hl%elem_of_singleton | Hl]; [done|].
        split; [done|]. intros [= ->]. apply Hs. by apply elem_of_singleton.
      - apply elem_of_union in Hlive as [Hl%elem_of_singleton | Hl]; done. }
    split; [done|]. intros (c0 & Hc0 & Hb0). apply Hnb.
    destruct (decide (id c0 = sel)) as [Hc0id | Hc0id].
    + assert (c0 = c) as -> by (eapply NoDup_ids_eq; eauto; congruence).
      congruence.
    + exists c0. split; [|done].
      unfold handleUpdateComponent. apply list_elem_of_fmap.
      exists c0. split; [|done].
      apply String.eqb_neq in Hc0id. by rewrite Hc0id.
  - by rewrite update_ids.
  - unfold handleUpdateComponent. apply Forall_fmap.
    eapply Forall_impl; [exact Htext|]. intros c0 Hc0. simpl.
    destruct (String.eqb (id c0) sel); [|done].
    right. exists u. unfold src_is_text, newProps. simpl.
    apply lookup_insert_eq.
  - by apply pick_keeps_renders.
Qed.

(** X27.  On a canvas that is shown, whose ids are distinct and whose
    [src] props are absent or strings, no run of files picked in the
    properties panel, images or not, for any components, leaves an
    object URL live and unheld that was not so before the run; and after
    the run the canvas is shown again. *)
Theorem file_picks_leak_nothing picks canvas env :
  NoDup (id <$> canvas) →
  Forall src_is_text canvas →
  Forall (λ c, Files.renders c = true) canvas →
  Files.leaked (file_picks picks (canvas, env)) ⊆ Files.leaked (canvas, env)
  ∧ Forall (λ c, Files.renders c = true) (file_picks picks (canvas, env)).1.
Proof.
  revert canvas env.
  induction picks as [|[sel file] picks IH]; intros canvas env Hnd Ht Hs;
    [done|].
  change (file_picks ((sel, file) :: picks) (canvas, env))
    with (file_picks picks (Files.pick_file sel file (canvas, env))).
  destruct (pick_file_leaks_nothing sel file canvas env Hnd Ht Hs)
    as (Hleak & Hnd' & Ht' & Hs').
  destruct (Files.pick_file sel file (canvas, env)) as [canvas1 env1].
  destruct (IH canvas1 env1 Hnd' Ht' Hs') as [Hleak' Hshown'].
  split; [|exact Hshown']. etrans; [exact Hleak' | exact Hleak].
Qed.

(** An image dragged in, a file picked for it, a second one, and a pick
    that is cancelled. *)
Lemma file_picks_leak_nothing_witness :
  Files.leaked
    (file_picks [("Image-0", Some png); ("Image-0", Some png);
                 ("Image-0", None)]
       (new_image_canvas, no_urls))
  ⊆ Files.leaked (new_image_canvas, no_urls).
Proof.
  refine (proj1 (file_picks_leak_nothing _ new_image_canvas no_urls _ _ _)).
  - apply (bool_decide_unpack _). vm_compute. exact I.
  - assert (new_image_canvas = [new_component 0 "Image"]) as ->
      by (vm_compute; reflexivity).
    constructor; [|constructor].
    right. eexists. vm_compute. reflexivity.
  - repeat constructor.
Defined.

(** After a text block has been dragged from the palette, the next text
    block reads as the defaults of text blocks. *)
Lemma cloned_defaults_are_independent_witness :
  Drag.DEFAULT_PROPS !! "Text"
  = Some (Heap.reify 101
            (Heap.new_props_Drag 101 cloned_text.1 Heap.Drag_heap.2 "Text").1
            (Heap.new_props_Drag 101 cloned_text.1 Heap.Drag_heap.2 "Text").2).
Proof.
  refine (proj2 (proj2 (proj2 (proj2 (proj2
            (cloned_defaults_are_independent 101 cloned_text.1 "Text"
               (default Heap.HNull
                  (Heap.get Heap.Drag_heap.1 Heap.Drag_heap.2 "Text"))
               _ _ _))))) 101%nat _).
  - apply Nat.leb_le. vm_compute. reflexivity.
  - apply rtc_once. apply (Heap.step_insert _ _ _ _ "Text").
  - vm_compute. reflexivity.
  - apply le_n.
Defined.

(* ===================================================================== *)
(** ** Where [NaN] can enter the props                                   *)
(* ===================================================================== *)

Lemma finite_obj_intro (m : gmap string value) :
  (∀ k v, m !! k = Some v → finite v = true) → finite (VObj m) = true.
Proof.
  simpl. induction m as [|i x m Hi Hfold IH] using map_first_key_ind;
    intros Hall.
  - by rewrite map_fold_empty.
  - rewrite map_fold_insert_first_key by done.
    apply andb_true_iff. split.
    + apply (Hall i). by rewrite lookup_insert_eq.
    + apply IH. intros k v Hk. apply (Hall k).
      rewrite lookup_insert_ne; [done|]. intros <-. congruence.
Qed.

Lemma finite_obj_insert (m : gmap string value) k v :
  finite (VObj m) = true → finite v = true →
  finite (VObj (<[k := v]> m)) = true.
Proof.
  intros Hm Hv. apply finite_obj_intro. intros k' v'.
  destruct (decide (k' = k)) as [-> | Hne].
  - rewrite lookup_insert_eq. by intros [= <-].
  - rewrite lookup_insert_ne by done. by apply finite_obj_lookup.
Qed.

Lemma finite_obj_insert_inv (m : gmap string value) k v :
  finite (VObj (<[k := v]> m)) = true → finite v = true.
Proof.
  intros H. eapply finite_obj_lookup; [exact H|]. apply lookup_insert_eq.
Qed.

(** A copy through JSON has no [NaN]. *)
Lemma json_clone_is_finite v : finite (json_clone v) = true.
Proof.
  induction v as [| b | [|z] | s | l IH | m IH] using value_ind'; try done.
  - rewrite json_clone_arr. simpl. apply forallb_forall.
    intros y Hy%list_elem_of_In. apply list_elem_of_fmap in Hy as (x & -> & Hx).
    by apply (proj1 (Forall_forall _ _) IH).
  - rewrite json_clone_obj. apply finite_obj_intro. intros k v.
    rewrite lookup_fmap. destruct (m !! k) as [x|] eqn:Hk; [|done].
    intros [= <-]. by apply (IH k).
Qed.

(** The own properties of a value without [NaN] have none. *)
Lemma finite_spread v :
  (∀ x, v = Some x → finite x = true) → finite (VObj (spread v)) = true.
Proof.
  intros Hv. apply finite_obj_intro. intros k y.
  destruct v as [[| | | s | l | m]|]; simpl; try by rewrite lookup_empty.
  - intros H%elem_of_list_to_map_2.
    apply list_elem_of_lookup in H as [i H].
    rewrite list_lookup_imap in H.
    destruct (list_ascii_of_string s !! i); [|done]. by injection H as _ <-.
  - intros H%elem_of_list_to_map_2.
    apply list_elem_of_lookup in H as [i H].
    rewrite list_lookup_imap in H.
    destruct (l !! i) as [x|] eqn:Hx; [|done]. injection H as _ <-.
    specialize (Hv _ eq_refl). simpl in Hv. rewrite forallb_forall in Hv.
    apply Hv, list_elem_of_In. by eapply list_elem_of_lookup_2.
  - intros Hk. by eapply finite_obj_lookup; [apply Hv|].
Qed.

(** X23.  An edit of a style field and [NaN].  The props of a component
    being without [NaN], the props [handleStyleChange] of [DragDrop]
    hands to [onUpdate] are without [NaN] for every event, and the props
    the handler of [Drag.jsx] hands over are without [NaN] unless the
    field is a number field whose text does not parse. *)
Theorem style_edit_keeps_finite props e :
  finite (VObj props) = true →
  finite (VObj (DragDrop.handleStyleChange props e)) = true
  ∧ (finite (VObj (Drag.handleStyleChange props e)) = true
     ↔ ¬ (Target.type e = "number" ∧ parseInt (Target.value e) = NaN)).
Proof.
  intros Hp.
  assert (finite (VObj (spread (props !! "styles"))) = true) as Hs.
  { apply finite_spread. intros x Hx. by eapply finite_obj_lookup. }
  split.
  - unfold DragDrop.handleStyleChange.
    apply finite_obj_insert; [done|]. apply finite_obj_insert; [done|].
    by destruct (parseInt _) as [|z]; simpl; [|destruct (z =? 0)].
  - unfold Drag.handleStyleChange. split.
    + intros H [Ht Hn].
      apply finite_obj_insert_inv, finite_obj_insert_inv in H.
      by rewrite Ht, Hn in H.
    + intros Hnot.
      apply finite_obj_insert; [done|]. apply finite_obj_insert; [done|].
      destruct (String.eqb (Target.type e) "number") eqn:Ht; [|done].
      apply String.eqb_eq in Ht.
      destruct (parseInt (Target.value e)) eqn:Hn; [|done].
      by destruct Hnot.
Qed.

(** The props of a text block, and its top margin edited to ["12px"]. *)
Lemma style_edit_keeps_finite_witness :
  finite (VObj (Drag.handleStyleChange Text_props
                  (number_input "marginTop" "12px"))) = true.
Proof.
  refine (proj2 (proj2 (style_edit_keeps_finite Text_props
                          (number_input "marginTop" "12px") _)) _).
  - vm_compute. reflexivity.
  - intros [_ H]. vm_compute in H. discriminate.
Defined.

Lemma resized_data_clone nc nr (hs cs : list value) :
  json_clone (resized_data nc nr (json_clone <$> hs) (json_clone <$> cs))
  = resized_data nc nr (json_clone <$> hs) (json_clone <$> cs).
Proof.
  unfold resized_data, obj. rewrite json_clone_obj. simpl.
  rewrite !fmap_insert, fmap_empty, !json_clone_arr.
  rewrite (resized_fmap json_clone nc), json_clone_fmap_idemp.
  assert (resized nr (VArr (replicate nc (VStr "New Cell")))
            (json_clone <$> cs)
          = json_clone <$> resized nr (VArr (replicate nc (VStr "New Cell"))) cs)
    as ->.
  { rewrite resized_fmap. by rewrite json_clone_arr, fmap_replicate. }
  by rewrite resized_rows_clone.
Qed.

(** X24.  An edit of the table form and [NaN].  The props of the table
    being without [NaN], the props [handleTableStructureChange] hands to
    [onUpdate] are without [NaN] whenever it reaches [onUpdate]; the
    control [hasHeader] is a checkbox. *)
Theorem table_edit_keeps_finite p e p' :
  structural e →
  (Target.name e = "hasHeader" → Target.type e = "checkbox") →
  finite (VObj p) = true →
  Drag.handleTableStructureChange p e = Ok p' →
  finite (VObj p') = true.
Proof.
  intros Hs Hbox Hp H.
  apply handleTableStructureChange_closed in H
    as (hs0 & cs0 & nc & nr & newRows & _ & _ & Hrows & Hcols & Hnr & ->);
    [|done].
  apply finite_obj_insert.
  - apply finite_obj_insert; [done|].
    destruct Hs as [Hn | [Hn | Hn]].
    + unfold new_value.
      rewrite (new_value_number e "rows" p newRows Hn Hrows).
      apply cell_rows_number in Hnr. by rewrite Hnr.
    + unfold new_value.
      by rewrite (new_value_number e "cols" p _ Hn Hcols).
    + unfold new_value. by rewrite (Hbox Hn).
  - rewrite <- resized_data_clone. apply json_clone_is_finite.
Qed.

(** The table of the palette with [cols] set to 7. *)
Lemma table_edit_keeps_finite_witness :
  finite (VObj (after_edit Table_props (number_input "cols" "7"))) = true.
Proof.
  refine (table_edit_keeps_finite Table_props (number_input "cols" "7")
            _ _ _ _ _).
  - right. left. reflexivity.
  - intros H. discriminate H.
  - vm_compute. reflexivity.
  - apply is_Ok_updated. vm_compute. reflexivity.
Defined.

(* ===================================================================== *)
(** ** The exported document and the import line                         *)
(* ===================================================================== *)

Lemma JSON_stringify_clone v : JSON_stringify (json_clone v) = JSON_stringify v.
Proof.
  induction v as [| b | [|z] | s | l IH | m IH] using value_ind'; try done.
  - rewrite json_clone_arr. simpl. f_equal. rewrite <- list_fmap_compose.
    apply list_fmap_ext. intros i x Hi. simpl.
    eapply (proj1 (Forall_lookup _ _) IH); eauto.
  - rewrite json_clone_obj. simpl. f_equal. rewrite <- map_fmap_compose.
    apply map_eq. intros k. rewrite !lookup_fmap.
    destruct (m !! k) as [x|] eqn:Hk; [|done]. simpl. f_equal.
    by apply (IH k).
Qed.

Lemma component_value_clone c :
  json_clone (Drag.component_value c) = Drag.component_value (clone_component c).
Proof.
  unfold Drag.component_value, obj. rewrite json_clone_obj. simpl.
  rewrite !fmap_insert, fmap_empty. by rewrite json_clone_obj.
Qed.

Lemma component_value_inj c1 c2 :
  Drag.component_value c1 = Drag.component_value c2 → c1 = c2.
Proof.
  intros H. destruct c1 as [i1 t1 p1], c2 as [i2 t2 p2].
  pose proof (f_equal (λ v, as_object v !! "id") H) as Hi.
  pose proof (f_equal (λ v, as_object v !! "type") H) as Ht.
  pose proof (f_equal (λ v, as_object v !! "props") H) as Hp.
  unfold Drag.component_value, obj in Hi, Ht, Hp. simpl in Hi, Ht, Hp.
  rewrite !lookup_insert_eq in Hi.
  rewrite !(lookup_insert_ne _ "id" "type"), !lookup_insert_eq in Ht by done.
  rewrite !(lookup_insert_ne _ "id" "props"),
    !(lookup_insert_ne _ "type" "props"), !lookup_insert_eq in Hp by done.
  congruence.
Qed.

Lemma pageJson_clone b :
  Drag.pageJson (clone_component <$> b) = Drag.pageJson b.
Proof.
  unfold Drag.pageJson. rewrite <- (JSON_stringify_clone (obj _)).
  rewrite <- (JSON_stringify_clone (obj [_; ("components", VArr (_ <$> b))])).
  f_equal. unfold obj. rewrite !json_clone_obj. simpl.
  rewrite !fmap_insert, !fmap_empty, !json_clone_arr. do 4 f_equal.
  rewrite <- !list_fmap_compose. apply list_fmap_ext. intros i c _. simpl.
  rewrite !component_value_clone. f_equal.
  destruct c as [ci ct cp]. unfold clone_component. simpl. f_equal.
  rewrite <- map_fmap_compose. apply map_eq. intros k. rewrite !lookup_fmap.
  destruct (cp !! k); [|done]. simpl. f_equal. apply json_clone_idemp.
Qed.

Lemma fmap_eq_fmap {A B C} (f : A → B) (g : A → C) (l1 l2 : list A) :
  (∀ x y, f x = f y → g x = g y) → f <$> l1 = f <$> l2 → g <$> l1 = g <$> l2.
Proof.
  intros Hfg. revert l2. induction l1 as [|x l1 IH]; intros [|y l2] H;
    try done.
  rewrite !fmap_cons in *. injection H as Hx Hl. f_equal; auto.
Qed.

Lemma pageJson_clone_inj b1 b2 :
  Drag.pageJson b1 = Drag.pageJson b2 →
  clone_component <$> b1 = clone_component <$> b2.
Proof.
  unfold Drag.pageJson. intros H. apply (f_equal JSON_parse) in H.
  change (JSON_parse (JSON_stringify ?v)) with (json_clone v) in H.
  apply (f_equal (λ v, as_object v !! "components")) in H.
  unfold obj in H. rewrite !json_clone_obj in H. simpl in H.
  rewrite !fmap_insert, !fmap_empty in H.
  rewrite !(lookup_insert_ne _ "name" "components"), !lookup_insert_eq in H
    by done.
  rewrite !json_clone_arr in H. injection H as H.
  rewrite <- !list_fmap_compose in H.
  eapply fmap_eq_fmap; [|exact H].
  intros c1 c2 Hc. simpl in Hc. rewrite !component_value_clone in Hc.
  by apply component_value_inj.
Qed.

Lemma clone_component_idemp c :
  clone_component (clone_component c) = clone_component c.
Proof.
  destruct c as [ci ct cp]. unfold clone_component. simpl. f_equal.
  rewrite <- map_fmap_compose. apply map_eq. intros k. rewrite !lookup_fmap.
  destruct (cp !! k); [|done]. simpl. f_equal. apply json_clone_idemp.
Qed.

(** X25.  Two blueprints have the same exported document exactly when
    they are equal after every props object has been copied through
    JSON.  So the document determines the blueprint among the blueprints
    whose props are their own copies through JSON, as the props of every
    blueprint read from a document are: two of these with the same
    document are equal, with the same components in the same order with
    the same ids, types and props. *)
Theorem exported_document_determines_blueprint b1 b2 :
  (Drag.pageJson b1 = Drag.pageJson b2
   ↔ clone_component <$> b1 = clone_component <$> b2)
  ∧ (Forall (λ c, clone_component c = c) b1 →
     Forall (λ c, clone_component c = c) b2 →
     Drag.pageJson b1 = Drag.pageJson b2 → b1 = b2)
  ∧ Forall (λ c, clone_component c = c) (clone_component <$> b1).
Proof.
  split_and!; [split| |].
  - apply pageJson_clone_inj.
  - intros H. by rewrite <- (pageJson_clone b1), <- (pageJson_clone b2), H.
  - intros H1 H2 H%pageJson_clone_inj.
    rewrite <- (list_fmap_id b1), <- (list_fmap_id b2).
    erewrite (list_fmap_ext _ clone_component b1),
      (list_fmap_ext _ clone_component b2); [exact H | |].
    + intros i c Hi. symmetry. by apply (proj1 (Forall_lookup _ _) H2 i).
    + intros i c Hi. symmetry. by apply (proj1 (Forall_lookup _ _) H1 i).
  - apply Forall_fmap, Forall_forall. intros c _. apply clone_component_idemp.
Qed.

(** The canvas with the text block, and the same read through JSON. *)
Lemma exported_document_determines_blueprint_witness :
  canvas_with_text = clone_component <$> canvas_with_text.
Proof.
  refine (proj1 (proj2 (exported_document_determines_blueprint
                          canvas_with_text
                          (clone_component <$> canvas_with_text))) _ _ _).
  - constructor; [vm_compute; reflexivity | constructor].
  - constructor; [vm_compute; reflexivity | constructor].
  - vm_compute. reflexivity.
Defined.

Lemma new_Set_snoc l x :
  ExportModal.new_Set (l ++ [x])
  = ExportModal.Set_add (ExportModal.new_Set l) x.
Proof. unfold ExportModal.new_Set. by rewrite foldl_app. Qed.

Lemma new_Set_first_occurrences l :
  ExportModal.new_Set l = reverse (remove_dups (reverse l)).
Proof.
  induction l as [|x l IH] using rev_ind; [done|].
  rewrite new_Set_snoc, reverse_snoc, IH. simpl.
  unfold ExportModal.Set_add.
  assert (x ∈ reverse (remove_dups (reverse l)) ↔ x ∈ reverse l) as Hiff.
  { by rewrite elem_of_reverse, elem_of_remove_dups. }
  destruct (decide_rel elem_of x (reverse l)) as [Hin | Hnot].
  - by rewrite bool_decide_eq_true_2 by by apply Hiff.
  - rewrite bool_decide_eq_false_2 by (by rewrite Hiff).
    by rewrite reverse_cons.
Qed.

(** X26.  The import line of the exported code names every type of
    component on the canvas, each once, in the order in which the types
    first occur on the canvas, and no other. *)
Theorem imports_name_each_type_once components :
  NoDup (ExportModal.imported components)
  ∧ (∀ t, t ∈ ExportModal.imported components ↔ t ∈ type <$> components)
  ∧ ExportModal.imported components
    = reverse (remove_dups (reverse (type <$> components))).
Proof.
  unfold ExportModal.imported. rewrite new_Set_first_occurrences.
  split_and!.
  - rewrite reverse_Permutation. apply NoDup_remove_dups.
  - intros t. by rewrite elem_of_reverse, elem_of_remove_dups, elem_of_reverse.
  - done.
Qed.
